(** * Autoencoders on MNIST and CIFAR-10: a shallow embedding

    The repository holds four training scripts,
    [autoencoders/mnist_old/feedforward.py], [convolutional_cifar.py],
    [resnet_cifar.py] and [conditional_autoencoder.py].  Each one declares
    an encoder and a decoder out of PyTorch layers, composes them into an
    [Autoencoder], and runs the loop [train; test; checkpoint] for a fixed
    number of epochs.

    The file has two parts.  The first part embeds the programs: a model of
    the part of PyTorch the scripts call (module [Torch]), then one module
    per script with the classes and functions of that script under their
    own names.  The second part states and proves properties of these
    definitions.

    Numbers.  Tensor dimensions are [N]; loop counters and epochs are
    [nat]; tensor elements are real numbers ([R]), the usual idealisation
    of the floating-point values of the library. *)

From Stdlib Require Import String Ascii List Bool Arith NArith ZArith Lia.
From Stdlib Require Import Reals Lra DecimalString DecimalNat DecimalN.
Import ListNotations.

Set Implicit Arguments.

(** ** The PyTorch interface used by the scripts *)

Module Torch.

(** A tensor is its shape together with its elements in row-major order. *)
Record tensor : Type := mkTensor { shape : list N; data : list R }.

(** An integer (long) one-dimensional tensor, used for class labels. *)
Definition LongTensor : Type := list N.

Definition numel (s : list N) : N := fold_right N.mul 1%N s.

(** [torch.zeros(size)] *)
Definition zeros (size : list N) : tensor :=
  mkTensor size (repeat 0%R (N.to_nat (numel size))).

(** The tensor of shape [size] whose element at position [i] is [f i]. *)
Definition tabulate (size : list N) (f : nat -> R) : tensor :=
  mkTensor size (map f (seq 0 (N.to_nat (numel size)))).

(** [torch.zeros(batch_size).long()] *)
Definition long_zeros (batch_size : N) : LongTensor :=
  repeat 0%N (N.to_nat batch_size).

(** A scalar loss.  The only value outside the reals that the scripts can
    reach in this idealisation is the mean of an empty tensor, which the
    library evaluates to NaN. *)
Inductive LossValue : Type :=
| Finite (r : R)
| NaN.

Definition loss_add (a b : LossValue) : LossValue :=
  match a, b with
  | Finite x, Finite y => Finite (x + y)
  | _, _ => NaN
  end.

Definition loss_div (a : LossValue) (n : nat) : LossValue :=
  match a with
  | Finite x => Finite (x / INR n)
  | NaN => NaN
  end.

(** The parameter store.  Every parameter and buffer of a model is a cell
    of the store; layers hold the index of their cells, as Python objects
    hold references to their [Parameter]s.  [model.state_dict()] is the
    store itself and the optimizer updates it in place. *)
Definition Heap : Type := list (list R).

Definition heap_read (h : Heap) (r : nat) : list R := nth r h [].

Fixpoint heap_write (h : Heap) (r : nat) (v : list R) : Heap :=
  match h, r with
  | [], _ => []
  | _ :: h', O => v :: h'
  | c :: h', S r' => c :: heap_write h' r' v
  end.

(** What the scripts take from the library without looking inside: the
    random generator seeded by [torch.manual_seed], the convolution and
    normalisation kernels, automatic differentiation and the Adam update.
    A kernel gives the element at each position of the tensor that the
    layer produces; the layer computes the shape of that tensor. *)
Class Backend : Type := {
  Generator : Type;
  (** [Tensor.uniform_(lo, hi)] on [count] elements *)
  uniform_ : R -> R -> nat -> Generator -> list R * Generator;
  (** [Tensor.normal_(mean, std)] on [count] elements *)
  normal_ : R -> R -> nat -> Generator -> list R * Generator;
  (** [F.conv2d(input, weight, bias, stride, padding)] *)
  conv2d_data : list R -> list R -> N -> N -> tensor -> nat -> R;
  (** [F.conv_transpose2d(input, weight, bias, stride, padding, output_padding)] *)
  conv_transpose2d_data :
    list R -> list R -> N -> N -> N -> tensor -> nat -> R;
  (** [F.batch_norm(input, running_mean, running_var, weight, bias, training)] *)
  batch_norm_data :
    list R -> list R -> list R -> list R -> bool -> tensor -> nat -> R;
  (** the running mean and variance after a training-mode call *)
  batch_norm_stats : list R -> list R -> tensor -> list R * list R;
  (** [loss.backward()]: the gradient, at the current store, of the loss
      seen as a function of the store, added to the gradients already
      accumulated *)
  backward : (Heap -> LossValue) -> Heap -> Heap -> Heap;
  OptimizerState : Type;
  (** [optim.Adam(model.parameters())] *)
  Adam : OptimizerState;
  (** [optimizer.step()] *)
  adam_step : OptimizerState -> Heap -> Heap -> Heap * OptimizerState
}.

(** *** Shapes *)

(** Output size of a convolution along one spatial dimension (dilation 1);
    the library raises when the padded input is smaller than the kernel. *)
Definition conv_out (size kernel stride padding : N) : option N :=
  if (size + 2 * padding <? kernel)%N then None
  else Some ((size + 2 * padding - kernel) / stride + 1)%N.

(** Output size of a transposed convolution along one spatial dimension;
    the library requires [output_padding < stride]. *)
Definition conv_transpose_out
  (size kernel stride padding output_padding : N) : option N :=
  if (size =? 0)%N || (stride <=? output_padding)%N
     || ((size - 1) * stride + kernel + output_padding <? 2 * padding + 1)%N
  then None
  else Some ((size - 1) * stride + kernel + output_padding - 2 * padding)%N.

(** Broadcasting of two shapes, aligned on their last dimensions. *)
Fixpoint broadcast_rev (r1 r2 : list N) : option (list N) :=
  match r1, r2 with
  | [], r => Some r
  | r, [] => Some r
  | a :: r1', b :: r2' =>
      match broadcast_rev r1' r2' with
      | None => None
      | Some r =>
          if (a =? b)%N then Some (a :: r)
          else if (a =? 1)%N then Some (b :: r)
          else if (b =? 1)%N then Some (a :: r)
          else None
      end
  end.

Definition broadcast_shapes (s1 s2 : list N) : option (list N) :=
  option_map (@rev N) (broadcast_rev (rev s1) (rev s2)).

(** [pad_left n s] puts ones in front of [s] until it has [n] dimensions. *)
Definition pad_left (n : nat) (s : list N) : list N :=
  repeat 1%N (n - length s) ++ s.

(** The elements of a tensor of shape [s] expanded to shape [t], where the
    two shapes have the same length and each dimension of [s] is either 1
    or the dimension of [t]. *)
Fixpoint expand (s t : list N) (d : list R) : list R :=
  match s, t with
  | ds :: s', dt :: t' =>
      let inner := N.to_nat (numel s') in
      let block i := expand s' t' (firstn inner (skipn (i * inner) d)) in
      if (ds =? dt)%N then flat_map block (seq 0 (N.to_nat ds))
      else flat_map (fun _ => block O) (seq 0 (N.to_nat dt))
  | _, _ => d
  end.

Definition zip_with (f : R -> R -> R) (l1 l2 : list R) : list R :=
  map (fun p => f (fst p) (snd p)) (combine l1 l2).

Definition shape_eqb (s1 s2 : list N) : bool :=
  if list_eq_dec N.eq_dec s1 s2 then true else false.

(** An elementwise binary operation with broadcasting. *)
Definition broadcast_op (f : R -> R -> R) (x y : tensor) : option tensor :=
  if shape_eqb (shape x) (shape y)
  then Some (mkTensor (shape x) (zip_with f (data x) (data y)))
  else
    match broadcast_shapes (shape x) (shape y) with
    | None => None
    | Some s =>
        let n := length s in
        Some (mkTensor s
                (zip_with f (expand (pad_left n (shape x)) s (data x))
                            (expand (pad_left n (shape y)) s (data y))))
    end.

(** [x + y] and [x * y] on tensors *)
Definition add := broadcast_op Rplus.
Definition mul := broadcast_op Rmult.

(** [Tensor.view(sizes)]; one size may be [-1] and is then inferred. *)
Definition view (sizes : list Z) (x : tensor) : option tensor :=
  let n := numel (shape x) in
  let known := filter (fun z => negb (z =? -1)%Z) sizes in
  let p := numel (map Z.to_N known) in
  if existsb (fun z => (z <? 0)%Z) known then None
  else
    match (length sizes - length known)%nat with
    | O => if (p =? n)%N then Some (mkTensor (map Z.to_N sizes) (data x)) else None
    | S O =>
        if (p =? 0)%N || negb (n mod p =? 0)%N then None
        else Some (mkTensor
                     (map (fun z => if (z =? -1)%Z then (n / p)%N else Z.to_N z) sizes)
                     (data x))
    | _ => None
    end.

(** [list(x.size())[0]] *)
Definition size0 (x : tensor) : option N := hd_error (shape x).

(** *** Pointwise functions *)

Definition map_tensor (f : R -> R) (x : tensor) : tensor :=
  mkTensor (shape x) (map f (data x)).

Definition relu : tensor -> tensor := map_tensor (Rmax 0).

Definition elu : tensor -> tensor :=
  map_tensor (fun v => if Rlt_dec 0 v then v else (exp v - 1)%R).

Definition tanh : tensor -> tensor := map_tensor Rtrigo_def.tanh.

Definition sigmoid_fn (v : R) : R := (/ (1 + exp (- v)))%R.

Definition sigmoid : tensor -> tensor := map_tensor sigmoid_fn.

(** *** Losses *)

Definition mean (l : list R) : LossValue :=
  match l with
  | [] => NaN
  | _ => Finite (fold_right Rplus 0%R l / INR (length l))
  end.

(** [F.mse_loss(input, target)] with the default mean reduction *)
Definition mse_loss (input target : tensor) : option LossValue :=
  option_map (fun d => mean (data d))
    (broadcast_op (fun a b => ((a - b) * (a - b))%R) input target).

(** The logarithm clamped below at [-100], as binary cross-entropy takes it. *)
Definition clamp_log (v : R) : R :=
  if Rle_dec v 0 then (-100)%R else Rmax (ln v) (-100).

Definition bce_fn (x y : R) : R :=
  (- (y * clamp_log x + (1 - y) * clamp_log (1 - x)))%R.

Definition in_unit (v : R) : Prop := (0 <= v <= 1)%R.

Definition in_unitb (v : R) : bool :=
  if Rle_dec 0 v then (if Rle_dec v 1 then true else false) else false.

(** [F.binary_cross_entropy(input, target)]: the shapes must agree and every
    element of [input] must lie in [0,1]. *)
Definition binary_cross_entropy (input target : tensor) : option LossValue :=
  if shape_eqb (shape input) (shape target) && forallb in_unitb (data input)
  then Some (mean (zip_with bce_fn (data input) (data target)))
  else None.

(** *** Programs

    A Python function is embedded as a program over the state of the
    process: it reads and updates the state, leaves a trace of the calls
    that are observable from outside, and either returns a value or raises.
    The state and the trace survive an exception. *)

Inductive FileContent : Type :=
| Image (t : tensor) (nrow : N)
| StateDict (h : Heap).

Inductive Event : Type :=
| EmbeddingLookup (weight : nat) (input : LongTensor)
| SaveFile (path : string) (content : FileContent)
| MakeDirs (path : string)
| Print (line : string)
| SetDescription (desc : string) (value : LossValue).

Section Programs.
Context {B : Backend}.

Record World : Type := mkWorld {
  heap : Heap;                  (* parameters and buffers of the model *)
  rng : Generator;              (* the global random generator *)
  training : bool;              (* [model.training], set by train() and eval() *)
  grad : Heap;                  (* the [.grad] of every parameter *)
  optimizer : OptimizerState;
  dirs : list string            (* directories present on disk *)
}.

Record Result (A : Type) : Type := mkResult {
  events : list Event;
  final : World;
  value : option A
}.

Definition Prog (A : Type) : Type := World -> Result A.

Definition ret {A} (a : A) : Prog A := fun w => mkResult [] w (Some a).

Definition bind {A C} (m : Prog A) (f : A -> Prog C) : Prog C := fun w =>
  let r := m w in
  match value r with
  | Some a =>
      let r' := f a (final r) in
      mkResult (events r ++ events r') (final r') (value r')
  | None => mkResult (events r) (final r) None
  end.

Definition raise {A} : Prog A := fun w => mkResult [] w None.

Definition lift {A} (o : option A) : Prog A := fun w => mkResult [] w o.

Definition emit (e : Event) : Prog unit := fun w => mkResult [e] w (Some tt).

Definition gets {A} (f : World -> A) : Prog A :=
  fun w => mkResult [] w (Some (f w)).

Definition modify (f : World -> World) : Prog unit :=
  fun w => mkResult [] (f w) (Some tt).

Definition set_heap (h : Heap) (w : World) : World :=
  mkWorld h (rng w) (training w) (grad w) (optimizer w) (dirs w).

Definition set_rng (g : Generator) (w : World) : World :=
  mkWorld (heap w) g (training w) (grad w) (optimizer w) (dirs w).

Definition set_training (b : bool) (w : World) : World :=
  mkWorld (heap w) (rng w) b (grad w) (optimizer w) (dirs w).

Definition set_grad (g : Heap) (w : World) : World :=
  mkWorld (heap w) (rng w) (training w) g (optimizer w) (dirs w).

Definition set_optimizer (o : OptimizerState) (w : World) : World :=
  mkWorld (heap w) (rng w) (training w) (grad w) o (dirs w).

Definition set_dirs (d : list string) (w : World) : World :=
  mkWorld (heap w) (rng w) (training w) (grad w) (optimizer w) d.

End Programs.

Declare Scope prog_scope.
Delimit Scope prog_scope with prog.
Notation "x <- m ;; k" := (bind m (fun x => k))
  (at level 61, m at next level, right associativity) : prog_scope.
Notation "m ;; k" := (bind m (fun _ => k))
  (at level 61, right associativity) : prog_scope.
Open Scope prog_scope.

Section Library.
Context {B : Backend}.

(** [for i, a in enumerate(l): acc = body(i, a, acc)], the local variables
    that the loop body updates being carried in [acc]. *)
Fixpoint for_enumerate {A S : Type}
  (i : nat) (l : list A) (body : nat -> A -> S -> Prog S) (acc : S) : Prog S :=
  match l with
  | [] => ret acc
  | a :: l' => acc' <- body i a acc;; for_enumerate (Datatypes.S i) l' body acc'
  end.

(** [for a in l: body(a)] *)
Fixpoint for_each {A : Type} (l : list A) (body : A -> Prog unit) : Prog unit :=
  match l with
  | [] => ret tt
  | a :: l' => body a;; for_each l' body
  end.

(** [f(m(...))] for a function [f] of the library that cannot raise. *)
Definition fmap {A C : Type} (f : A -> C) (m : Prog A) : Prog C :=
  a <- m;; ret (f a).

(** A batch of a data loader: the images and their class labels. *)
Definition Batch : Type := (tensor * LongTensor)%type.

(** A data loader, iterated once per epoch; the batches may come in a
    different order at each iteration.  The loaders themselves
    ([get_mnist], [get_cifar10]) are not part of the scripts and are taken
    as arguments. *)
Definition DataLoader : Type := nat -> list Batch.

(** Registering a new parameter or buffer with the given initial value. *)
Definition new_parameter (v : list R) : Prog nat :=
  r <- gets (fun w => length (heap w));;
  modify (fun w => set_heap (heap w ++ [v]) w);;
  ret r.

Definition load (r : nat) : Prog (list R) :=
  gets (fun w => heap_read (heap w) r).

Definition load_opt (r : option nat) : Prog (list R) :=
  match r with
  | Some r => load r
  | None => ret []
  end.

Definition store (r : nat) (v : list R) : Prog unit :=
  modify (fun w => set_heap (heap_write (heap w) r v) w).

Definition draw_uniform (lo hi : R) (count : nat) : Prog (list R) :=
  g <- gets rng;;
  modify (set_rng (snd (uniform_ lo hi count g)));;
  ret (fst (uniform_ lo hi count g)).

Definition draw_normal (mean std : R) (count : nat) : Prog (list R) :=
  g <- gets rng;;
  modify (set_rng (snd (normal_ mean std count g)));;
  ret (fst (normal_ mean std count g)).

(** [model.train()] and [model.eval()] *)
Definition model_train : Prog unit := modify (set_training true).
Definition model_eval : Prog unit := modify (set_training false).

(** **** [nn.Linear(in_features, out_features)] *)

Record Linear : Type := mkLinear {
  in_features : N;
  out_features : N;
  lin_weight : nat;
  lin_bias : nat
}.

Definition Linear_init (i o : N) : Prog Linear :=
  let bound := (/ sqrt (IZR (Z.of_N i)))%R in
  w <- draw_uniform (- bound) bound (N.to_nat (o * i));;
  wr <- new_parameter w;;
  b <- draw_uniform (- bound) bound (N.to_nat o);;
  br <- new_parameter b;;
  ret (mkLinear i o wr br).

(** Row [r] of the output is [W * row r of the input + b]. *)
Definition linear_data (i o : nat) (w b x : list R) (rows : nat) : list R :=
  flat_map
    (fun r =>
       map (fun j =>
              fold_right Rplus (nth j b 0%R)
                (map (fun k => (nth (j * i + k) w 0 * nth (r * i + k) x 0)%R)
                     (seq 0 i)))
           (seq 0 o))
    (seq 0 rows).

(** [F.linear]: the last dimension of the input must be [in_features]. *)
Definition F_linear (i o : N) (w b : list R) (x : tensor) : option tensor :=
  match rev (shape x) with
  | last :: front =>
      if (last =? i)%N
      then Some (mkTensor (rev (o :: front))
                   (linear_data (N.to_nat i) (N.to_nat o) w b (data x)
                      (N.to_nat (numel front))))
      else None
  | [] => None
  end.

Definition Linear_forward (l : Linear) (x : tensor) : Prog tensor :=
  w <- load (lin_weight l);;
  b <- load (lin_bias l);;
  lift (F_linear (in_features l) (out_features l) w b x).

(** **** [nn.Conv2d(in_channels, out_channels, kernel_size, stride, padding, bias)] *)

Record Conv2d : Type := mkConv2d {
  in_channels : N;
  out_channels : N;
  kernel_size : N;
  stride : N;
  padding : N;
  conv_weight : nat;
  conv_bias : option nat
}.

Definition Conv2d_init (i o k s p : N) (has_bias : bool) : Prog Conv2d :=
  let bound := (/ sqrt (IZR (Z.of_N (i * k * k))))%R in
  w <- draw_uniform (- bound) bound (N.to_nat (o * i * k * k));;
  wr <- new_parameter w;;
  br <- (if has_bias
         then b <- draw_uniform (- bound) bound (N.to_nat o);;
              r <- new_parameter b;;
              ret (Some r)
         else ret None);;
  ret (mkConv2d i o k s p wr br).

(** The input must be a batch [n; c; h; w] with [c = in_channels]. *)
Definition Conv2d_forward (c : Conv2d) (x : tensor) : Prog tensor :=
  match shape x with
  | [n; ch; h; w] =>
      if (ch =? in_channels c)%N then
        match conv_out h (kernel_size c) (stride c) (padding c),
              conv_out w (kernel_size c) (stride c) (padding c) with
        | Some h', Some w' =>
            wt <- load (conv_weight c);;
            b <- load_opt (conv_bias c);;
            ret (tabulate [n; out_channels c; h'; w']
                   (conv2d_data wt b (stride c) (padding c) x))
        | _, _ => raise
        end
      else raise
  | _ => raise
  end.

(** **** [nn.ConvTranspose2d(in_channels, out_channels, kernel_size, stride,
         padding, output_padding)] *)

Record ConvTranspose2d : Type := mkConvTranspose2d {
  ct_in_channels : N;
  ct_out_channels : N;
  ct_kernel_size : N;
  ct_stride : N;
  ct_padding : N;
  ct_output_padding : N;
  ct_weight : nat;
  ct_bias : nat
}.

Definition ConvTranspose2d_init (i o k s p op : N) : Prog ConvTranspose2d :=
  let bound := (/ sqrt (IZR (Z.of_N (o * k * k))))%R in
  w <- draw_uniform (- bound) bound (N.to_nat (i * o * k * k));;
  wr <- new_parameter w;;
  b <- draw_uniform (- bound) bound (N.to_nat o);;
  br <- new_parameter b;;
  ret (mkConvTranspose2d i o k s p op wr br).

Definition ConvTranspose2d_forward (c : ConvTranspose2d) (x : tensor)
  : Prog tensor :=
  match shape x with
  | [n; ch; h; w] =>
      if (ch =? ct_in_channels c)%N then
        match conv_transpose_out h (ct_kernel_size c) (ct_stride c)
                (ct_padding c) (ct_output_padding c),
              conv_transpose_out w (ct_kernel_size c) (ct_stride c)
                (ct_padding c) (ct_output_padding c) with
        | Some h', Some w' =>
            wt <- load (ct_weight c);;
            b <- load (ct_bias c);;
            ret (tabulate [n; ct_out_channels c; h'; w']
                   (conv_transpose2d_data wt b (ct_stride c) (ct_padding c)
                      (ct_output_padding c) x))
        | _, _ => raise
        end
      else raise
  | _ => raise
  end.

(** **** [nn.BatchNorm2d(num_features, affine)]

    In training mode the call normalises with the statistics of the batch
    and updates the running statistics; in evaluation mode it normalises
    with the running statistics and updates nothing.  The shape contract is
    the documented one: a batch [n; c; h; w] with [c = num_features] gives
    a tensor of the same shape. *)

Record BatchNorm2d : Type := mkBatchNorm2d {
  num_features : N;
  bn_weight : option nat;
  bn_bias : option nat;
  running_mean : nat;
  running_var : nat
}.

Definition BatchNorm2d_init (f : N) (affine : bool) : Prog BatchNorm2d :=
  wr <- (if affine
         then r <- new_parameter (repeat 1%R (N.to_nat f));; ret (Some r)
         else ret None);;
  br <- (if affine
         then r <- new_parameter (repeat 0%R (N.to_nat f));; ret (Some r)
         else ret None);;
  rm <- new_parameter (repeat 0%R (N.to_nat f));;
  rv <- new_parameter (repeat 1%R (N.to_nat f));;
  ret (mkBatchNorm2d f wr br rm rv).

Definition BatchNorm2d_forward (bn : BatchNorm2d) (x : tensor) : Prog tensor :=
  match shape x with
  | [n; ch; h; w] =>
      if (ch =? num_features bn)%N then
        wt <- load_opt (bn_weight bn);;
        b <- load_opt (bn_bias bn);;
        rm <- load (running_mean bn);;
        rv <- load (running_var bn);;
        tr <- gets training;;
        (if tr : bool
         then store (running_mean bn) (fst (batch_norm_stats rm rv x));;
              store (running_var bn) (snd (batch_norm_stats rm rv x))
         else ret tt);;
        ret (tabulate (shape x) (batch_norm_data rm rv wt b tr x))
      else raise
  | _ => raise
  end.

(** **** [nn.Embedding(num_embeddings, embedding_dim)] *)

Record Embedding : Type := mkEmbedding {
  num_embeddings : N;
  embedding_dim : N;
  emb_weight : nat
}.

Definition Embedding_init (n d : N) : Prog Embedding :=
  w <- draw_normal 0 1 (N.to_nat (n * d));;
  wr <- new_parameter w;;
  ret (mkEmbedding n d wr).

(** Row [i] of a matrix with [d] columns stored row-major in [w]. *)
Definition row (d : nat) (w : list R) (i : nat) : list R :=
  map (fun j => nth (i * d + j) w 0%R) (seq 0 d).

(** The lookup raises on an index that is not below [num_embeddings]; the
    call is recorded in the trace with the indices it received. *)
Definition Embedding_forward (e : Embedding) (y : LongTensor) : Prog tensor :=
  emit (EmbeddingLookup (emb_weight e) y);;
  w <- load (emb_weight e);;
  if forallb (fun i => (i <? num_embeddings e)%N) y
  then ret (mkTensor [N.of_nat (length y); embedding_dim e]
              (flat_map (fun i => row (N.to_nat (embedding_dim e)) w (N.to_nat i)) y))
  else raise.

(** Columns [lo, lo + len) of every row of a matrix with [d] columns. *)
Definition columns (rows d lo len : nat) (w : list R) : list R :=
  flat_map (fun i => map (fun j => nth (i * d + lo + j) w 0%R) (seq 0 len))
           (seq 0 rows).

(** [a, b = t.chunk(2, 1)] on a matrix: two blocks of columns, the first
    of [ceil(d / 2)] columns; unpacking raises unless there are two. *)
Definition chunk2 (t : tensor) : option (tensor * tensor) :=
  match shape t with
  | [n; d] =>
      let c := ((d + 1) / 2)%N in
      if (d <=? c)%N then None
      else Some (mkTensor [n; c]
                   (columns (N.to_nat n) (N.to_nat d) 0 (N.to_nat c) (data t)),
                 mkTensor [n; d - c]%N
                   (columns (N.to_nat n) (N.to_nat d) (N.to_nat c)
                      (N.to_nat (d - c)) (data t)))
  | _ => None
  end.

(** **** Files and console *)

Definition str (n : nat) : string := NilEmpty.string_of_uint (Nat.to_uint n).

Definition strN (n : N) : string := NilEmpty.string_of_uint (N.to_uint n).

(** [save_image(t, path, nrow=nrow)] *)
Definition save_image (t : tensor) (path : string) (nrow : N) : Prog unit :=
  emit (SaveFile path (Image t nrow)).

(** [torch.save(model.state_dict(), path)] *)
Definition save_state_dict (path : string) : Prog unit :=
  h <- gets heap;;
  emit (SaveFile path (StateDict h)).

Definition print (line : string) : Prog unit := emit (Print line).

(** [progress.set_description(desc.format(value))] *)
Definition set_description (desc : string) (v : LossValue) : Prog unit :=
  emit (SetDescription desc v).

(** [if not os.path.exists(folder): os.makedirs(folder)] *)
Definition ensure_folder (folder : string) : Prog unit :=
  present <- gets (fun w => existsb (String.eqb folder) (dirs w));;
  if present : bool then ret tt
  else emit (MakeDirs folder);;
       modify (fun w => set_dirs (folder :: dirs w) w).

(** **** Optimisation *)

(** [optimizer = optim.Adam(model.parameters())] *)
Definition Adam_init : Prog unit := modify (set_optimizer Adam).

(** [optimizer.zero_grad()] *)
Definition zero_grad : Prog unit :=
  modify (fun w => set_grad (map (fun c => repeat 0%R (length c)) (heap w)) w).

(** [loss.backward()], the loss being the value of [f] on the store. *)
Definition loss_backward (f : Heap -> LossValue) : Prog unit :=
  modify (fun w => set_grad (backward f (heap w) (grad w)) w).

(** [optimizer.step()] *)
Definition optimizer_step : Prog unit :=
  modify (fun w =>
            let r := adam_step (optimizer w) (heap w) (grad w) in
            set_optimizer (snd r) (set_heap (fst r) w)).

(** The loss that a program computes when it is run on the store [h]
    instead of the current one; NaN stands for a run that raises. *)
Definition loss_on (p : Prog LossValue) (w : World) (h : Heap) : LossValue :=
  match value (p (set_heap h w)) with
  | Some l => l
  | None => NaN
  end.

End Library.

End Torch.

(** ** [autoencoders/mnist_old/feedforward.py] *)

Module Feedforward.
Import Torch.

Module Encoder.
Section Class.
Context {B : Backend}.

Record t : Type := mk { fc1 : Linear; fc2 : Linear; fc3 : Linear; fc4 : Linear }.

Definition __init__ : Prog t :=
  fc1 <- Linear_init 784 512;;
  fc2 <- Linear_init 512 256;;
  fc3 <- Linear_init 256 128;;
  fc4 <- Linear_init 128 64;;
  ret (mk fc1 fc2 fc3 fc4).

Definition forward (self : t) (x : tensor) : Prog tensor :=
  x <- fmap relu (Linear_forward (fc1 self) x);;
  x <- fmap relu (Linear_forward (fc2 self) x);;
  x <- fmap relu (Linear_forward (fc3 self) x);;
  x <- fmap relu (Linear_forward (fc4 self) x);;
  ret x.

End Class.
End Encoder.

Module Decoder.
Section Class.
Context {B : Backend}.

Record t : Type := mk { fc1 : Linear; fc2 : Linear; fc3 : Linear; fc4 : Linear }.

Definition __init__ : Prog t :=
  fc1 <- Linear_init 64 128;;
  fc2 <- Linear_init 128 256;;
  fc3 <- Linear_init 256 512;;
  fc4 <- Linear_init 512 784;;
  ret (mk fc1 fc2 fc3 fc4).

Definition forward (self : t) (x : tensor) : Prog tensor :=
  x <- fmap relu (Linear_forward (fc1 self) x);;
  x <- fmap relu (Linear_forward (fc2 self) x);;
  x <- fmap relu (Linear_forward (fc3 self) x);;
  x <- fmap sigmoid (Linear_forward (fc4 self) x);;
  ret x.

End Class.
End Decoder.

Module Autoencoder.
Section Class.
Context {B : Backend}.

Record t : Type := mk { encoder : Encoder.t; decoder : Decoder.t }.

Definition __init__ : Prog t :=
  encoder <- Encoder.__init__;;
  decoder <- Decoder.__init__;;
  ret (mk encoder decoder).

Definition forward (self : t) (x : tensor) : Prog tensor :=
  x <- Encoder.forward (encoder self) x;;
  x <- Decoder.forward (decoder self) x;;
  ret x.

End Class.
End Autoencoder.

Section Script.
Context {B : Backend}.

(** [data.view(data.size(0), -1)] *)
Definition flatten (data : tensor) : Prog tensor :=
  n <- lift (size0 data);;
  lift (view [Z.of_N n; (-1)%Z] data).

(** The loss of one batch, as [train] and [test] compute it. *)
Definition batch_loss (model : Autoencoder.t) (data : tensor) : Prog LossValue :=
  output <- Autoencoder.forward model data;;
  lift (binary_cross_entropy output data).

(** The body of the loop of [train]; [train_loss] is the accumulator. *)
Definition train_body (model : Autoencoder.t)
  (i : nat) (batch : Batch) (train_loss : LossValue) : Prog LossValue :=
  data <- flatten (fst batch);;
  zero_grad;;
  before <- gets (fun w => w);;
  output <- Autoencoder.forward model data;;
  loss <- lift (binary_cross_entropy output data);;
  loss_backward (loss_on (batch_loss model data) before);;
  optimizer_step;;
  let train_loss := loss_add train_loss loss in
  set_description "train loss: " (loss_div train_loss (i + 1));;
  ret train_loss.

Definition train_loop (model : Autoencoder.t) (train_loader : list Batch)
  : Prog LossValue :=
  for_enumerate 0 train_loader (train_body model) (Finite 0).

Definition train (model : Autoencoder.t) (train_loader : list Batch)
  (epoch : nat) : Prog unit :=
  model_train;;
  train_loop model train_loader;;
  ret tt.

Definition test_body (model : Autoencoder.t) (folder : string) (epoch : nat)
  (i : nat) (batch : Batch) (test_loss : LossValue) : Prog LossValue :=
  data <- flatten (fst batch);;
  output <- Autoencoder.forward model data;;
  loss <- lift (binary_cross_entropy output data);;
  let test_loss := loss_add test_loss loss in
  set_description "test loss: " (loss_div test_loss (i + 1));;
  (if (i =? 0)%nat
   then output <- lift (view [100; 1; 28; 28]%Z output);;
        data <- lift (view [100; 1; 28; 28]%Z data);;
        save_image output (folder ++ "/" ++ str epoch ++ ".png") 10;;
        save_image data (folder ++ "/baseline" ++ str epoch ++ ".png") 10
   else ret tt);;
  ret test_loss.

Definition test (model : Autoencoder.t) (test_loader : list Batch)
  (folder : string) (epoch : nat) : Prog unit :=
  model_eval;;
  for_enumerate 0 test_loader (test_body model folder epoch) (Finite 0);;
  ret tt.

Definition epochs : nat := 10.
Definition folder : string := "feedforward".

(** One turn of the loop over the epochs in [main]. *)
Definition epoch_body (model : Autoencoder.t)
  (train_loader test_loader : DataLoader) (epoch : nat) : Prog unit :=
  train model (train_loader epoch) epoch;;
  test model (test_loader epoch) folder epoch;;
  print "";;
  save_state_dict (folder ++ "/" ++ str epoch ++ ".pt").

Definition main (train_loader test_loader : DataLoader) : Prog unit :=
  ensure_folder folder;;
  model <- Autoencoder.__init__;;
  Adam_init;;
  for_each (seq 1 epochs) (epoch_body model train_loader test_loader).

End Script.
End Feedforward.

(** ** [convolutional_cifar.py]

    The classes [SuperEncoder] and [SuperDecoder] of this script are never
    instantiated (the lines that would are commented out) and are left out. *)

Module ConvolutionalCifar.
Import Torch.

Module Encoder.
Section Class.
Context {B : Backend}.

Record t : Type := mk { conv1 : Conv2d; conv2 : Conv2d; conv3 : Conv2d; conv4 : Conv2d }.

Definition __init__ : Prog t :=
  conv1 <- Conv2d_init 3 8 3 2 0 true;;
  conv2 <- Conv2d_init 8 16 3 2 0 true;;
  conv3 <- Conv2d_init 16 32 3 2 0 true;;
  conv4 <- Conv2d_init 32 64 3 2 0 true;;
  ret (mk conv1 conv2 conv3 conv4).

Definition forward (self : t) (x : tensor) : Prog tensor :=
  x <- fmap relu (Conv2d_forward (conv1 self) x);;
  x <- fmap relu (Conv2d_forward (conv2 self) x);;
  x <- fmap relu (Conv2d_forward (conv3 self) x);;
  x <- fmap relu (Conv2d_forward (conv4 self) x);;
  ret x.

End Class.
End Encoder.

Module Decoder.
Section Class.
Context {B : Backend}.

Record t : Type := mk {
  conv4 : ConvTranspose2d;
  conv3 : ConvTranspose2d;
  conv2 : ConvTranspose2d;
  conv1 : ConvTranspose2d
}.

Definition __init__ : Prog t :=
  conv4 <- ConvTranspose2d_init 64 32 3 2 0 0;;
  conv3 <- ConvTranspose2d_init 32 16 3 2 0 0;;
  conv2 <- ConvTranspose2d_init 16 8 3 2 0 0;;
  conv1 <- ConvTranspose2d_init 8 3 3 2 0 1;;
  ret (mk conv4 conv3 conv2 conv1).

Definition forward (self : t) (x : tensor) : Prog tensor :=
  x <- fmap relu (ConvTranspose2d_forward (conv4 self) x);;
  x <- fmap relu (ConvTranspose2d_forward (conv3 self) x);;
  x <- fmap relu (ConvTranspose2d_forward (conv2 self) x);;
  x <- fmap tanh (ConvTranspose2d_forward (conv1 self) x);;
  ret x.

End Class.
End Decoder.

Module Autoencoder.
Section Class.
Context {B : Backend}.

Record t : Type := mk { encoder : Encoder.t; decoder : Decoder.t }.

Definition __init__ : Prog t :=
  encoder <- Encoder.__init__;;
  decoder <- Decoder.__init__;;
  ret (mk encoder decoder).

Definition forward (self : t) (x : tensor) : Prog tensor :=
  x <- Encoder.forward (encoder self) x;;
  x <- Decoder.forward (decoder self) x;;
  ret x.

End Class.
End Autoencoder.

Section Script.
Context {B : Backend}.

Definition batch_loss (model : Autoencoder.t) (data : tensor) : Prog LossValue :=
  output <- Autoencoder.forward model data;;
  lift (mse_loss output data).

Definition train_body (model : Autoencoder.t)
  (i : nat) (batch : Batch) (train_loss : LossValue) : Prog LossValue :=
  let data := fst batch in
  zero_grad;;
  before <- gets (fun w => w);;
  output <- Autoencoder.forward model data;;
  loss <- lift (mse_loss output data);;
  loss_backward (loss_on (batch_loss model data) before);;
  optimizer_step;;
  let train_loss := loss_add train_loss loss in
  set_description "train loss: " (loss_div train_loss (i + 1));;
  ret train_loss.

Definition train_loop (model : Autoencoder.t) (train_loader : list Batch)
  : Prog LossValue :=
  for_enumerate 0 train_loader (train_body model) (Finite 0).

Definition train (model : Autoencoder.t) (train_loader : list Batch)
  (epoch : nat) : Prog unit :=
  model_train;;
  train_loop model train_loader;;
  ret tt.

Definition test_body (model : Autoencoder.t) (folder : string) (epoch : nat)
  (i : nat) (batch : Batch) (test_loss : LossValue) : Prog LossValue :=
  let data := fst batch in
  output <- Autoencoder.forward model data;;
  loss <- lift (mse_loss output data);;
  let test_loss := loss_add test_loss loss in
  (if (i =? 0)%nat
   then output <- lift (view [100; 3; 32; 32]%Z output);;
        data <- lift (view [100; 3; 32; 32]%Z data);;
        save_image output (folder ++ "/" ++ str epoch ++ ".png") 10;;
        save_image data (folder ++ "/baseline" ++ str epoch ++ ".png") 10
   else ret tt);;
  ret test_loss.

Definition test (model : Autoencoder.t) (test_loader : list Batch)
  (folder : string) (epoch : nat) : Prog unit :=
  model_eval;;
  for_enumerate 0 test_loader (test_body model folder epoch) (Finite 0);;
  ret tt.

Definition epochs : nat := 20.
Definition folder : string := "convolutional_cifar".

Definition epoch_body (model : Autoencoder.t)
  (train_loader test_loader : DataLoader) (epoch : nat) : Prog unit :=
  train model (train_loader epoch) epoch;;
  test model (test_loader epoch) folder epoch;;
  print "";;
  save_state_dict (folder ++ "/" ++ str epoch ++ ".pt").

Definition main (train_loader test_loader : DataLoader) : Prog unit :=
  ensure_folder folder;;
  model <- Autoencoder.__init__;;
  Adam_init;;
  for_each (seq 1 epochs) (epoch_body model train_loader test_loader).

End Script.
End ConvolutionalCifar.

(** ** [resnet_cifar.py]

    The encoder and the decoder are [torch.nn.Sequential] containers whose
    members are library layers and instances of the classes of the script;
    calling a member dispatches on its class.  The classes
    [ResidualEncoderOld] and [ResidualDecoderOld] are never instantiated
    and are left out. *)

Module ResnetCifar.
Import Torch.

Section Classes.
Context {B : Backend}.

#[warnings="-register-all"]
Inductive Module_ : Type :=
| Conv2d_ (c : Conv2d)
| ConvTranspose2d_ (c : ConvTranspose2d)
| BatchNorm2d_ (b : BatchNorm2d)
| ReLU
| ELU
| Tanh
| Sequential (members : list Module_)
| BasicBlock (residual : Module_)
| ELU_BatchNorm2d (actnorm : Module_)
| BiggerBlock (block : Module_).

(** [module(x)]: the [forward] of the class of [module]. *)
Fixpoint forward (m : Module_) (x : tensor) : Prog tensor :=
  match m with
  | Conv2d_ c => Conv2d_forward c x
  | ConvTranspose2d_ c => ConvTranspose2d_forward c x
  | BatchNorm2d_ b => BatchNorm2d_forward b x
  | ReLU => ret (relu x)
  | ELU => ret (elu x)
  | Tanh => ret (tanh x)
  | Sequential members =>
      (fix run (ms : list Module_) (x : tensor) : Prog tensor :=
         match ms with
         | [] => ret x
         | m' :: ms' => x' <- forward m' x;; run ms' x'
         end) members x
  (* BasicBlock.forward: return x + self.residual(x) *)
  | BasicBlock residual => r <- forward residual x;; lift (add x r)
  (* ELU_BatchNorm2d.forward: return self.actnorm(x) *)
  | ELU_BatchNorm2d actnorm => forward actnorm x
  (* BiggerBlock.forward: return x + self.block(x) *)
  | BiggerBlock block => r <- forward block x;; lift (add x r)
  end.

(** [BasicBlock.__init__(filters)] *)
Definition BasicBlock_init (filters : N) : Prog Module_ :=
  c1 <- Conv2d_init filters filters 3 1 1 true;;
  b1 <- BatchNorm2d_init filters true;;
  c2 <- Conv2d_init filters filters 3 1 1 false;;
  b2 <- BatchNorm2d_init filters true;;
  ret (BasicBlock
         (Sequential [Conv2d_ c1; ReLU; BatchNorm2d_ b1;
                      Conv2d_ c2; ReLU; BatchNorm2d_ b2])).

(** [ELU_BatchNorm2d.__init__(filters)] *)
Definition ELU_BatchNorm2d_init (filters : N) : Prog Module_ :=
  b <- BatchNorm2d_init filters true;;
  ret (ELU_BatchNorm2d (Sequential [ELU; BatchNorm2d_ b])).

(** [BiggerBlock.__init__(filters)] *)
Definition BiggerBlock_init (filters : N) : Prog Module_ :=
  k1 <- BasicBlock_init filters;;
  b1 <- BatchNorm2d_init filters true;;
  k2 <- BasicBlock_init filters;;
  b2 <- BatchNorm2d_init filters true;;
  ret (BiggerBlock
         (Sequential [k1; ReLU; BatchNorm2d_ b1; k2; ReLU; BatchNorm2d_ b2])).

End Classes.

Module ResidualEncoder.
Section Class.
Context {B : Backend}.

Record t : Type := mk { encoder : Module_ }.

Definition __init__ : Prog t :=
  let activate := ELU in
  c1 <- Conv2d_init 3 16 3 1 1 false;;
  k1 <- BiggerBlock_init 16;;
  e1 <- ELU_BatchNorm2d_init 16;;
  c2 <- Conv2d_init 16 32 3 2 0 true;;
  k2 <- BiggerBlock_init 32;;
  e2 <- ELU_BatchNorm2d_init 32;;
  c3 <- Conv2d_init 32 64 3 2 0 true;;
  k3 <- BiggerBlock_init 64;;
  e3 <- ELU_BatchNorm2d_init 64;;
  c4 <- Conv2d_init 64 128 3 2 0 true;;
  k4 <- BiggerBlock_init 128;;
  e4 <- ELU_BatchNorm2d_init 128;;
  c5 <- Conv2d_init 128 256 3 2 0 false;;
  ret (mk (Sequential
             [Conv2d_ c1; activate; k1; e1;
              Conv2d_ c2; activate; k2; e2;
              Conv2d_ c3; activate; k3; e3;
              Conv2d_ c4; activate; k4; e4;
              Conv2d_ c5])).

Definition forward (self : t) (x : tensor) : Prog tensor :=
  ResnetCifar.forward (encoder self) x.

End Class.
End ResidualEncoder.

Module ResidualDecoder.
Section Class.
Context {B : Backend}.

Record t : Type := mk { decoder : Module_ }.

Definition __init__ : Prog t :=
  let activate := ELU in
  b0 <- BatchNorm2d_init 256 true;;
  c1 <- ConvTranspose2d_init 256 128 3 2 0 0;;
  e1 <- ELU_BatchNorm2d_init 128;;
  k1 <- BiggerBlock_init 128;;
  c2 <- ConvTranspose2d_init 128 64 3 2 0 0;;
  e2 <- ELU_BatchNorm2d_init 64;;
  k2 <- BiggerBlock_init 64;;
  c3 <- ConvTranspose2d_init 64 32 3 2 0 0;;
  e3 <- ELU_BatchNorm2d_init 32;;
  k3 <- BiggerBlock_init 32;;
  c4 <- ConvTranspose2d_init 32 16 3 2 0 1;;
  e4 <- ELU_BatchNorm2d_init 16;;
  k4 <- BiggerBlock_init 16;;
  c5 <- Conv2d_init 16 3 3 1 1 true;;
  ret (mk (Sequential
             [BatchNorm2d_ b0; ConvTranspose2d_ c1;
              e1; k1; activate; ConvTranspose2d_ c2;
              e2; k2; activate; ConvTranspose2d_ c3;
              e3; k3; activate; ConvTranspose2d_ c4;
              e4; k4; activate; Conv2d_ c5;
              Tanh])).

Definition forward (self : t) (x : tensor) : Prog tensor :=
  ResnetCifar.forward (decoder self) x.

End Class.
End ResidualDecoder.

(** The two classes that the script keeps from an earlier architecture.
    [Autoencoder] does not use them; they are the only place where the
    argument [bottleneck] decides a layer width. *)
Module ResidualEncoderOld.
Section Class.
Context {B : Backend}.

Record t : Type := mk { encoder : Module_ }.

Definition __init__ (bottleneck : N) : Prog t :=
  let activate := ELU in
  c0 <- Conv2d_init 3 64 3 1 1 false;;
  e0 <- ELU_BatchNorm2d_init 64;;
  k1 <- BasicBlock_init 64;;
  e1 <- ELU_BatchNorm2d_init 64;;
  c1 <- Conv2d_init 64 128 3 2 0 true;;
  k2 <- BasicBlock_init 128;;
  e2 <- ELU_BatchNorm2d_init 128;;
  c2 <- Conv2d_init 128 256 3 2 0 true;;
  k3 <- BasicBlock_init 256;;
  e3 <- ELU_BatchNorm2d_init 256;;
  c3 <- Conv2d_init 256 512 3 2 0 true;;
  k4 <- BasicBlock_init 512;;
  e4 <- ELU_BatchNorm2d_init 512;;
  c4 <- Conv2d_init 512 bottleneck 3 2 0 false;;
  ret (mk (Sequential
             [Conv2d_ c0; e0;
              k1; e1; Conv2d_ c1; activate;
              k2; e2; Conv2d_ c2; activate;
              k3; e3; Conv2d_ c3; activate;
              k4; e4; Conv2d_ c4])).

Definition forward (self : t) (x : tensor) : Prog tensor :=
  ResnetCifar.forward (encoder self) x.

End Class.
End ResidualEncoderOld.

Module ResidualDecoderOld.
Section Class.
Context {B : Backend}.

Record t : Type := mk { decoder : Module_ }.

Definition __init__ (bottleneck : N) : Prog t :=
  let activate := ELU in
  b0 <- BatchNorm2d_init bottleneck true;;
  c1 <- ConvTranspose2d_init bottleneck 512 3 2 0 0;;
  e1 <- ELU_BatchNorm2d_init 512;;
  k1 <- BasicBlock_init 512;;
  c2 <- ConvTranspose2d_init 512 256 3 2 0 0;;
  e2 <- ELU_BatchNorm2d_init 256;;
  k2 <- BasicBlock_init 256;;
  c3 <- ConvTranspose2d_init 256 128 3 2 0 0;;
  e3 <- ELU_BatchNorm2d_init 128;;
  k3 <- BasicBlock_init 128;;
  c4 <- ConvTranspose2d_init 128 64 3 2 0 1;;
  e4 <- ELU_BatchNorm2d_init 64;;
  k4 <- BasicBlock_init 64;;
  c5 <- Conv2d_init 64 3 3 1 1 true;;
  ret (mk (Sequential
             [BatchNorm2d_ b0; ConvTranspose2d_ c1; e1; k1; activate;
              ConvTranspose2d_ c2; e2; k2; activate;
              ConvTranspose2d_ c3; e3; k3; activate;
              ConvTranspose2d_ c4; e4; k4; activate;
              Conv2d_ c5; Tanh])).

Definition forward (self : t) (x : tensor) : Prog tensor :=
  ResnetCifar.forward (decoder self) x.

End Class.
End ResidualDecoderOld.

Module Autoencoder.
Section Class.
Context {B : Backend}.

Record t : Type := mk { encoder : ResidualEncoder.t; decoder : ResidualDecoder.t }.

(** The argument [bottleneck] is received and not used. *)
Definition __init__ (bottleneck : N) : Prog t :=
  encoder <- ResidualEncoder.__init__;;
  decoder <- ResidualDecoder.__init__;;
  ret (mk encoder decoder).

Definition forward (self : t) (x : tensor) : Prog tensor :=
  x <- ResidualEncoder.forward (encoder self) x;;
  x <- ResidualDecoder.forward (decoder self) x;;
  ret x.

End Class.
End Autoencoder.

Section Script.
Context {B : Backend}.

Definition batch_loss (model : Autoencoder.t) (data : tensor) : Prog LossValue :=
  output <- Autoencoder.forward model data;;
  lift (mse_loss output data).

Definition train_body (model : Autoencoder.t)
  (i : nat) (batch : Batch) (train_loss : LossValue) : Prog LossValue :=
  let data := fst batch in
  zero_grad;;
  before <- gets (fun w => w);;
  output <- Autoencoder.forward model data;;
  loss <- lift (mse_loss output data);;
  loss_backward (loss_on (batch_loss model data) before);;
  optimizer_step;;
  let train_loss := loss_add train_loss loss in
  set_description "train loss: " (loss_div train_loss (i + 1));;
  ret train_loss.

Definition train_loop (model : Autoencoder.t) (train_loader : list Batch)
  : Prog LossValue :=
  for_enumerate 0 train_loader (train_body model) (Finite 0).

Definition train (model : Autoencoder.t) (train_loader : list Batch)
  (epoch : nat) : Prog unit :=
  model_train;;
  train_loop model train_loader;;
  ret tt.

Definition test_body (model : Autoencoder.t) (folder : string) (epoch : nat)
  (i : nat) (batch : Batch) (test_loss : LossValue) : Prog LossValue :=
  let data := fst batch in
  output <- Autoencoder.forward model data;;
  loss <- lift (mse_loss output data);;
  let test_loss := loss_add test_loss loss in
  set_description "test loss: " (loss_div test_loss (i + 1));;
  (if (i =? 0)%nat
   then output <- lift (view [100; 3; 32; 32]%Z output);;
        data <- lift (view [100; 3; 32; 32]%Z data);;
        save_image output (folder ++ "/" ++ str epoch ++ ".png") 10;;
        save_image data (folder ++ "/" ++ str epoch ++ "baseline.png") 10
   else ret tt);;
  ret test_loss.

Definition test (model : Autoencoder.t) (test_loader : list Batch)
  (folder : string) (epoch : nat) : Prog unit :=
  model_eval;;
  for_enumerate 0 test_loader (test_body model folder epoch) (Finite 0);;
  ret tt.

Definition epochs : nat := 20.

(** [f'residual_cifar_{bottleneck}_bottle'] *)
Definition folder (bottleneck : N) : string :=
  "residual_cifar_" ++ strN bottleneck ++ "_bottle".

Definition newline : string := String (ascii_of_nat 10) EmptyString.

Definition epoch_body (model : Autoencoder.t) (folder : string)
  (train_loader test_loader : DataLoader) (epoch : nat) : Prog unit :=
  print (newline ++ str epoch);;
  train model (train_loader epoch) epoch;;
  test model (test_loader epoch) folder epoch;;
  save_state_dict (folder ++ "/" ++ str epoch ++ ".pt").

Definition main (train_loader test_loader : DataLoader) (bottleneck : N)
  : Prog unit :=
  let folder := folder bottleneck in
  ensure_folder folder;;
  model <- Autoencoder.__init__ bottleneck;;
  Adam_init;;
  for_each (seq 1 epochs) (epoch_body model folder train_loader test_loader).

(** The [__main__] block: [for b in ([1024]): print(...); main(b)]. *)
Definition script (train_loader test_loader : DataLoader) : Prog unit :=
  for_each [1024%N]
    (fun b => print ("now doing bottleneck for: " ++ strN b);;
              main train_loader test_loader b).

End Script.
End ResnetCifar.

(** ** [conditional_autoencoder.py] *)

Module ConditionalAutoencoder.
Import Torch.

Module ConditionalBatchNorm2d.
Section Class.
Context {B : Backend}.

Record t : Type := mk { features : N; bn : BatchNorm2d; embed : Embedding }.

(** [m[:, lo:lo+len] = vals] on a matrix [m] of [rows] rows and [d] columns,
    [vals] holding [rows * len] elements: the matrix after the assignment. *)
Definition assign_columns (rows d lo len : nat) (vals m : list R) : list R :=
  flat_map
    (fun i =>
       map (fun j =>
              if (lo <=? j)%nat && (j <? lo + len)%nat
              then nth (i * len + (j - lo)) vals 0%R
              else nth (i * d + j) m 0%R)
           (seq 0 d))
    (seq 0 rows).

Definition __init__ (features classes : N) : Prog t :=
  bn <- BatchNorm2d_init features false;;
  embed <- Embedding_init classes (features * 2);;
  let rows := N.to_nat classes in
  let f := N.to_nat features in
  let d := N.to_nat (features * 2) in
  (* self.embed.weight.data[:, :features].uniform_(0, 1) *)
  u <- draw_uniform 0 1 (rows * f);;
  m <- load (emb_weight embed);;
  store (emb_weight embed) (assign_columns rows d 0 f u m);;
  (* self.embed.weight.data[:, features:].zero_() *)
  m <- load (emb_weight embed);;
  store (emb_weight embed)
    (assign_columns rows d f (d - f) (repeat 0%R (rows * (d - f))) m);;
  ret (mk features bn embed).

Definition forward (self : t) (x : tensor) (y : LongTensor) : Prog tensor :=
  out <- BatchNorm2d_forward (bn self) x;;
  e <- Embedding_forward (embed self) y;;
  gb <- lift (chunk2 e);;
  let gamma := fst gb in
  let beta := snd gb in
  g <- lift (view [(-1)%Z; Z.of_N (features self); 1%Z; 1%Z] gamma);;
  out <- lift (mul g out);;
  b <- lift (view [(-1)%Z; Z.of_N (features self); 1%Z; 1%Z] beta);;
  out <- lift (add out b);;
  ret out.

End Class.
End ConditionalBatchNorm2d.

Section Defaults.
Context {B : Backend}.

(** [batch_size = list(x.size())[0]; y = torch.zeros(batch_size).to(x).long()] *)
Definition default_label (x : tensor) : Prog LongTensor :=
  batch_size <- lift (size0 x);;
  ret (long_zeros batch_size).

(** [filters[i]] *)
Definition item (filters : list N) (i : nat) : Prog N :=
  lift (nth_error filters i).

End Defaults.

Module BasicBlock.
Section Class.
Context {B : Backend}.

Record t : Type := mk {
  conv1 : Conv2d;
  bn1 : ConditionalBatchNorm2d.t;
  conv2 : Conv2d;
  bn2 : ConditionalBatchNorm2d.t
}.

Definition __init__ (filters : N) : Prog t :=
  conv1 <- Conv2d_init filters filters 3 1 1 false;;
  bn1 <- ConditionalBatchNorm2d.__init__ filters 10;;
  conv2 <- Conv2d_init filters filters 3 1 1 false;;
  bn2 <- ConditionalBatchNorm2d.__init__ filters 10;;
  ret (mk conv1 bn1 conv2 bn2).

Definition conditional_forward (self : t) (x : tensor) (y : LongTensor)
  : Prog tensor :=
  out <- Conv2d_forward (conv1 self) x;;
  out <- ConditionalBatchNorm2d.forward (bn1 self) out y;;
  let out := relu out in
  out <- Conv2d_forward (conv2 self) out;;
  out <- ConditionalBatchNorm2d.forward (bn2 self) out y;;
  lift (add x out).

Definition forward (self : t) (x : tensor) : Prog tensor :=
  y <- default_label x;;
  conditional_forward self x y.

End Class.
End BasicBlock.

Module ELU_BatchNorm2d.
Section Class.
Context {B : Backend}.

Record t : Type := mk { bn : ConditionalBatchNorm2d.t }.

Definition __init__ (filters : N) : Prog t :=
  bn <- ConditionalBatchNorm2d.__init__ filters 10;;
  ret (mk bn).

Definition conditional_forward (self : t) (x : tensor) (y : LongTensor)
  : Prog tensor :=
  let x := elu x in
  x <- ConditionalBatchNorm2d.forward (bn self) x y;;
  ret x.

Definition forward (self : t) (x : tensor) : Prog tensor :=
  y <- default_label x;;
  conditional_forward self x y.

End Class.
End ELU_BatchNorm2d.

Module ResidualEncoder.
Section Class.
Context {B : Backend}.

Record t : Type := mk {
  conv5 : Conv2d;
  block4 : BasicBlock.t; eb4 : ELU_BatchNorm2d.t; conv4 : Conv2d;
  block3 : BasicBlock.t; eb3 : ELU_BatchNorm2d.t; conv3 : Conv2d;
  block2 : BasicBlock.t; eb2 : ELU_BatchNorm2d.t; conv2 : Conv2d;
  block1 : BasicBlock.t; eb1 : ELU_BatchNorm2d.t; conv1 : Conv2d
}.

Definition __init__ (filters : list N) : Prog t :=
  f0 <- item filters 0;;
  conv5 <- Conv2d_init 3 f0 3 1 1 true;;
  block4 <- BasicBlock.__init__ f0;;
  eb4 <- ELU_BatchNorm2d.__init__ f0;;
  f1 <- item filters 1;;
  conv4 <- Conv2d_init f0 f1 3 2 0 true;;
  block3 <- BasicBlock.__init__ f1;;
  eb3 <- ELU_BatchNorm2d.__init__ f1;;
  f2 <- item filters 2;;
  conv3 <- Conv2d_init f1 f2 3 2 0 true;;
  block2 <- BasicBlock.__init__ f2;;
  eb2 <- ELU_BatchNorm2d.__init__ f2;;
  f3 <- item filters 3;;
  conv2 <- Conv2d_init f2 f3 3 2 0 true;;
  block1 <- BasicBlock.__init__ f3;;
  eb1 <- ELU_BatchNorm2d.__init__ f3;;
  f4 <- item filters 4;;
  conv1 <- Conv2d_init f3 f4 3 2 0 false;;
  ret (mk conv5 block4 eb4 conv4 block3 eb3 conv3
          block2 eb2 conv2 block1 eb1 conv1).

Definition conditional_forward (self : t) (x : tensor) (y : LongTensor)
  : Prog tensor :=
  x <- Conv2d_forward (conv5 self) x;;
  let x := elu x in

  x <- BasicBlock.conditional_forward (block4 self) x y;;
  x <- ELU_BatchNorm2d.conditional_forward (eb4 self) x y;;
  x <- Conv2d_forward (conv4 self) x;;
  let x := elu x in

  x <- BasicBlock.conditional_forward (block3 self) x y;;
  x <- ELU_BatchNorm2d.conditional_forward (eb3 self) x y;;
  x <- Conv2d_forward (conv3 self) x;;
  let x := elu x in

  x <- BasicBlock.conditional_forward (block2 self) x y;;
  x <- ELU_BatchNorm2d.conditional_forward (eb2 self) x y;;
  x <- Conv2d_forward (conv2 self) x;;
  let x := elu x in

  x <- BasicBlock.conditional_forward (block1 self) x y;;
  x <- ELU_BatchNorm2d.conditional_forward (eb1 self) x y;;
  x <- Conv2d_forward (conv1 self) x;;
  ret x.

Definition forward (self : t) (x : tensor) : Prog tensor :=
  y <- default_label x;;
  conditional_forward self x y.

End Class.
End ResidualEncoder.

Module ResidualDecoder.
Section Class.
Context {B : Backend}.

Record t : Type := mk {
  conv1 : ConvTranspose2d; eb1 : ELU_BatchNorm2d.t; block1 : BasicBlock.t;
  conv2 : ConvTranspose2d; eb2 : ELU_BatchNorm2d.t; block2 : BasicBlock.t;
  conv3 : ConvTranspose2d; eb3 : ELU_BatchNorm2d.t; block3 : BasicBlock.t;
  conv4 : ConvTranspose2d; eb4 : ELU_BatchNorm2d.t; block4 : BasicBlock.t;
  conv5 : Conv2d
}.

Definition __init__ (filters : list N) : Prog t :=
  f4 <- item filters 4;;
  f3 <- item filters 3;;
  conv1 <- ConvTranspose2d_init f4 f3 3 2 0 0;;
  eb1 <- ELU_BatchNorm2d.__init__ f3;;
  block1 <- BasicBlock.__init__ f3;;
  f2 <- item filters 2;;
  conv2 <- ConvTranspose2d_init f3 f2 3 2 0 0;;
  eb2 <- ELU_BatchNorm2d.__init__ f2;;
  block2 <- BasicBlock.__init__ f2;;
  f1 <- item filters 1;;
  conv3 <- ConvTranspose2d_init f2 f1 3 2 0 0;;
  eb3 <- ELU_BatchNorm2d.__init__ f1;;
  block3 <- BasicBlock.__init__ f1;;
  f0 <- item filters 0;;
  conv4 <- ConvTranspose2d_init f1 f0 3 2 0 1;;
  eb4 <- ELU_BatchNorm2d.__init__ f0;;
  block4 <- BasicBlock.__init__ f0;;
  conv5 <- Conv2d_init f0 3 3 1 1 true;;
  ret (mk conv1 eb1 block1 conv2 eb2 block2 conv3 eb3 block3
          conv4 eb4 block4 conv5).

Definition conditional_forward (self : t) (x : tensor) (y : LongTensor)
  : Prog tensor :=
  x <- ConvTranspose2d_forward (conv1 self) x;;
  x <- ELU_BatchNorm2d.conditional_forward (eb1 self) x y;;
  x <- BasicBlock.conditional_forward (block1 self) x y;;

  let x := elu x in
  x <- ConvTranspose2d_forward (conv2 self) x;;
  x <- ELU_BatchNorm2d.conditional_forward (eb2 self) x y;;
  x <- BasicBlock.conditional_forward (block2 self) x y;;

  let x := elu x in
  x <- ConvTranspose2d_forward (conv3 self) x;;
  x <- ELU_BatchNorm2d.conditional_forward (eb3 self) x y;;
  x <- BasicBlock.conditional_forward (block3 self) x y;;

  let x := elu x in
  x <- ConvTranspose2d_forward (conv4 self) x;;
  x <- ELU_BatchNorm2d.conditional_forward (eb4 self) x y;;
  x <- BasicBlock.conditional_forward (block4 self) x y;;

  let x := elu x in
  x <- Conv2d_forward (conv5 self) x;;

  let x := tanh x in
  ret x.

Definition forward (self : t) (x : tensor) : Prog tensor :=
  y <- default_label x;;
  conditional_forward self x y.

End Class.
End ResidualDecoder.

Module Autoencoder.
Section Class.
Context {B : Backend}.

Record t : Type := mk { encoder : ResidualEncoder.t; decoder : ResidualDecoder.t }.

Definition __init__ : Prog t :=
  let filters := [16; 32; 64; 128; 256]%N in
  let filters := [64; 128; 128; 256; 256]%N in
  let filters := [32; 64; 128; 256; 512]%N in
  let filters := [64; 128; 256; 512; 1024]%N in
  encoder <- ResidualEncoder.__init__ filters;;
  decoder <- ResidualDecoder.__init__ filters;;
  ret (mk encoder decoder).

(** The encoder is called through its [forward]; the call of its
    [conditional_forward] is commented out in the script. *)
Definition conditional_forward (self : t) (x : tensor) (y : LongTensor)
  : Prog tensor :=
  x <- ResidualEncoder.forward (encoder self) x;;
  x <- ResidualDecoder.conditional_forward (decoder self) x y;;
  ret x.

Definition forward (self : t) (x : tensor) : Prog tensor :=
  y <- default_label x;;
  conditional_forward self x y.

End Class.
End Autoencoder.

Section Script.
Context {B : Backend}.

Definition batch_loss (model : Autoencoder.t) (data : tensor)
  (labels : LongTensor) : Prog LossValue :=
  output <- Autoencoder.conditional_forward model data labels;;
  lift (mse_loss output data).

Definition train_body (model : Autoencoder.t)
  (i : nat) (batch : Batch) (train_loss : LossValue) : Prog LossValue :=
  let data := fst batch in
  let labels := snd batch in
  zero_grad;;
  before <- gets (fun w => w);;
  output <- Autoencoder.conditional_forward model data labels;;
  loss <- lift (mse_loss output data);;
  loss_backward (loss_on (batch_loss model data labels) before);;
  optimizer_step;;
  let train_loss := loss_add train_loss loss in
  set_description "train loss: " (loss_div train_loss (i + 1));;
  ret train_loss.

Definition train_loop (model : Autoencoder.t) (train_loader : list Batch)
  : Prog LossValue :=
  for_enumerate 0 train_loader (train_body model) (Finite 0).

Definition train (model : Autoencoder.t) (train_loader : list Batch)
  (epoch : nat) : Prog unit :=
  model_train;;
  train_loop model train_loader;;
  ret tt.

Definition test_body (model : Autoencoder.t) (folder : string) (epoch : nat)
  (i : nat) (batch : Batch) (test_loss : LossValue) : Prog LossValue :=
  let data := fst batch in
  let labels := snd batch in
  output <- Autoencoder.conditional_forward model data labels;;
  loss <- lift (mse_loss output data);;
  let test_loss := loss_add test_loss loss in
  set_description "test loss: " (loss_div test_loss (i + 1));;
  (if (i =? 0)%nat
   then output <- lift (view [100; 3; 32; 32]%Z output);;
        data <- lift (view [100; 3; 32; 32]%Z data);;
        save_image output (folder ++ "/" ++ str epoch ++ ".png") 10;;
        save_image data (folder ++ "/" ++ str epoch ++ "baseline.png") 10
   else ret tt);;
  ret test_loss.

Definition test (model : Autoencoder.t) (test_loader : list Batch)
  (folder : string) (epoch : nat) : Prog unit :=
  model_eval;;
  for_enumerate 0 test_loader (test_body model folder epoch) (Finite 0);;
  ret tt.

Definition epochs : nat := 10.
Definition folder : string := "conditional".

Definition newline : string := String (ascii_of_nat 10) EmptyString.

Definition epoch_body (model : Autoencoder.t)
  (train_loader test_loader : DataLoader) (epoch : nat) : Prog unit :=
  print (newline ++ str epoch);;
  train model (train_loader epoch) epoch;;
  test model (test_loader epoch) folder epoch;;
  save_state_dict (folder ++ "/" ++ str epoch ++ ".pt").

Definition main (train_loader test_loader : DataLoader) : Prog unit :=
  ensure_folder folder;;
  model <- Autoencoder.__init__;;
  Adam_init;;
  for_each (seq 1 epochs) (epoch_body model train_loader test_loader).

End Script.
End ConditionalAutoencoder.

(** * Part II: properties *)

Import Torch.

(** ** Vocabulary *)

Section Judgements.
Context {B : Backend}.

(** [yields m w Q]: run from the state [w], the program [m] returns a value
    [a], and its trace [ev], final state [w'] and [a] satisfy [Q ev w' a]. *)
Definition yields {A : Type} (m : Prog A) (w : World)
  (Q : list Event -> World -> A -> Prop) : Prop :=
  exists a, value (m w) = Some a /\ Q (events (m w)) (final (m w)) a.

(** [constructs p P]: whatever the state, the constructor [p] returns,
    leaves no trace, and the object it returns satisfies [P]. *)
Definition constructs {A : Type} (p : Prog A) (P : A -> Prop) : Prop :=
  forall w, yields p w (fun ev _ a => ev = [] /\ P a).

(** The paths of the files written in a trace, in order. *)
Definition paths (ev : list Event) : list string :=
  flat_map (fun e => match e with SaveFile p _ => [p] | _ => [] end) ev.



(** A tensor holds as many elements as its shape says. *)
Definition well_formed (t : tensor) : Prop :=
  length (data t) = N.to_nat (numel (shape t)).

(** The label tensors received by the embedding lookups of a trace. *)
Definition labels (ev : list Event) : list LongTensor :=
  flat_map (fun e => match e with EmbeddingLookup _ y => [y] | _ => [] end) ev.

End Judgements.

(** ** Rules for programs *)

Section Rules.
Context {B : Backend}.

Lemma yields_ret {A} (a : A) w (Q : list Event -> World -> A -> Prop) :
  Q [] w a -> yields (ret a) w Q.
Proof. intros H. exists a. split; [reflexivity | exact H]. Qed.

Lemma yields_bind {A C} (m : Prog A) (f : A -> Prog C) w
  (Q : list Event -> World -> C -> Prop) :
  yields m w (fun ev w' a =>
    yields (f a) w' (fun ev' w'' c => Q (ev ++ ev') w'' c)) ->
  yields (bind m f) w Q.
Proof.
  intros (a & Ha & c & Hc & HQ). exists c. unfold bind. rewrite Ha. cbn.
  split; assumption.
Qed.

Lemma yields_weaken {A} (m : Prog A) w
  (Q Q' : list Event -> World -> A -> Prop) :
  yields m w Q -> (forall ev w' a, Q ev w' a -> Q' ev w' a) -> yields m w Q'.
Proof. intros (a & Ha & HQ) H. exists a. split; auto. Qed.

Lemma yields_lift {A} (o : option A) a w (Q : list Event -> World -> A -> Prop) :
  o = Some a -> Q [] w a -> yields (lift o) w Q.
Proof. intros -> H. exists a. split; [reflexivity | exact H]. Qed.

Lemma yields_gets {A} (f : World -> A) w (Q : list Event -> World -> A -> Prop) :
  Q [] w (f w) -> yields (gets f) w Q.
Proof. intros H. exists (f w). split; [reflexivity | exact H]. Qed.

Lemma yields_modify (f : World -> World) w
  (Q : list Event -> World -> unit -> Prop) :
  Q [] (f w) tt -> yields (modify f) w Q.
Proof. intros H. exists tt. split; [reflexivity | exact H]. Qed.

Lemma yields_emit (e : Event) w (Q : list Event -> World -> unit -> Prop) :
  Q [e] w tt -> yields (emit e) w Q.
Proof. intros H. exists tt. split; [reflexivity | exact H]. Qed.

Lemma yields_fmap {A C} (g : A -> C) (m : Prog A) w
  (Q : list Event -> World -> C -> Prop) :
  yields m w (fun ev w' a => Q ev w' (g a)) -> yields (fmap g m) w Q.
Proof.
  intros H. unfold fmap. apply yields_bind.
  eapply yields_weaken; [exact H |]. cbn. intros ev w' a HQ.
  apply yields_ret. rewrite app_nil_r. exact HQ.
Qed.

Lemma yields_load r w (Q : list Event -> World -> list R -> Prop) :
  Q [] w (heap_read (heap w) r) -> yields (load r) w Q.
Proof. intros H. unfold load. apply yields_gets. exact H. Qed.

End Rules.

Section ConstructorRules.
Context {B : Backend}.

Lemma constructs_ret {A} (a : A) (P : A -> Prop) : P a -> constructs (ret a) P.
Proof. intros H w. apply yields_ret. split; [reflexivity | exact H]. Qed.

Lemma constructs_bind {A C} (m : Prog A) (f : A -> Prog C)
  (P : A -> Prop) (Q : C -> Prop) :
  constructs m P -> (forall a, P a -> constructs (f a) Q) ->
  constructs (bind m f) Q.
Proof.
  intros Hm Hf w. apply yields_bind.
  eapply yields_weaken; [apply Hm |]. cbn beta. intros ev w' a [-> HP].
  eapply yields_weaken; [apply (Hf a HP) |]. cbn beta. intros ev' w'' c [-> HQ].
  split; [reflexivity | exact HQ].
Qed.

Lemma constructs_weaken {A} (m : Prog A) (P Q : A -> Prop) :
  constructs m P -> (forall a, P a -> Q a) -> constructs m Q.
Proof.
  intros Hm H w. eapply yields_weaken; [apply Hm |].
  cbn beta. intros ev w' a [-> HP]. auto.
Qed.

Lemma constructs_lift {A} (o : option A) a :
  o = Some a -> constructs (lift o) (fun r => r = a).
Proof. intros -> w. eapply yields_lift; [reflexivity | auto]. Qed.

Lemma constructs_draw_uniform lo hi n :
  constructs (draw_uniform lo hi n) (fun _ => True).
Proof. intros w. eexists. split; [reflexivity |]. cbn. auto. Qed.

Lemma constructs_draw_normal mean std n :
  constructs (draw_normal mean std n) (fun _ => True).
Proof. intros w. eexists. split; [reflexivity |]. cbn. auto. Qed.

Lemma constructs_new_parameter v : constructs (new_parameter v) (fun _ => True).
Proof. intros w. eexists. split; [reflexivity |]. cbn. auto. Qed.

End ConstructorRules.

(** One step of a constructor: run the next call, keep what it promises. *)
Ltac construct_with lem :=
  eapply constructs_bind; [apply lem | cbn beta; intros ? ?].

Ltac construct_skip :=
  first [ construct_with constructs_draw_uniform
        | construct_with constructs_draw_normal
        | construct_with constructs_new_parameter ].

(** ** The layers of the library *)

Section Layers.
Context {B : Backend}.

Lemma length_flat_map_const {A C} (f : A -> list C) (l : list A) k :
  (forall a, length (f a) = k) -> length (flat_map f l) = length l * k.
Proof.
  intros H. induction l as [|a l IH]; cbn; [reflexivity |].
  rewrite length_app, H, IH. reflexivity.
Qed.

Lemma length_linear_data i o w b x rows :
  length (linear_data i o w b x rows) = rows * o.
Proof.
  unfold linear_data. rewrite length_flat_map_const with (k := o).
  - now rewrite length_seq.
  - intros r. now rewrite length_map, length_seq.
Qed.

Lemma Linear_init_spec i o :
  constructs (Linear_init i o)
    (fun l => in_features l = i /\ out_features l = o).
Proof.
  unfold Linear_init. repeat construct_skip.
  apply constructs_ret. split; reflexivity.
Qed.

Lemma Linear_forward_spec (l : Linear) (x : tensor) (n : N) w :
  shape x = [n; in_features l] ->
  yields (Linear_forward l x) w (fun ev w' t =>
    ev = [] /\ w' = w /\ shape t = [n; out_features l] /\
    length (data t) = N.to_nat n * N.to_nat (out_features l)).
Proof.
  intros Hx. unfold Linear_forward.
  apply yields_bind, yields_load, yields_bind, yields_load.
  unfold F_linear. rewrite Hx. cbn [rev app]. rewrite N.eqb_refl.
  eapply yields_lift; [reflexivity |]. cbn [shape data rev app].
  repeat split. rewrite length_linear_data. cbn [numel fold_right].
  now rewrite N.mul_1_r.
Qed.

Lemma sigmoid_fn_unit v : in_unit (sigmoid_fn v).
Proof.
  unfold in_unit, sigmoid_fn. pose proof (exp_pos (- v)) as He. split.
  - left. apply Rinv_0_lt_compat. lra.
  - rewrite <- Rinv_1 at 2. apply Rinv_le_contravar; lra.
Qed.

Lemma sigmoid_unit x : Forall in_unit (data (sigmoid x)).
Proof.
  unfold sigmoid, map_tensor. cbn [data]. apply Forall_forall.
  intros v Hv. apply in_map_iff in Hv as (u & <- & _). apply sigmoid_fn_unit.
Qed.

Lemma shape_map_tensor f x : shape (map_tensor f x) = shape x.
Proof. reflexivity. Qed.

Lemma well_formed_tabulate s f : well_formed (tabulate s f).
Proof.
  unfold well_formed, tabulate. cbn [data shape].
  now rewrite length_map, length_seq.
Qed.

Lemma well_formed_map_tensor f x : well_formed x -> well_formed (map_tensor f x).
Proof.
  unfold well_formed, map_tensor. cbn [data shape]. now rewrite length_map.
Qed.

Lemma well_formed_relu x : well_formed x -> well_formed (relu x).
Proof. apply well_formed_map_tensor. Qed.

Lemma well_formed_elu x : well_formed x -> well_formed (elu x).
Proof. apply well_formed_map_tensor. Qed.

Lemma well_formed_tanh x : well_formed x -> well_formed (tanh x).
Proof. apply well_formed_map_tensor. Qed.

Lemma well_formed_sigmoid x : well_formed x -> well_formed (sigmoid x).
Proof. apply well_formed_map_tensor. Qed.

Lemma length_map_tensor f x : length (data (map_tensor f x)) = length (data x).
Proof. unfold map_tensor. cbn [data]. apply length_map. Qed.

End Layers.

Create HintDb tensor.
#[export] Hint Resolve well_formed_tabulate well_formed_relu well_formed_elu
  well_formed_tanh well_formed_sigmoid : tensor.

(** A step [x = act(layer(x))] of a forward pass through a linear layer. *)
Ltac linear_step :=
  apply yields_bind, yields_fmap; eapply yields_weaken;
  [ eapply Linear_forward_spec; cbn [shape map_tensor relu sigmoid in_features];
    eassumption
  | cbn beta; intros ? ? ? (-> & -> & ? & ?) ].

(** ** The feedforward autoencoder *)

Section FeedforwardModel.
Context {B : Backend}.
Import Feedforward.

Definition linear_is (l : Linear) (i o : N) : Prop :=
  in_features l = i /\ out_features l = o.

(** The layer sizes that [Encoder.__init__] and [Decoder.__init__] declare. *)
Definition ff_encoder_arch (e : Encoder.t) : Prop :=
  linear_is (Encoder.fc1 e) 784 512 /\ linear_is (Encoder.fc2 e) 512 256 /\
  linear_is (Encoder.fc3 e) 256 128 /\ linear_is (Encoder.fc4 e) 128 64.

Definition ff_decoder_arch (d : Decoder.t) : Prop :=
  linear_is (Decoder.fc1 d) 64 128 /\ linear_is (Decoder.fc2 d) 128 256 /\
  linear_is (Decoder.fc3 d) 256 512 /\ linear_is (Decoder.fc4 d) 512 784.

Definition ff_arch (m : Autoencoder.t) : Prop :=
  ff_encoder_arch (Autoencoder.encoder m) /\
  ff_decoder_arch (Autoencoder.decoder m).

Lemma ff_encoder_init : constructs Encoder.__init__ ff_encoder_arch.
Proof.
  unfold Encoder.__init__.
  do 4 construct_with Linear_init_spec.
  apply constructs_ret. repeat split; cbn; tauto.
Qed.

Lemma ff_decoder_init : constructs Decoder.__init__ ff_decoder_arch.
Proof.
  unfold Decoder.__init__.
  do 4 construct_with Linear_init_spec.
  apply constructs_ret. repeat split; cbn; tauto.
Qed.

Lemma ff_init : constructs Autoencoder.__init__ ff_arch.
Proof.
  unfold Autoencoder.__init__.
  construct_with ff_encoder_init. construct_with ff_decoder_init.
  apply constructs_ret. split; assumption.
Qed.

Lemma ff_encoder_forward e x n w :
  ff_encoder_arch e -> shape x = [n; 784%N] ->
  yields (Encoder.forward e x) w (fun ev w' t =>
    ev = [] /\ w' = w /\ shape t = [n; 64%N]).
Proof.
  destruct e as [[i1 o1 ? ?] [i2 o2 ? ?] [i3 o3 ? ?] [i4 o4 ? ?]].
  intros ((E1 & E2) & (E3 & E4) & (E5 & E6) & (E7 & E8)) Hx.
  cbn in E1, E2, E3, E4, E5, E6, E7, E8. subst.
  unfold Encoder.forward. cbn [Encoder.fc1 Encoder.fc2 Encoder.fc3 Encoder.fc4].
  do 4 linear_step. apply yields_ret. cbn. auto.
Qed.

Lemma ff_decoder_forward d x n w :
  ff_decoder_arch d -> shape x = [n; 64%N] ->
  yields (Decoder.forward d x) w (fun ev w' t =>
    ev = [] /\ w' = w /\ shape t = [n; 784%N] /\
    length (data t) = N.to_nat n * N.to_nat 784 /\
    Forall in_unit (data t)).
Proof.
  destruct d as [[i1 o1 ? ?] [i2 o2 ? ?] [i3 o3 ? ?] [i4 o4 ? ?]].
  intros ((E1 & E2) & (E3 & E4) & (E5 & E6) & (E7 & E8)) Hx.
  cbn in E1, E2, E3, E4, E5, E6, E7, E8. subst.
  unfold Decoder.forward. cbn [Decoder.fc1 Decoder.fc2 Decoder.fc3 Decoder.fc4].
  do 4 linear_step. apply yields_ret. cbn [app]. repeat split.
  - assumption.
  - unfold sigmoid. rewrite length_map_tensor. assumption.
  - apply sigmoid_unit.
Qed.

Lemma ff_forward m x n w :
  ff_arch m -> shape x = [n; 784%N] ->
  yields (Autoencoder.forward m x) w (fun ev w' t =>
    ev = [] /\ w' = w /\ shape t = [n; 784%N] /\
    length (data t) = N.to_nat n * N.to_nat 784 /\
    Forall in_unit (data t)).
Proof.
  intros [He Hd] Hx. unfold Autoencoder.forward.
  apply yields_bind. eapply yields_weaken.
  { apply ff_encoder_forward; eassumption. }
  cbn beta. intros ? ? t (-> & -> & Ht).
  apply yields_bind. eapply yields_weaken.
  { apply ff_decoder_forward; eassumption. }
  cbn beta. intros ? ? t' (-> & -> & Ht' & Hl & Hu).
  apply yields_ret. cbn. auto.
Qed.

End FeedforwardModel.

(** ** Convolution and normalisation layers *)

Section ConvLayers.
Context {B : Backend}.

(** What a convolution declared with [(i, o, k, s, p)] does to a batch. *)
Definition conv2d_behaves (c : Conv2d) (i o k s p : N) : Prop :=
  forall x n h wd h' wd' w,
    shape x = [n; i; h; wd] ->
    conv_out h k s p = Some h' -> conv_out wd k s p = Some wd' ->
    yields (Conv2d_forward c x) w (fun ev w' t =>
      ev = [] /\ w' = w /\ shape t = [n; o; h'; wd'] /\ well_formed t).

Definition conv_transpose2d_behaves (c : ConvTranspose2d) (i o k s p op : N)
  : Prop :=
  forall x n h wd h' wd' w,
    shape x = [n; i; h; wd] ->
    conv_transpose_out h k s p op = Some h' ->
    conv_transpose_out wd k s p op = Some wd' ->
    yields (ConvTranspose2d_forward c x) w (fun ev w' t =>
      ev = [] /\ w' = w /\ shape t = [n; o; h'; wd'] /\ well_formed t).

(** A normalisation over [f] channels keeps the shape of a batch; it
    leaves the state alone in evaluation mode and never changes the mode. *)
Definition batch_norm2d_behaves (b : BatchNorm2d) (f : N) : Prop :=
  forall x n h wd w,
    shape x = [n; f; h; wd] ->
    yields (BatchNorm2d_forward b x) w (fun ev w' t =>
      ev = [] /\ shape t = [n; f; h; wd]).

Lemma yields_load_opt r w (Q : list Event -> World -> list R -> Prop) :
  (forall v, Q [] w v) -> yields (load_opt r) w Q.
Proof.
  intros H. destruct r; cbn [load_opt].
  - apply yields_load, H.
  - apply yields_ret, H.
Qed.

Lemma Conv2d_forward_behaves i o k s p wr br :
  conv2d_behaves (mkConv2d i o k s p wr br) i o k s p.
Proof.
  intros x n h wd h' wd' w Hx Hh Hw. unfold Conv2d_forward.
  rewrite Hx. cbn [in_channels out_channels kernel_size stride padding
                   conv_weight conv_bias].
  rewrite N.eqb_refl, Hh, Hw.
  apply yields_bind, yields_load, yields_bind, yields_load_opt. intros v.
  apply yields_ret. cbn [app]. auto using well_formed_tabulate.
Qed.

Lemma Conv2d_init_behaves i o k s p has_bias :
  constructs (Conv2d_init i o k s p has_bias)
    (fun c => conv2d_behaves c i o k s p).
Proof.
  unfold Conv2d_init. do 2 construct_skip.
  destruct has_bias.
  - eapply constructs_bind with (P := fun _ => True).
    + do 2 construct_skip. apply constructs_ret. exact I.
    + intros r _. apply constructs_ret, Conv2d_forward_behaves.
  - eapply constructs_bind with (P := fun _ => True).
    + apply constructs_ret. exact I.
    + intros r _. apply constructs_ret, Conv2d_forward_behaves.
Qed.

Lemma ConvTranspose2d_init_behaves i o k s p op :
  constructs (ConvTranspose2d_init i o k s p op)
    (fun c => conv_transpose2d_behaves c i o k s p op).
Proof.
  unfold ConvTranspose2d_init. do 4 construct_skip.
  apply constructs_ret.
  intros x n h wd h' wd' w Hx Hh Hw. unfold ConvTranspose2d_forward.
  rewrite Hx. cbn [ct_in_channels ct_out_channels ct_kernel_size ct_stride
                   ct_padding ct_output_padding ct_weight ct_bias].
  rewrite N.eqb_refl, Hh, Hw.
  apply yields_bind, yields_load, yields_bind, yields_load.
  apply yields_ret. cbn [app]. auto using well_formed_tabulate.
Qed.

Lemma yields_store r v w (Q : list Event -> World -> unit -> Prop) :
  Q [] (set_heap (heap_write (heap w) r v) w) tt -> yields (store r v) w Q.
Proof. intros H. unfold store. apply yields_modify. exact H. Qed.

Lemma BatchNorm2d_forward_behaves f wr br rm rv :
  batch_norm2d_behaves (mkBatchNorm2d f wr br rm rv) f.
Proof.
  intros x n h wd w Hx. unfold BatchNorm2d_forward.
  rewrite Hx. cbn [num_features bn_weight bn_bias running_mean running_var].
  rewrite N.eqb_refl.
  apply yields_bind, yields_load_opt. intros wt.
  apply yields_bind, yields_load_opt. intros b.
  apply yields_bind, yields_load, yields_bind, yields_load.
  apply yields_bind, yields_gets.
  destruct (training w).
  - apply yields_bind, yields_bind, yields_store, yields_store.
    apply yields_ret. cbn. auto.
  - apply yields_bind, yields_ret, yields_ret. cbn. auto.
Qed.

Lemma BatchNorm2d_init_behaves f affine :
  constructs (BatchNorm2d_init f affine) (fun b => batch_norm2d_behaves b f).
Proof.
  unfold BatchNorm2d_init.
  eapply constructs_bind with (P := fun _ => True).
  { destruct affine; [construct_skip |]; apply constructs_ret; exact I. }
  intros wr _.
  eapply constructs_bind with (P := fun _ => True).
  { destruct affine; [construct_skip |]; apply constructs_ret; exact I. }
  intros br _. do 2 construct_skip.
  apply constructs_ret, BatchNorm2d_forward_behaves.
Qed.

End ConvLayers.

(** Naming the result of a call and what is known of it. *)
Ltac take :=
  let ev := fresh "ev" in
  let w := fresh "w" in
  let t := fresh "t" in
  let H := fresh "H" in
  cbn beta; intros ev w t H;
  repeat match goal with H' : _ /\ _ |- _ => destruct H' end; subst.

(** One layer call of a forward pass: apply what is known of the layer,
    compute the spatial size it produces, and name the result. *)
Ltac layer_call :=
  eapply yields_weaken;
  [ match goal with
    | H : conv2d_behaves ?c _ _ _ _ _ |- yields (Conv2d_forward ?c _) _ _ =>
        eapply H
    | H : conv_transpose2d_behaves ?c _ _ _ _ _ _
      |- yields (ConvTranspose2d_forward ?c _) _ _ => eapply H
    | H : batch_norm2d_behaves ?c _ |- yields (BatchNorm2d_forward ?c _) _ _ =>
        eapply H
    end;
    [ cbn [shape map_tensor relu tanh elu]; eassumption
    | lazy; reflexivity .. ]
  | cbn beta ].

Ltac conv_step := apply yields_bind, yields_fmap; layer_call; take.

(** ** The convolutional autoencoder *)

Section ConvolutionalModel.
Context {B : Backend}.
Import ConvolutionalCifar.

Definition conv_encoder_ok (e : Encoder.t) : Prop :=
  forall x n w, shape x = [n; 3; 32; 32]%N ->
    yields (Encoder.forward e x) w (fun ev w' t =>
      ev = [] /\ w' = w /\ shape t = [n; 64; 1; 1]%N).

Definition conv_decoder_ok (d : Decoder.t) : Prop :=
  forall x n w, shape x = [n; 64; 1; 1]%N ->
    yields (Decoder.forward d x) w (fun ev w' t =>
      ev = [] /\ w' = w /\ shape t = [n; 3; 32; 32]%N /\ well_formed t).

Definition conv_autoencoder_ok (m : Autoencoder.t) : Prop :=
  forall x n w, shape x = [n; 3; 32; 32]%N ->
    yields (Autoencoder.forward m x) w (fun ev w' t =>
      ev = [] /\ w' = w /\ shape t = [n; 3; 32; 32]%N /\ well_formed t).

Lemma conv_encoder_init : constructs Encoder.__init__ conv_encoder_ok.
Proof.
  unfold Encoder.__init__. do 4 construct_with Conv2d_init_behaves.
  apply constructs_ret. intros x n w Hx.
  unfold Encoder.forward.
  cbn [Encoder.conv1 Encoder.conv2 Encoder.conv3 Encoder.conv4].
  do 4 conv_step. apply yields_ret. cbn [app]. auto with tensor.
Qed.

Lemma conv_decoder_init : constructs Decoder.__init__ conv_decoder_ok.
Proof.
  unfold Decoder.__init__. do 4 construct_with ConvTranspose2d_init_behaves.
  apply constructs_ret. intros x n w Hx.
  unfold Decoder.forward.
  cbn [Decoder.conv1 Decoder.conv2 Decoder.conv3 Decoder.conv4].
  do 4 conv_step. apply yields_ret. cbn [app]. auto with tensor.
Qed.

Lemma conv_autoencoder_init : constructs Autoencoder.__init__ conv_autoencoder_ok.
Proof.
  unfold Autoencoder.__init__.
  construct_with conv_encoder_init. construct_with conv_decoder_init.
  apply constructs_ret. intros x n w Hx. unfold Autoencoder.forward.
  cbn [Autoencoder.encoder Autoencoder.decoder].
  apply yields_bind. eapply yields_weaken; [eauto |]. take.
  apply yields_bind. eapply yields_weaken; [eauto |]. take.
  apply yields_ret. cbn [app]. auto.
Qed.

End ConvolutionalModel.

(** ** The residual autoencoder *)

Section ResidualModel.
Context {B : Backend}.
Import ResnetCifar.

(** [maps m ci co f]: on a batch with [ci] channels, the module [m] returns
    a batch with [co] channels whose height and width are [f] of those of
    the input, and leaves no trace. *)
Definition maps (m : Module_) (ci co : N) (f : N -> option N) : Prop :=
  forall x n h wd h' wd' w,
    shape x = [n; ci; h; wd] -> f h = Some h' -> f wd = Some wd' ->
    yields (forward m x) w (fun ev _ t =>
      ev = [] /\ shape t = [n; co; h'; wd']).

(** The spatial size after a convolution of kernel 3, stride 1, padding 1:
    the size itself, provided it is not zero. *)
Definition same (h : N) : option N := conv_out h 3 1 1.

Lemma same_spec h h' : same h = Some h' <-> (1 <= h)%N /\ h' = h.
Proof.
  unfold same, conv_out. destruct (N.ltb_spec (h + 2 * 1) 3).
  - split; [discriminate | lia].
  - rewrite N.div_1_r. split.
    + intros [= <-]. lia.
    + intros [_ ->]. f_equal. lia.
Qed.

Lemma broadcast_op_same_shape f x y :
  shape x = shape y ->
  broadcast_op f x y = Some (mkTensor (shape x) (zip_with f (data x) (data y))).
Proof.
  intros H. unfold broadcast_op, shape_eqb.
  destruct (list_eq_dec N.eq_dec (shape x) (shape y)); [reflexivity | contradiction].
Qed.

End ResidualModel.

(** A member of a [Sequential] in the residual script. *)
Ltac member_call :=
  apply yields_bind;
  first
    [ apply yields_ret
    | eapply yields_weaken;
      [ match goal with
        | H : conv2d_behaves ?c _ _ _ _ _ |- yields (Conv2d_forward ?c _) _ _ =>
            eapply H
        | H : conv_transpose2d_behaves ?c _ _ _ _ _ _
          |- yields (ConvTranspose2d_forward ?c _) _ _ => eapply H
        | H : batch_norm2d_behaves ?c _
          |- yields (BatchNorm2d_forward ?c _) _ _ => eapply H
        | H : maps ?m _ _ _ |- yields (ResnetCifar.forward ?m _) _ _ => eapply H
        end;
        [ cbn [shape map_tensor relu tanh elu]; eassumption
        | first [ eassumption | lazy; reflexivity ] .. ]
      | take ] ].

Section ResidualBlocks.
Context {B : Backend}.
Import ResnetCifar.

(** A block with a skip connection around [inner]. *)
Definition skips (blk inner : Module_) : Prop :=
  blk = BasicBlock inner \/ blk = BiggerBlock inner.

Lemma skip_forward blk inner x w :
  skips blk inner ->
  forward blk x w = (r <- forward inner x;; lift (add x r)) w.
Proof. intros [-> | ->]; reflexivity. Qed.

(** Around an inner transform that keeps the shape, the block returns the
    input plus the inner transform of the input, element by element. *)
Lemma skip_sum blk inner f :
  skips blk inner -> maps inner f f same ->
  forall x n h wd w,
    shape x = [n; f; h; wd] -> (1 <= h)%N -> (1 <= wd)%N ->
    exists r,
      value (forward inner x w) = Some r /\ shape r = shape x /\
      events (forward blk x w) = [] /\
      value (forward blk x w)
      = Some (mkTensor (shape x) (zip_with Rplus (data x) (data r))).
Proof.
  intros Hb Hin x n h wd w Hx Hh Hw.
  destruct (Hin x n h wd h wd w Hx) as (r & Hr & Hev & Hs);
    [now apply same_spec | now apply same_spec |].
  exists r. rewrite (skip_forward x w Hb). unfold bind. rewrite Hr, Hev. cbn.
  assert (E : shape x = shape r) by congruence.
  unfold add. rewrite (broadcast_op_same_shape _ _ _ E). cbn. auto.
Qed.

Lemma skip_maps blk inner f :
  skips blk inner -> maps inner f f same -> maps blk f f same.
Proof.
  intros Hb Hin x n h wd h' wd' w Hx Hh Hw.
  apply same_spec in Hh as [Hh ->]. apply same_spec in Hw as [Hw ->].
  destruct (skip_sum Hb Hin x w Hx Hh Hw) as (r & _ & _ & Hev & Hv).
  eexists. split; [exact Hv |]. rewrite Hev. cbn. auto.
Qed.

Lemma BasicBlock_init_inner f :
  constructs (BasicBlock_init f)
    (fun b => exists inner, b = BasicBlock inner /\ maps inner f f same).
Proof.
  unfold BasicBlock_init.
  construct_with Conv2d_init_behaves. construct_with BatchNorm2d_init_behaves.
  construct_with Conv2d_init_behaves. construct_with BatchNorm2d_init_behaves.
  apply constructs_ret. eexists. split; [reflexivity |].
  intros x n h wd h' wd' w Hx Hh Hw.
  pose proof (proj1 (same_spec _ _) Hh) as [_ ->].
  pose proof (proj1 (same_spec _ _) Hw) as [_ ->].
  cbn [forward]. do 6 member_call. apply yields_ret. cbn. auto.
Qed.

Lemma BasicBlock_init_maps f :
  constructs (BasicBlock_init f) (fun b => maps b f f same).
Proof.
  eapply constructs_weaken; [apply BasicBlock_init_inner |].
  intros b (inner & -> & Hin). eapply skip_maps; [now left | exact Hin].
Qed.

Lemma ELU_BatchNorm2d_init_maps f :
  constructs (ELU_BatchNorm2d_init f) (fun b => maps b f f Some).
Proof.
  unfold ELU_BatchNorm2d_init. construct_with BatchNorm2d_init_behaves.
  apply constructs_ret. intros x n h wd h' wd' w Hx [= <-] [= <-].
  cbn [forward]. do 2 member_call. apply yields_ret. cbn. auto.
Qed.

Lemma BiggerBlock_init_inner f :
  constructs (BiggerBlock_init f)
    (fun b => exists inner, b = BiggerBlock inner /\ maps inner f f same).
Proof.
  unfold BiggerBlock_init.
  construct_with BasicBlock_init_maps. construct_with BatchNorm2d_init_behaves.
  construct_with BasicBlock_init_maps. construct_with BatchNorm2d_init_behaves.
  apply constructs_ret. eexists. split; [reflexivity |].
  intros x n h wd h' wd' w Hx Hh Hw.
  pose proof (proj1 (same_spec _ _) Hh) as [_ ->].
  pose proof (proj1 (same_spec _ _) Hw) as [_ ->].
  cbn [forward]. do 6 member_call. apply yields_ret. cbn. auto.
Qed.

Lemma BiggerBlock_init_maps f :
  constructs (BiggerBlock_init f) (fun b => maps b f f same).
Proof.
  eapply constructs_weaken; [apply BiggerBlock_init_inner |].
  intros b (inner & -> & Hin). eapply skip_maps; [now right | exact Hin].
Qed.

End ResidualBlocks.

Section ResidualNetwork.
Context {B : Backend}.
Import ResnetCifar.

Definition res_encoder_ok (e : ResidualEncoder.t) : Prop :=
  forall x n w, shape x = [n; 3; 32; 32]%N ->
    yields (ResidualEncoder.forward e x) w (fun ev _ t =>
      ev = [] /\ shape t = [n; 256; 1; 1]%N).

Definition res_decoder_ok (d : ResidualDecoder.t) : Prop :=
  forall x n w, shape x = [n; 256; 1; 1]%N ->
    yields (ResidualDecoder.forward d x) w (fun ev _ t =>
      ev = [] /\ shape t = [n; 3; 32; 32]%N /\ well_formed t).

Definition res_autoencoder_ok (m : Autoencoder.t) : Prop :=
  forall x n w, shape x = [n; 3; 32; 32]%N ->
    yields (Autoencoder.forward m x) w (fun ev _ t =>
      ev = [] /\ shape t = [n; 3; 32; 32]%N /\ well_formed t).

Lemma res_encoder_init : constructs ResidualEncoder.__init__ res_encoder_ok.
Proof.
  unfold ResidualEncoder.__init__. cbn zeta.
  construct_with Conv2d_init_behaves.
  do 3 (construct_with BiggerBlock_init_maps;
        construct_with ELU_BatchNorm2d_init_maps;
        construct_with Conv2d_init_behaves).
  construct_with BiggerBlock_init_maps.
  construct_with ELU_BatchNorm2d_init_maps.
  construct_with Conv2d_init_behaves.
  apply constructs_ret. intros x n w Hx.
  unfold ResidualEncoder.forward. cbn [ResidualEncoder.encoder forward].
  do 17 member_call. apply yields_ret. cbn. auto.
Qed.

Lemma res_decoder_init : constructs ResidualDecoder.__init__ res_decoder_ok.
Proof.
  unfold ResidualDecoder.__init__. cbn zeta.
  construct_with BatchNorm2d_init_behaves.
  do 4 (construct_with ConvTranspose2d_init_behaves;
        construct_with ELU_BatchNorm2d_init_maps;
        construct_with BiggerBlock_init_maps).
  construct_with Conv2d_init_behaves.
  apply constructs_ret. intros x n w Hx.
  unfold ResidualDecoder.forward. cbn [ResidualDecoder.decoder forward].
  do 19 member_call. apply yields_ret. cbn [app]. auto with tensor.
Qed.

Lemma res_autoencoder_init bottleneck :
  constructs (Autoencoder.__init__ bottleneck) res_autoencoder_ok.
Proof.
  unfold Autoencoder.__init__.
  construct_with res_encoder_init. construct_with res_decoder_init.
  apply constructs_ret. intros x n w Hx. unfold Autoencoder.forward.
  cbn [Autoencoder.encoder Autoencoder.decoder].
  apply yields_bind. eapply yields_weaken; [eauto |]. take.
  apply yields_bind. eapply yields_weaken; [eauto |]. take.
  apply yields_ret. cbn. auto.
Qed.

End ResidualNetwork.

(** ** Conditional normalisation *)

Section TraceRules.
Context {B : Backend}.

Lemma paths_app a b : paths (a ++ b) = paths a ++ paths b.
Proof. apply flat_map_app. Qed.

Lemma labels_app a b : labels (a ++ b) = labels a ++ labels b.
Proof. apply flat_map_app. Qed.

Lemma constructs_load r : constructs (load r) (fun _ => True).
Proof. intros w. eexists. split; [reflexivity |]. cbn. auto. Qed.

Lemma constructs_store r v : constructs (store r v) (fun _ => True).
Proof. intros w. eexists. split; [reflexivity |]. cbn. auto. Qed.

End TraceRules.

Section ConditionalLayers.
Context {B : Backend}.

(** The labels of a batch of [n] images: one class below 10 per image. *)
Definition valid_labels (y : LongTensor) (n : N) : Prop :=
  N.of_nat (length y) = n /\ forallb (fun i => (i <? 10)%N) y = true.

Lemma valid_long_zeros n : valid_labels (long_zeros n) n.
Proof.
  unfold valid_labels, long_zeros. rewrite repeat_length, N2Nat.id.
  split; [reflexivity |]. apply forallb_forall.
  intros i Hi. apply repeat_spec in Hi. now subst.
Qed.

Definition embedding_behaves (e : Embedding) (num dim : N) : Prop :=
  forall y w, forallb (fun i => (i <? num)%N) y = true ->
    yields (Embedding_forward e y) w (fun ev w' t =>
      labels ev = [y] /\ paths ev = [] /\ w' = w /\
      shape t = [N.of_nat (length y); dim]).

Lemma Embedding_init_behaves num dim :
  constructs (Embedding_init num dim) (fun e => embedding_behaves e num dim).
Proof.
  unfold Embedding_init. do 2 construct_skip. apply constructs_ret.
  intros y w Hy. unfold Embedding_forward.
  cbn [emb_weight num_embeddings embedding_dim].
  apply yields_bind, yields_emit, yields_bind, yields_load.
  rewrite Hy. apply yields_ret. cbn. auto.
Qed.

Lemma chunk2_halves t n f :
  shape t = [n; f * 2]%N -> (f <> 0)%N ->
  exists g b, chunk2 t = Some (g, b) /\ shape g = [n; f] /\ shape b = [n; f].
Proof.
  intros Ht Hf. unfold chunk2. rewrite Ht.
  assert (Hc : ((f * 2 + 1) / 2 = f)%N).
  { rewrite N.add_comm, N.div_add; [| discriminate]. reflexivity. }
  rewrite Hc. destruct (N.leb_spec (f * 2) f) as [H | H]; [lia |].
  do 2 eexists. split; [reflexivity |]. cbn [shape]. split; [reflexivity |].
  do 2 f_equal. lia.
Qed.

Lemma view_channels t n f :
  shape t = [n; f] -> (f <> 0)%N ->
  exists t', view [(-1)%Z; Z.of_N f; 1%Z; 1%Z] t = Some t' /\
             shape t' = [n; f; 1; 1]%N.
Proof.
  intros Ht Hf. unfold view. rewrite Ht.
  assert (Hk : filter (fun z => negb (z =? -1)%Z) [(-1)%Z; Z.of_N f; 1%Z; 1%Z]
               = [Z.of_N f; 1%Z; 1%Z]).
  { cbn [filter]. destruct (Z.eqb_spec (Z.of_N f) (-1)); [lia |]. reflexivity. }
  rewrite Hk. cbn [existsb length Nat.sub map numel fold_right].
  destruct (Z.ltb_spec (Z.of_N f) 0); [lia |].
  change (1 <? 0)%Z with false. change (Z.to_N 1) with 1%N.
  change (-1 =? -1)%Z with true. change (1 =? -1)%Z with false.
  destruct (Z.eqb_spec (Z.of_N f) (-1)); [lia |].
  cbn [orb]. rewrite N2Z.id, !N.mul_1_r.
  destruct (N.eqb_spec f 0); [contradiction |]. cbn [orb].
  rewrite N.Div0.mod_mul. cbn [N.eqb negb].
  eexists. split; [reflexivity |]. cbn [shape].
  rewrite N.div_mul by assumption. reflexivity.
Qed.

Lemma broadcast_channels op x y n f h wd :
  shape x = [n; f; 1; 1]%N -> shape y = [n; f; h; wd] ->
  exists t, broadcast_op op x y = Some t /\ shape t = [n; f; h; wd].
Proof.
  intros Hx Hy. unfold broadcast_op, shape_eqb.
  destruct (list_eq_dec N.eq_dec (shape x) (shape y)) as [E | E].
  - eexists. split; [reflexivity |]. cbn [shape]. congruence.
  - unfold broadcast_shapes. rewrite Hx, Hy. cbn [rev app broadcast_rev].
    rewrite !N.eqb_refl.
    destruct (N.eqb_spec 1 wd), (N.eqb_spec 1 h); subst;
      cbn [option_map rev app]; eexists; (split; [reflexivity | reflexivity]).
Qed.

Lemma broadcast_channels_r op x y n f h wd :
  shape x = [n; f; h; wd] -> shape y = [n; f; 1; 1]%N ->
  exists t, broadcast_op op x y = Some t /\ shape t = [n; f; h; wd].
Proof.
  intros Hx Hy. unfold broadcast_op, shape_eqb.
  destruct (list_eq_dec N.eq_dec (shape x) (shape y)) as [E | E].
  - eexists. split; [reflexivity |]. cbn [shape]. congruence.
  - unfold broadcast_shapes. rewrite Hx, Hy. cbn [rev app broadcast_rev].
    rewrite !N.eqb_refl.
    destruct (N.eqb_spec wd 1), (N.eqb_spec h 1); subst;
      cbn [option_map rev app]; eexists; (split; [reflexivity | reflexivity]).
Qed.

End ConditionalLayers.

Section ConditionalNorm.
Context {B : Backend}.
Import ConditionalAutoencoder.

(** A conditional normalisation over [f] channels keeps the shape of a
    batch, looks its labels up once and writes no file. *)
Definition cbn_behaves (c : ConditionalBatchNorm2d.t) (f : N) : Prop :=
  forall x y n h wd w,
    shape x = [n; f; h; wd] -> valid_labels y n ->
    yields (ConditionalBatchNorm2d.forward c x y) w (fun ev _ t =>
      paths ev = [] /\ labels ev = [y] /\ shape t = [n; f; h; wd]).

Lemma cbn_forward_behaves f bn embed :
  (f <> 0)%N -> batch_norm2d_behaves bn f -> embedding_behaves embed 10 (f * 2) ->
  cbn_behaves (ConditionalBatchNorm2d.mk f bn embed) f.
Proof.
  intros Hf Hbn Hemb x y n h wd w Hx [Hlen Hy].
  unfold ConditionalBatchNorm2d.forward.
  cbn [ConditionalBatchNorm2d.bn ConditionalBatchNorm2d.embed
       ConditionalBatchNorm2d.features].
  apply yields_bind. eapply yields_weaken; [eapply Hbn; eassumption |].
  cbn beta. intros ? w1 out (-> & Hout).
  apply yields_bind. eapply yields_weaken; [eapply Hemb; eassumption |].
  cbn beta. intros ev w2 e (Hl & Hp & -> & He). rewrite Hlen in He.
  destruct (chunk2_halves e He Hf) as (g & b & Hgb & Hg & Hb).
  apply yields_bind. eapply yields_lift; [eassumption |]. cbn [fst snd].
  destruct (view_channels g Hg Hf) as (g' & Hg' & Hsg).
  apply yields_bind. eapply yields_lift; [eassumption |].
  destruct (broadcast_channels Rmult g' out Hsg Hout) as (t1 & Ht1 & Hs1).
  apply yields_bind. eapply yields_lift; [exact Ht1 |].
  destruct (view_channels b Hb Hf) as (b' & Hb' & Hsb).
  apply yields_bind. eapply yields_lift; [eassumption |].
  destruct (broadcast_channels_r Rplus t1 b' Hs1 Hsb) as (t2 & Ht2 & Hs2).
  apply yields_bind. eapply yields_lift; [exact Ht2 |].
  apply yields_ret. cbn [app]. rewrite !app_nil_r. auto.
Qed.

Lemma cbn_init_behaves f :
  (f <> 0)%N ->
  constructs (ConditionalBatchNorm2d.__init__ f 10) (fun c => cbn_behaves c f).
Proof.
  intros Hf. unfold ConditionalBatchNorm2d.__init__.
  construct_with BatchNorm2d_init_behaves.
  construct_with Embedding_init_behaves. cbn zeta.
  construct_skip.
  construct_with constructs_load. construct_with constructs_store.
  construct_with constructs_load. construct_with constructs_store.
  apply constructs_ret. apply cbn_forward_behaves; assumption.
Qed.

Definition cond_block_behaves (b : BasicBlock.t) (f : N) : Prop :=
  forall x y n h wd w,
    shape x = [n; f; h; wd] -> (1 <= h)%N -> (1 <= wd)%N -> valid_labels y n ->
    yields (BasicBlock.conditional_forward b x y) w (fun ev _ t =>
      paths ev = [] /\ labels ev = [y; y] /\ shape t = [n; f; h; wd]).

Definition cond_elu_bn_behaves (b : ELU_BatchNorm2d.t) (f : N) : Prop :=
  forall x y n h wd w,
    shape x = [n; f; h; wd] -> valid_labels y n ->
    yields (ELU_BatchNorm2d.conditional_forward b x y) w (fun ev _ t =>
      paths ev = [] /\ labels ev = [y] /\ shape t = [n; f; h; wd]).

End ConditionalNorm.

(** Collecting what is known of the traces of the calls made so far. *)
Ltac trace_solve :=
  rewrite ?paths_app, ?labels_app;
  repeat match goal with
         | H : paths _ = _ |- _ => rewrite H; clear H
         | H : labels _ = _ |- _ => rewrite H; clear H
         end;
  cbn [app paths labels flat_map]; try reflexivity; auto with tensor.

(** A call of a layer or of a class of the conditional script. *)
Ltac cond_call :=
  apply yields_bind; eapply yields_weaken;
  [ match goal with
    | H : conv2d_behaves ?c _ _ _ _ _ |- yields (Conv2d_forward ?c _) _ _ =>
        eapply H
    | H : conv_transpose2d_behaves ?c _ _ _ _ _ _
      |- yields (ConvTranspose2d_forward ?c _) _ _ => eapply H
    | H : cbn_behaves ?c _
      |- yields (ConditionalAutoencoder.ConditionalBatchNorm2d.forward ?c _ _) _ _ =>
        eapply H
    | H : cond_block_behaves ?c _
      |- yields (ConditionalAutoencoder.BasicBlock.conditional_forward ?c _ _) _ _ =>
        eapply H
    | H : cond_elu_bn_behaves ?c _
      |- yields (ConditionalAutoencoder.ELU_BatchNorm2d.conditional_forward ?c _ _) _ _ =>
        eapply H
    end;
    [ cbn [shape map_tensor relu tanh elu]; eassumption
    | first [ eassumption | lazy; reflexivity | lia ] .. ]
  | take ].

Section ConditionalBlocks.
Context {B : Backend}.
Import ConditionalAutoencoder.

Lemma cond_block_init f :
  (f <> 0)%N ->
  constructs (BasicBlock.__init__ f) (fun b => cond_block_behaves b f).
Proof.
  intros Hf. unfold BasicBlock.__init__.
  construct_with Conv2d_init_behaves. construct_with (cbn_init_behaves Hf).
  construct_with Conv2d_init_behaves. construct_with (cbn_init_behaves Hf).
  apply constructs_ret. intros x y n h wd w Hx Hh Hw Hy.
  assert (Sh : conv_out h 3 1 1 = Some h) by (apply same_spec; auto).
  assert (Sw : conv_out wd 3 1 1 = Some wd) by (apply same_spec; auto).
  unfold BasicBlock.conditional_forward.
  cbn [BasicBlock.conv1 BasicBlock.bn1 BasicBlock.conv2 BasicBlock.bn2].
  cbn zeta. do 4 cond_call.
  eapply yields_lift.
  { apply broadcast_op_same_shape. congruence. }
  cbn [shape]. repeat split; trace_solve.
Qed.

Lemma cond_elu_bn_init f :
  (f <> 0)%N ->
  constructs (ELU_BatchNorm2d.__init__ f) (fun b => cond_elu_bn_behaves b f).
Proof.
  intros Hf. unfold ELU_BatchNorm2d.__init__.
  construct_with (cbn_init_behaves Hf).
  apply constructs_ret. intros x y n h wd w Hx Hy.
  unfold ELU_BatchNorm2d.conditional_forward. cbn [ELU_BatchNorm2d.bn].
  cbn zeta. cond_call. apply yields_ret. repeat split; trace_solve.
Qed.

End ConditionalBlocks.

Ltac construct_nz lem :=
  eapply constructs_bind; [apply lem; discriminate | cbn beta; intros ? ?].

Ltac construct_item :=
  eapply constructs_bind;
  [ apply constructs_lift; reflexivity | cbn beta; intros ? -> ].

Section ConditionalNetwork.
Context {B : Backend}.
Import ConditionalAutoencoder.

(** The filter widths that [Autoencoder.__init__] ends up with. *)
Definition cond_filters : list N := [64; 128; 256; 512; 1024]%N.

Definition cond_encoder_ok (e : ResidualEncoder.t) : Prop :=
  forall x y n w, shape x = [n; 3; 32; 32]%N -> valid_labels y n ->
    yields (ResidualEncoder.conditional_forward e x y) w (fun ev _ t =>
      paths ev = [] /\ labels ev = repeat y 12 /\ shape t = [n; 1024; 1; 1]%N).

Definition cond_decoder_ok (d : ResidualDecoder.t) : Prop :=
  forall x y n w, shape x = [n; 1024; 1; 1]%N -> valid_labels y n ->
    yields (ResidualDecoder.conditional_forward d x y) w (fun ev _ t =>
      paths ev = [] /\ labels ev = repeat y 12 /\
      shape t = [n; 3; 32; 32]%N /\ well_formed t).

(** The conditional pass of the whole model: the twelve lookups of the
    encoder receive the all-zero label, the twelve of the decoder [y]. *)
Definition cond_autoencoder_ok (m : Autoencoder.t) : Prop :=
  forall x y n w, shape x = [n; 3; 32; 32]%N -> valid_labels y n ->
    yields (Autoencoder.conditional_forward m x y) w (fun ev _ t =>
      paths ev = [] /\
      labels ev = repeat (long_zeros n) 12 ++ repeat y 12 /\
      shape t = [n; 3; 32; 32]%N /\ well_formed t).

Lemma cond_encoder_init :
  constructs (ResidualEncoder.__init__ cond_filters) cond_encoder_ok.
Proof.
  unfold ResidualEncoder.__init__.
  construct_item. construct_with Conv2d_init_behaves.
  construct_nz cond_block_init. construct_nz cond_elu_bn_init.
  do 3 (construct_item; construct_with Conv2d_init_behaves;
        construct_nz cond_block_init; construct_nz cond_elu_bn_init).
  construct_item. construct_with Conv2d_init_behaves.
  apply constructs_ret. intros x y n w Hx Hy.
  unfold ResidualEncoder.conditional_forward.
  cbn [ResidualEncoder.conv5 ResidualEncoder.conv4 ResidualEncoder.conv3
       ResidualEncoder.conv2 ResidualEncoder.conv1
       ResidualEncoder.block4 ResidualEncoder.block3 ResidualEncoder.block2
       ResidualEncoder.block1 ResidualEncoder.eb4 ResidualEncoder.eb3
       ResidualEncoder.eb2 ResidualEncoder.eb1].
  cbn zeta. do 13 cond_call.
  apply yields_ret. repeat split; trace_solve.
Qed.

Lemma cond_decoder_init :
  constructs (ResidualDecoder.__init__ cond_filters) cond_decoder_ok.
Proof.
  unfold ResidualDecoder.__init__.
  construct_item. construct_item.
  construct_with ConvTranspose2d_init_behaves.
  construct_nz cond_elu_bn_init. construct_nz cond_block_init.
  do 3 (construct_item; construct_with ConvTranspose2d_init_behaves;
        construct_nz cond_elu_bn_init; construct_nz cond_block_init).
  construct_with Conv2d_init_behaves.
  apply constructs_ret. intros x y n w Hx Hy.
  unfold ResidualDecoder.conditional_forward.
  cbn [ResidualDecoder.conv5 ResidualDecoder.conv4 ResidualDecoder.conv3
       ResidualDecoder.conv2 ResidualDecoder.conv1
       ResidualDecoder.block4 ResidualDecoder.block3 ResidualDecoder.block2
       ResidualDecoder.block1 ResidualDecoder.eb4 ResidualDecoder.eb3
       ResidualDecoder.eb2 ResidualDecoder.eb1].
  cbn zeta. do 13 cond_call.
  apply yields_ret. repeat split; trace_solve.
Qed.

Lemma yields_default_label x n rest w
  (Q : list Event -> World -> LongTensor -> Prop) :
  shape x = n :: rest -> Q [] w (long_zeros n) -> yields (default_label x) w Q.
Proof.
  intros Hx HQ. unfold default_label, size0. rewrite Hx. cbn [hd_error].
  apply yields_bind. eapply yields_lift; [reflexivity |].
  apply yields_ret. exact HQ.
Qed.

Lemma cond_encoder_forward e x n w :
  cond_encoder_ok e -> shape x = [n; 3; 32; 32]%N ->
  yields (ResidualEncoder.forward e x) w (fun ev _ t =>
    paths ev = [] /\ labels ev = repeat (long_zeros n) 12 /\
    shape t = [n; 1024; 1; 1]%N).
Proof.
  intros He Hx. unfold ResidualEncoder.forward.
  apply yields_bind. eapply yields_default_label; [eassumption |].
  eapply yields_weaken; [apply He; [eassumption | apply valid_long_zeros] |].
  cbn beta. intros ev w' t H. exact H.
Qed.

Lemma cond_autoencoder_parts :
  constructs Autoencoder.__init__
    (fun m => cond_encoder_ok (Autoencoder.encoder m) /\
              cond_decoder_ok (Autoencoder.decoder m)).
Proof.
  unfold Autoencoder.__init__. cbn zeta.
  construct_with cond_encoder_init. construct_with cond_decoder_init.
  apply constructs_ret. split; assumption.
Qed.

Lemma cond_autoencoder_of_parts m :
  cond_encoder_ok (Autoencoder.encoder m) ->
  cond_decoder_ok (Autoencoder.decoder m) ->
  cond_autoencoder_ok m.
Proof.
  intros He Hd x y n w Hx Hy.
  unfold Autoencoder.conditional_forward.
  apply yields_bind. eapply yields_weaken.
  { apply cond_encoder_forward; eassumption. }
  take.
  apply yields_bind. eapply yields_weaken; [eapply Hd; eassumption |].
  take.
  apply yields_ret. repeat split; trace_solve.
Qed.

Lemma cond_autoencoder_init : constructs Autoencoder.__init__ cond_autoencoder_ok.
Proof.
  eapply constructs_weaken; [apply cond_autoencoder_parts |].
  intros m [He Hd]. now apply cond_autoencoder_of_parts.
Qed.

End ConditionalNetwork.

(** ** What a program leaves behind, whether or not it raises *)

Section Respects.
Context {B : Backend}.

(** [respects R m]: the initial state, the trace and the final state of every
    run of [m] are related by [R]. *)
Definition respects (R : World -> list Event -> World -> Prop)
  {A : Type} (m : Prog A) : Prop :=
  forall w, R w (events (m w)) (final (m w)).

(** Relations that hold of the empty run and of two runs in sequence. *)
Class Compositional (R : World -> list Event -> World -> Prop) : Prop := {
  comp_refl : forall w, R w [] w;
  comp_trans : forall w ev w' ev' w'',
    R w ev w' -> R w' ev' w'' -> R w (ev ++ ev') w''
}.

(** In evaluation mode the state is left as it was. *)
Definition frozen_rel (w : World) (ev : list Event) (w' : World) : Prop :=
  training w = false -> w' = w.

(** No file is written. *)
Definition silent_rel (w : World) (ev : list Event) (w' : World) : Prop :=
  paths ev = [].

Definition calm_rel (w : World) (ev : list Event) (w' : World) : Prop :=
  paths ev = [] /\ (training w = false -> w' = w).

#[export] Instance frozen_comp : Compositional frozen_rel.
Proof.
  split; unfold frozen_rel.
  - reflexivity.
  - intros w ev w' ev' w'' H1 H2 Hw. specialize (H1 Hw). subst w'.
    exact (H2 Hw).
Qed.

#[export] Instance silent_comp : Compositional silent_rel.
Proof.
  split; unfold silent_rel.
  - reflexivity.
  - intros w ev w' ev' w'' H1 H2. rewrite paths_app, H1, H2. reflexivity.
Qed.

#[export] Instance calm_comp : Compositional calm_rel.
Proof.
  split; unfold calm_rel.
  - auto.
  - intros w ev w' ev' w'' [P1 H1] [P2 H2]. split.
    + rewrite paths_app, P1, P2. reflexivity.
    + intros Hw. specialize (H1 Hw). subst w'. exact (H2 Hw).
Qed.

Section Rules.
Variable R : World -> list Event -> World -> Prop.
Context {C : Compositional R}.

Lemma respects_ret {A} (a : A) : respects R (ret a).
Proof. intros w. apply comp_refl. Qed.

Lemma respects_raise {A} : respects R (@raise _ A).
Proof. intros w. apply comp_refl. Qed.

Lemma respects_lift {A} (o : option A) : respects R (lift o).
Proof. intros w. apply comp_refl. Qed.

Lemma respects_gets {A} (f : World -> A) : respects R (gets f).
Proof. intros w. apply comp_refl. Qed.

Lemma respects_bind {A D} (m : Prog A) (f : A -> Prog D) :
  respects R m -> (forall a, respects R (f a)) -> respects R (bind m f).
Proof.
  intros Hm Hf w. unfold bind. destruct (value (m w)) as [a |] eqn:E; cbn.
  - eapply comp_trans; [apply Hm | apply Hf].
  - apply Hm.
Qed.

Lemma respects_fmap {A D} (g : A -> D) (m : Prog A) :
  respects R m -> respects R (fmap g m).
Proof.
  intros Hm. unfold fmap. apply respects_bind; [exact Hm |].
  intros a. apply respects_ret.
Qed.

Lemma respects_emit (e : Event) : (forall w, R w [e] w) -> respects R (emit e).
Proof. intros H w. apply H. Qed.

Lemma respects_modify (f : World -> World) :
  (forall w, R w [] (f w)) -> respects R (modify f).
Proof. intros H w. apply H. Qed.

Lemma respects_load r : respects R (load r).
Proof. apply respects_gets. Qed.

Lemma respects_load_opt r : respects R (load_opt r).
Proof. destruct r; [apply respects_load | apply respects_ret]. Qed.

Lemma respects_for_enumerate {A S} (body : nat -> A -> S -> Prog S) l :
  forall i acc,
    (forall j a acc', (i <= j)%nat -> respects R (body j a acc')) ->
    respects R (for_enumerate i l body acc).
Proof.
  induction l as [| a l IH]; intros i acc H; cbn [for_enumerate].
  - apply respects_ret.
  - apply respects_bind; [apply H; lia |].
    intros acc'. apply IH. intros j a' acc'' Hj. apply H. lia.
Qed.

End Rules.

Lemma respects_weaken (R R' : World -> list Event -> World -> Prop)
  {A} (m : Prog A) :
  (forall w ev w', R w ev w' -> R' w ev w') -> respects R m -> respects R' m.
Proof. intros H Hm w. apply H, Hm. Qed.

Lemma calm_frozen {A} (m : Prog A) :
  respects calm_rel m -> respects frozen_rel m.
Proof. apply respects_weaken. intros w ev w' [_ H]. exact H. Qed.

Lemma calm_silent {A} (m : Prog A) :
  respects calm_rel m -> respects silent_rel m.
Proof. apply respects_weaken. intros w ev w' [H _]. exact H. Qed.

End Respects.

Create HintDb respects.

(** Applying a rule and finding the instance of [Compositional] it needs. *)
Ltac rule lem := apply lem; try solve [typeclasses eauto].

(** Programs made of calls that respect a relation respect it. *)
Ltac respects_auto :=
  repeat first
    [ rule respects_ret
    | rule respects_raise
    | rule respects_lift
    | rule respects_gets
    | rule respects_load
    | rule respects_load_opt
    | solve [eauto with respects]
    | apply calm_frozen; solve [eauto with respects]
    | apply calm_silent; solve [eauto with respects]
    | rule respects_emit;
      [ intros ?;
        first [ reflexivity | intros _; reflexivity
              | split; [reflexivity | intros _; reflexivity] ] ]
    | rule respects_fmap
    | rule respects_bind; [| intros ?]
    | match goal with
      | |- respects _ (match ?s with _ => _ end) => destruct s
      end ].

Section RespectsLayers.
Context {B : Backend}.

(** The update of the running statistics is guarded by the mode. *)
Lemma guarded_store_calm {A} r1 v1 r2 v2 (k : bool -> Prog A) :
  (forall tr, respects calm_rel (k tr)) ->
  respects calm_rel
    (tr <- gets training;;
     (if tr : bool then store r1 v1;; store r2 v2 else ret tt);;
     k tr).
Proof.
  intros Hk w. split.
  - revert w. change (respects silent_rel
      (tr <- gets training;;
       (if tr : bool then store r1 v1;; store r2 v2 else ret tt);; k tr)).
    rule respects_bind; [rule respects_gets |]. intros tr.
    rule respects_bind.
    + destruct tr; [| rule respects_ret].
      rule respects_bind; [| intros ?];
        rule respects_modify; reflexivity.
    + intros _. apply calm_silent, Hk.
  - intros E. unfold bind, gets, ret. cbn. rewrite E. cbn.
    destruct (value (k false w)); cbn; apply Hk; exact E.
Qed.

Lemma BatchNorm2d_forward_calm bn x :
  respects calm_rel (BatchNorm2d_forward bn x).
Proof.
  unfold BatchNorm2d_forward.
  repeat match goal with
         | |- respects _ (match ?s with _ => _ end) =>
             destruct s; try rule respects_raise
         end.
  do 4 (rule respects_bind;
        [first [rule respects_load_opt | rule respects_load] | intros ?]).
  apply guarded_store_calm. intros tr. rule respects_ret.
Qed.

Lemma Linear_forward_calm l x : respects calm_rel (Linear_forward l x).
Proof. unfold Linear_forward. respects_auto. Qed.

Lemma Conv2d_forward_calm c x : respects calm_rel (Conv2d_forward c x).
Proof. unfold Conv2d_forward. respects_auto. Qed.

Lemma ConvTranspose2d_forward_calm c x :
  respects calm_rel (ConvTranspose2d_forward c x).
Proof. unfold ConvTranspose2d_forward. respects_auto. Qed.

Lemma Embedding_forward_calm e y : respects calm_rel (Embedding_forward e y).
Proof.
  unfold Embedding_forward.
  rule respects_bind; [rule respects_emit; intros w; split; auto |].
  intros _. respects_auto.
Qed.

End RespectsLayers.

#[export] Hint Resolve BatchNorm2d_forward_calm Linear_forward_calm
  Conv2d_forward_calm ConvTranspose2d_forward_calm Embedding_forward_calm
  : respects.

Section RespectsModels.
Context {B : Backend}.

Lemma ff_forward_calm m x :
  respects calm_rel (Feedforward.Autoencoder.forward m x).
Proof.
  unfold Feedforward.Autoencoder.forward, Feedforward.Encoder.forward,
    Feedforward.Decoder.forward.
  respects_auto.
Qed.

Lemma conv_forward_calm m x :
  respects calm_rel (ConvolutionalCifar.Autoencoder.forward m x).
Proof.
  unfold ConvolutionalCifar.Autoencoder.forward,
    ConvolutionalCifar.Encoder.forward, ConvolutionalCifar.Decoder.forward.
  respects_auto.
Qed.

Lemma res_module_calm :
  forall m x, respects calm_rel (ResnetCifar.forward m x).
Proof.
  fix IH 1. intros m x. destruct m; cbn [ResnetCifar.forward].
  - apply Conv2d_forward_calm.
  - apply ConvTranspose2d_forward_calm.
  - apply BatchNorm2d_forward_calm.
  - rule respects_ret.
  - rule respects_ret.
  - rule respects_ret.
  - revert x. induction members as [| m' ms IHms]; intros x.
    + rule respects_ret.
    + rule respects_bind; [apply IH | exact IHms].
  - rule respects_bind; [apply IH | intros r; rule respects_lift].
  - apply IH.
  - rule respects_bind; [apply IH | intros r; rule respects_lift].
Qed.

Lemma res_forward_calm m x :
  respects calm_rel (ResnetCifar.Autoencoder.forward m x).
Proof.
  unfold ResnetCifar.Autoencoder.forward, ResnetCifar.ResidualEncoder.forward,
    ResnetCifar.ResidualDecoder.forward.
  rule respects_bind; [apply res_module_calm | intros ?].
  rule respects_bind; [apply res_module_calm | intros ?].
  rule respects_ret.
Qed.

Import ConditionalAutoencoder.

Lemma cbn_forward_calm c x y :
  respects calm_rel (ConditionalBatchNorm2d.forward c x y).
Proof. unfold ConditionalBatchNorm2d.forward. respects_auto. Qed.

Lemma cond_block_calm b x y :
  respects calm_rel (BasicBlock.conditional_forward b x y).
Proof.
  unfold BasicBlock.conditional_forward. cbn zeta.
  pose proof cbn_forward_calm. respects_auto.
Qed.

Lemma cond_elu_bn_calm b x y :
  respects calm_rel (ELU_BatchNorm2d.conditional_forward b x y).
Proof.
  unfold ELU_BatchNorm2d.conditional_forward. cbn zeta.
  pose proof cbn_forward_calm. respects_auto.
Qed.

Lemma cond_encoder_calm e x y :
  respects calm_rel (ResidualEncoder.conditional_forward e x y).
Proof.
  unfold ResidualEncoder.conditional_forward. cbn zeta.
  pose proof cond_block_calm. pose proof cond_elu_bn_calm. respects_auto.
Qed.

Lemma cond_decoder_calm d x y :
  respects calm_rel (ResidualDecoder.conditional_forward d x y).
Proof.
  unfold ResidualDecoder.conditional_forward. cbn zeta.
  pose proof cond_block_calm. pose proof cond_elu_bn_calm. respects_auto.
Qed.

Lemma cond_forward_calm m x y :
  respects calm_rel (Autoencoder.conditional_forward m x y).
Proof.
  unfold Autoencoder.conditional_forward, ResidualEncoder.forward,
    default_label.
  pose proof cond_encoder_calm. pose proof cond_decoder_calm. respects_auto.
Qed.

End RespectsModels.

(** ** Loops and losses *)

Section Loops.
Context {B : Backend}.

Lemma yields_keep {A} (m : Prog A) w (Q : list Event -> World -> A -> Prop) :
  yields m w Q ->
  yields m w (fun ev w' a => value (m w) = Some a /\ Q ev w' a).
Proof. intros (a & Ha & HQ). exists a. auto. Qed.

Lemma yields_value {A} (m : Prog A) w (Q : list Event -> World -> A -> Prop) :
  yields m w Q ->
  exists a, value (m w) = Some a /\ Q (events (m w)) (final (m w)) a.
Proof. intros H. exact H. Qed.

Lemma for_enumerate_yields {A S} (body : nat -> A -> S -> Prog S)
  (Inv : S -> Prop) (l : list A) :
  forall i acc w,
    Inv acc ->
    (forall j a acc' w', (i <= j)%nat -> In a l -> Inv acc' ->
       yields (body j a acc') w' (fun ev _ acc'' => paths ev = [] /\ Inv acc'')) ->
    yields (for_enumerate i l body acc) w (fun ev _ acc' =>
      paths ev = [] /\ Inv acc').
Proof.
  induction l as [| a l IH]; intros i acc w Hacc Hbody; cbn [for_enumerate].
  - apply yields_ret. auto.
  - apply yields_bind. eapply yields_weaken.
    { apply Hbody; [lia | now left | exact Hacc]. }
    cbn beta. intros ev w' acc' [Hp Hinv].
    eapply yields_weaken.
    { apply IH; [exact Hinv |]. intros j a' acc'' w'' Hj Ha' Hinv'.
      apply Hbody; [lia | now right | exact Hinv']. }
    cbn beta. intros ev' w'' acc'' [Hp' Hinv'].
    rewrite paths_app, Hp, Hp'. auto.
Qed.

Lemma bind_assoc {A C D} (m : Prog A) (f : A -> Prog C) (g : C -> Prog D) w :
  bind (bind m f) g w = bind m (fun a => bind (f a) g) w.
Proof.
  unfold bind. destruct (value (m w)) as [a |]; cbn; [| reflexivity].
  destruct (value (f a (final (m w)))) as [c |]; cbn; [| reflexivity].
  now rewrite app_assoc.
Qed.


Lemma bind_ret_l {A C} (a : A) (f : A -> Prog C) w : bind (ret a) f w = f a w.
Proof. unfold bind, ret. cbn. now destruct (f a w). Qed.




(** *** Losses *)


Lemma sum_nonneg l : Forall (fun v => 0 <= v)%R l -> (0 <= fold_right Rplus 0 l)%R.
Proof.
  induction 1 as [| v l Hv _ IH]; cbn [fold_right]; [apply Rle_refl | lra].
Qed.

Lemma mean_nonneg l :
  l <> [] -> Forall (fun v => 0 <= v)%R l ->
  exists r, mean l = Finite r /\ (0 <= r)%R.
Proof.
  intros Hl Hpos. destruct l as [| v l]; [contradiction |].
  eexists. split; [reflexivity |].
  apply Rmult_le_pos; [apply sum_nonneg, Hpos |].
  left. apply Rinv_0_lt_compat. apply lt_0_INR. cbn. lia.
Qed.

Lemma length_zip_with f l1 l2 :
  length (zip_with f l1 l2) = Nat.min (length l1) (length l2).
Proof. unfold zip_with. now rewrite length_map, length_combine. Qed.

Lemma zip_with_nonneg (P Q : R -> Prop) f l1 l2 :
  (forall a b, P a -> Q b -> 0 <= f a b)%R ->
  Forall P l1 -> Forall Q l2 ->
  Forall (fun v => 0 <= v)%R (zip_with f l1 l2).
Proof.
  intros Hf H1. revert l2. induction H1 as [| a l1 Ha _ IH]; intros l2 H2.
  - constructor.
  - destruct H2 as [| b l2 Hb H2]; [constructor |].
    unfold zip_with. cbn. constructor; [apply Hf; assumption |].
    apply IH, H2.
Qed.


Lemma zip_nonempty f l1 l2 n :
  length l1 = n -> length l2 = n -> n <> O -> zip_with f l1 l2 <> [].
Proof.
  intros H1 H2 Hn E. apply (f_equal (@length R)) in E.
  rewrite length_zip_with, H1, H2, Nat.min_id in E. cbn in E. contradiction.
Qed.


(** Whatever the tensors, the error is defined when the shapes agree. *)
Lemma mse_loss_defined out x :
  shape out = shape x -> exists l, mse_loss out x = Some l.
Proof.
  intros Hs. unfold mse_loss. rewrite (broadcast_op_same_shape _ _ _ Hs).
  cbn. eauto.
Qed.

Lemma clamp_log_nonpos v : (v <= 1)%R -> (clamp_log v <= 0)%R.
Proof.
  intros Hv. unfold clamp_log. destruct (Rle_dec v 0) as [H | H]; [lra |].
  apply Rmax_lub; [| lra].
  destruct (Rle_lt_or_eq_dec v 1 Hv) as [Hlt | ->].
  - rewrite <- ln_1. left. apply ln_increasing; lra.
  - rewrite ln_1. apply Rle_refl.
Qed.

Lemma bce_fn_nonneg x y : in_unit x -> in_unit y -> (0 <= bce_fn x y)%R.
Proof.
  unfold in_unit, bce_fn. intros Hx Hy.
  assert (H1 : (clamp_log x <= 0)%R) by (apply clamp_log_nonpos; lra).
  assert (H2 : (clamp_log (1 - x) <= 0)%R) by (apply clamp_log_nonpos; lra).
  assert (H3 : (y * clamp_log x <= 0)%R).
  { rewrite <- (Rmult_0_r y). apply Rmult_le_compat_l; lra. }
  assert (H4 : ((1 - y) * clamp_log (1 - x) <= 0)%R).
  { rewrite <- (Rmult_0_r (1 - y)). apply Rmult_le_compat_l; lra. }
  lra.
Qed.

Lemma in_unitb_true l : Forall in_unit l -> forallb in_unitb l = true.
Proof.
  intros H. apply forallb_forall. intros v Hv.
  rewrite Forall_forall in H. destruct (H v Hv) as [H0 H1].
  unfold in_unitb. destruct (Rle_dec 0 v); [| contradiction].
  destruct (Rle_dec v 1); [reflexivity | contradiction].
Qed.

Lemma shape_eqb_refl s1 s2 : s1 = s2 -> shape_eqb s1 s2 = true.
Proof.
  intros ->. unfold shape_eqb.
  destruct (list_eq_dec N.eq_dec s2 s2); [reflexivity | contradiction].
Qed.

Lemma bce_nonneg out x n :
  shape out = shape x -> length (data out) = n -> length (data x) = n ->
  n <> O -> Forall in_unit (data out) -> Forall in_unit (data x) ->
  exists l, binary_cross_entropy out x = Some (Finite l) /\ (0 <= l)%R.
Proof.
  intros Hs Ho Hx Hn Uo Ux. unfold binary_cross_entropy.
  rewrite (shape_eqb_refl Hs), (in_unitb_true Uo). cbn [andb].
  destruct (mean_nonneg (l := zip_with bce_fn (data out) (data x)))
    as (l & -> & Hl).
  - eapply zip_nonempty; eassumption.
  - eapply zip_with_nonneg; [| exact Uo | exact Ux].
    intros a b. apply bce_fn_nonneg.
  - eauto.
Qed.

End Loops.

(** ** The batches of the data loaders *)

Section Batches.
Context {B : Backend}.

(** A batch of [n >= 1] CIFAR-10 images with their labels. *)
Definition cifar_batch (b : Batch) : Prop :=
  exists n, shape (fst b) = [n; 3; 32; 32]%N /\ valid_labels (snd b) n /\
            well_formed (fst b) /\ n <> 0%N.


(** A batch of [n >= 1] MNIST images, with pixel values in [0,1]. *)
Definition mnist_batch (b : Batch) : Prop :=
  exists n, shape (fst b) = [n; 1; 28; 28]%N /\ well_formed (fst b) /\
            n <> 0%N /\ Forall in_unit (data (fst b)).

Definition mnist_test_loader (l : list Batch) : Prop :=
  Forall mnist_batch l /\
  exists b rest, l = b :: rest /\ shape (fst b) = [100; 1; 28; 28]%N.


Lemma view_cifar_grid x :
  shape x = [100; 3; 32; 32]%N ->
  view [100; 3; 32; 32]%Z x = Some (mkTensor [100; 3; 32; 32]%N (data x)).
Proof. intros H. unfold view. rewrite H. reflexivity. Qed.

Lemma view_mnist_grid x :
  shape x = [100; 784]%N ->
  view [100; 1; 28; 28]%Z x = Some (mkTensor [100; 1; 28; 28]%N (data x)).
Proof. intros H. unfold view. rewrite H. reflexivity. Qed.

End Batches.

(** The steps of a loop body that only update the state or report. *)
Ltac effect_step :=
  apply yields_bind;
  first [ apply yields_modify | apply yields_gets | apply yields_emit ].


(** The body of [test] on a batch that is not the first. *)
Ltac test_later_proof Hm :=
  let n := fresh "n" in
  let Hs := fresh "Hs" in
  let Hy := fresh "Hy" in
  let Hwf := fresh "Hwf" in
  let Hn := fresh "Hn" in
  let l := fresh "l" in
  let Hl := fresh "Hl" in
  let i := fresh "i" in
  intros [| i] ? (n & Hs & Hy & Hwf & Hn); [lia |];
  unfold set_description; cbn zeta;
  apply yields_bind; eapply yields_weaken; [apply Hm; eassumption |]; take;
  match goal with
  | Hb : shape (fst ?b) = _, Ht : shape ?t = _ |- _ =>
      destruct (mse_loss_defined t (fst b)) as (l & Hl);
      [ congruence | ];
      apply yields_bind; eapply yields_lift; [exact Hl |];
      try (apply yields_bind; apply yields_emit);
      cbn [Nat.eqb]; apply yields_bind, yields_ret, yields_ret; trace_solve
  end.




Section ConvolutionalScript.
Context {B : Backend}.
Import ConvolutionalCifar.


Lemma conv_test_later m folder epoch b acc w :
  conv_autoencoder_ok m -> forall i, (1 <= i)%nat -> cifar_batch b ->
  yields (test_body m folder epoch i b acc) w (fun ev _ _ => paths ev = []).
Proof.
  intros Hm. unfold test_body. test_later_proof Hm.
Qed.






End ConvolutionalScript.

Section ResidualScript.
Context {B : Backend}.
Import ResnetCifar.


Lemma res_test_later m folder epoch b acc w :
  res_autoencoder_ok m -> forall i, (1 <= i)%nat -> cifar_batch b ->
  yields (test_body m folder epoch i b acc) w (fun ev _ _ => paths ev = []).
Proof.
  intros Hm. unfold test_body. test_later_proof Hm.
Qed.






End ResidualScript.

Section ConditionalScript.
Context {B : Backend}.
Import ConditionalAutoencoder.


Lemma cond_test_later m folder epoch b acc w :
  cond_autoencoder_ok m -> forall i, (1 <= i)%nat -> cifar_batch b ->
  yields (test_body m folder epoch i b acc) w (fun ev _ _ => paths ev = []).
Proof.
  intros Hm. unfold test_body. test_later_proof Hm.
Qed.






End ConditionalScript.

Section FeedforwardScript.
Context {B : Backend}.
Import Feedforward.

Lemma flatten_mnist x n w :
  shape x = [n; 1; 28; 28]%N -> n <> 0%N ->
  yields (flatten x) w (fun ev w' t =>
    ev = [] /\ w' = w /\ shape t = [n; 784]%N /\ data t = data x).
Proof.
  intros Hx Hn. unfold flatten, size0. rewrite Hx. cbn [hd_error].
  apply yields_bind. eapply yields_lift; [reflexivity |].
  assert (Hv : view [Z.of_N n; (-1)%Z] x
               = Some (mkTensor [n; 784]%N (data x))).
  { unfold view. rewrite Hx. cbn [filter].
    destruct (Z.eqb_spec (Z.of_N n) (-1)); [lia |].
    change (-1 =? -1)%Z with true. cbn [negb existsb orb].
    destruct (Z.ltb_spec (Z.of_N n) 0); [lia |].
    cbn [length Nat.sub map numel fold_right]. rewrite N2Z.id.
    change (1 * (28 * (28 * 1)))%N with 784%N. rewrite N.mul_1_r.
    destruct (N.eqb_spec n 0); [contradiction |]. cbn [orb].
    rewrite (N.mul_comm n 784), N.Div0.mod_mul. cbn [N.eqb negb].
    rewrite N.div_mul by assumption.
    destruct (Z.eqb_spec (Z.of_N n) (-1)); [lia |]. reflexivity. }
  eapply yields_lift; [exact Hv |]. cbn. auto.
Qed.

Lemma mnist_lengths x n :
  shape x = [n; 1; 28; 28]%N -> well_formed x ->
  length (data x) = N.to_nat n * N.to_nat 784.
Proof.
  unfold well_formed. intros -> ->. cbn [numel fold_right].
  change (1 * (28 * (28 * 1)))%N with 784%N. apply N2Nat.inj_mul.
Qed.


Lemma ff_test_later m folder epoch b acc w :
  ff_arch m -> forall i, (1 <= i)%nat -> mnist_batch b ->
  yields (test_body m folder epoch i b acc) w (fun ev _ _ => paths ev = []).
Proof.
  intros Hm [| i] Hi (n & Hs & Hwf & Hn & Hu); [lia |].
  unfold test_body, set_description.
  apply yields_bind. eapply yields_weaken; [apply flatten_mnist; eassumption |].
  cbn beta. intros ? ? x (-> & -> & Hsx & Hdx).
  apply yields_bind. eapply yields_weaken; [apply ff_forward; eassumption |].
  cbn beta. intros ? ? out (-> & -> & Hso & Hlo & Huo).
  destruct (bce_nonneg out x (n := N.to_nat n * N.to_nat 784))
    as (l & Hl & Hpos);
    [ congruence | assumption
    | rewrite Hdx; now apply mnist_lengths | lia
    | assumption | now rewrite Hdx | ].
  apply yields_bind. eapply yields_lift; [exact Hl |].
  effect_step. cbn [Nat.eqb]. apply yields_bind, yields_ret, yields_ret.
  reflexivity.
Qed.






End FeedforwardScript.

(** ** The evaluation phase and the accumulator *)

Section Phases.
Context {B : Backend}.

(** What is claimed of an evaluation phase [test]: it ends in the state it
    started from, the mode apart (so parameters, buffers, gradients and
    optimizer are untouched); what it writes is what it writes for its
    first batch alone; without a batch it writes nothing. *)
Definition evaluation_phase {M : Type}
  (test : M -> list Batch -> string -> nat -> Prog unit) : Prop :=
  (forall m l folder epoch w,
     final (test m l folder epoch w) = set_training false w) /\
  (forall m b rest folder epoch w,
     paths (events (test m (b :: rest) folder epoch w))
     = paths (events (test m [b] folder epoch w))) /\
  (forall m folder epoch w, paths (events (test m [] folder epoch w)) = []).


Lemma paths_bind_silent {A C} (m : Prog A) (f : A -> Prog C) w :
  (forall a, respects silent_rel (f a)) ->
  paths (events (bind m f w)) = paths (events (m w)).
Proof.
  intros H. unfold bind. destruct (value (m w)) as [a |]; cbn; [| reflexivity].
  rewrite paths_app, (H a (final (m w))). apply app_nil_r.
Qed.

Lemma evaluation_phase_intro {M : Type}
  (body : M -> string -> nat -> nat -> Batch -> LossValue -> Prog LossValue) :
  (forall m folder epoch i b acc,
     respects frozen_rel (body m folder epoch i b acc)) ->
  (forall m folder epoch i b acc, (1 <= i)%nat ->
     respects silent_rel (body m folder epoch i b acc)) ->
  evaluation_phase (fun m l folder epoch =>
    model_eval;;
    for_enumerate 0 l (body m folder epoch) (Finite 0);;
    ret tt).
Proof.
  intros Hf Hs. split; [| split].
  - intros m l folder epoch w. unfold bind at 1. cbn.
    assert (Hk : respects frozen_rel
              (for_enumerate 0 l (body m folder epoch) (Finite 0);; ret tt)).
    { rule respects_bind; [| intros ?; rule respects_ret].
      rule respects_for_enumerate. intros. apply Hf. }
    apply Hk. reflexivity.
  - intros m b rest folder epoch w. unfold bind at 1 3. cbn [value model_eval modify].
    cbn [events final app]. rewrite !paths_app. rewrite !paths_bind_silent
      by (intros ?; rule respects_ret).
    cbn [for_enumerate]. rewrite !paths_bind_silent; [reflexivity | |].
    + intros acc. rule respects_ret.
    + intros acc. rule respects_for_enumerate. intros. now apply Hs.
  - intros m folder epoch w. reflexivity.
Qed.


End Phases.

#[export] Hint Resolve ff_forward_calm conv_forward_calm res_forward_calm
  cond_forward_calm : respects.

Section EvaluationPhases.
Context {B : Backend}.

Lemma ff_test_frozen m folder epoch i b acc :
  respects frozen_rel (Feedforward.test_body m folder epoch i b acc).
Proof.
  unfold Feedforward.test_body, Feedforward.flatten, set_description, save_image.
  respects_auto.
Qed.

Lemma ff_test_silent m folder epoch i b acc :
  (1 <= i)%nat ->
  respects silent_rel (Feedforward.test_body m folder epoch i b acc).
Proof.
  intros Hi. destruct i as [| i]; [lia |].
  unfold Feedforward.test_body, Feedforward.flatten, set_description.
  cbn [Nat.eqb]. respects_auto.
Qed.

Lemma conv_test_frozen m folder epoch i b acc :
  respects frozen_rel (ConvolutionalCifar.test_body m folder epoch i b acc).
Proof.
  unfold ConvolutionalCifar.test_body, save_image. cbn zeta. respects_auto.
Qed.

Lemma conv_test_silent m folder epoch i b acc :
  (1 <= i)%nat ->
  respects silent_rel (ConvolutionalCifar.test_body m folder epoch i b acc).
Proof.
  intros Hi. destruct i as [| i]; [lia |].
  unfold ConvolutionalCifar.test_body. cbn zeta. cbn [Nat.eqb]. respects_auto.
Qed.

Lemma res_test_frozen m folder epoch i b acc :
  respects frozen_rel (ResnetCifar.test_body m folder epoch i b acc).
Proof.
  unfold ResnetCifar.test_body, set_description, save_image. cbn zeta.
  respects_auto.
Qed.

Lemma res_test_silent m folder epoch i b acc :
  (1 <= i)%nat ->
  respects silent_rel (ResnetCifar.test_body m folder epoch i b acc).
Proof.
  intros Hi. destruct i as [| i]; [lia |].
  unfold ResnetCifar.test_body, set_description. cbn zeta. cbn [Nat.eqb].
  respects_auto.
Qed.

Lemma cond_test_frozen m folder epoch i b acc :
  respects frozen_rel (ConditionalAutoencoder.test_body m folder epoch i b acc).
Proof.
  unfold ConditionalAutoencoder.test_body, set_description, save_image.
  cbn zeta. respects_auto.
Qed.

Lemma cond_test_silent m folder epoch i b acc :
  (1 <= i)%nat ->
  respects silent_rel
    (ConditionalAutoencoder.test_body m folder epoch i b acc).
Proof.
  intros Hi. destruct i as [| i]; [lia |].
  unfold ConditionalAutoencoder.test_body, set_description. cbn zeta.
  cbn [Nat.eqb]. respects_auto.
Qed.

End EvaluationPhases.

(** ** The initial scale and shift of a conditional normalisation *)

Section ConditionalInit.
Context {B : Backend}.
Import ConditionalAutoencoder.




Lemma length_heap_write h r v : length (heap_write h r v) = length h.
Proof.
  revert r. induction h as [| c h IH]; intros r; [reflexivity |].
  destruct r; cbn; [reflexivity | now rewrite IH].
Qed.




End ConditionalInit.

(** ** A backend to run the programs on *)

(** The simplest backend.  The generator counts the values it has drawn and
    returns the lower bound of a uniform draw and the mean of a normal one;
    the kernels return zero everywhere; differentiation leaves the gradients
    and the optimizer leaves the parameters as they are. *)
Definition zero_backend : Backend := {|
  Generator := nat;
  uniform_ := fun lo _ n g => (repeat lo n, (g + n)%nat);
  normal_ := fun mean _ n g => (repeat mean n, (g + n)%nat);
  conv2d_data := fun _ _ _ _ _ _ => 0%R;
  conv_transpose2d_data := fun _ _ _ _ _ _ _ => 0%R;
  batch_norm_data := fun _ _ _ _ _ _ _ => 0%R;
  batch_norm_stats := fun rm rv _ => (rm, rv);
  backward := fun _ _ g => g;
  OptimizerState := unit;
  Adam := tt;
  adam_step := fun o h _ => (h, o)
|}.

(** The state of a process that has just started: nothing allocated, the
    modules in training mode, no directory on disk. *)
Definition fresh_world : @World zero_backend :=
  @mkWorld zero_backend [] 0%nat true [] tt [].

(** One batch of 100 black CIFAR-10 images of class 0, and one of MNIST. *)
Definition cifar_zeros : Batch := (zeros [100; 3; 32; 32]%N, long_zeros 100).
Definition mnist_zeros : Batch := (zeros [100; 1; 28; 28]%N, long_zeros 100).

(** Loaders for a run: no training batch, one test batch. *)
Definition no_batches : DataLoader := fun _ => [].
Definition mnist_loader : DataLoader := fun _ => [mnist_zeros].

Section ReferenceFacts.
#[local] Existing Instance zero_backend.


Lemma well_formed_zeros s : well_formed (zeros s).
Proof. unfold well_formed, zeros. cbn [data shape]. apply repeat_length. Qed.

Lemma cifar_zeros_batch : cifar_batch cifar_zeros.
Proof.
  exists 100%N. split; [reflexivity |]. split; [apply valid_long_zeros |].
  split; [apply well_formed_zeros | discriminate].
Qed.

Lemma mnist_zeros_batch : mnist_batch mnist_zeros.
Proof.
  exists 100%N. split; [reflexivity |]. split; [apply well_formed_zeros |].
  split; [discriminate |].
  apply Forall_forall. intros v Hv. apply repeat_spec in Hv. subst.
  unfold in_unit. lra.
Qed.


Lemma mnist_loader_ok epoch :
  Forall mnist_batch (no_batches epoch) /\ mnist_test_loader (mnist_loader epoch).
Proof.
  split; [constructor |]. split.
  - repeat constructor. apply mnist_zeros_batch.
  - exists mnist_zeros, []. split; reflexivity.
Qed.

End ReferenceFacts.

(** * The claims *)

Section Claims.
Context {B : Backend}.

Lemma default_label_bind {A} x n rest (k : LongTensor -> Prog A) w :
  shape x = n :: rest ->
  bind (ConditionalAutoencoder.default_label x) k w = k (long_zeros n) w.
Proof.
  intros Hx. unfold ConditionalAutoencoder.default_label, size0.
  rewrite Hx. cbn [hd_error]. rewrite bind_assoc.
  change (lift (Some n)) with (@ret B N n). now rewrite !bind_ret_l.
Qed.


(** C2. Each class of the conditional script that has a [conditional_forward]
    (the blocks that wrap the conditional normalisation, [BasicBlock] and
    [ELU_BatchNorm2d], and [ResidualEncoder], [ResidualDecoder],
    [Autoencoder]) runs its [forward] on a batch [x] of [n] items exactly as
    its [conditional_forward] on [x] and the all-zero label tensor of length
    [n]: same trace, same final state, same result (the same tensor or the
    same exception). *)
Theorem forward_is_conditional_forward_at_zero :
  (forall self n rest d w,
     ConditionalAutoencoder.BasicBlock.forward self (mkTensor (n :: rest) d) w
     = ConditionalAutoencoder.BasicBlock.conditional_forward self
         (mkTensor (n :: rest) d) (long_zeros n) w) /\
  (forall self n rest d w,
     ConditionalAutoencoder.ELU_BatchNorm2d.forward self
       (mkTensor (n :: rest) d) w
     = ConditionalAutoencoder.ELU_BatchNorm2d.conditional_forward self
         (mkTensor (n :: rest) d) (long_zeros n) w) /\
  (forall self n rest d w,
     ConditionalAutoencoder.ResidualEncoder.forward self
       (mkTensor (n :: rest) d) w
     = ConditionalAutoencoder.ResidualEncoder.conditional_forward self
         (mkTensor (n :: rest) d) (long_zeros n) w) /\
  (forall self n rest d w,
     ConditionalAutoencoder.ResidualDecoder.forward self
       (mkTensor (n :: rest) d) w
     = ConditionalAutoencoder.ResidualDecoder.conditional_forward self
         (mkTensor (n :: rest) d) (long_zeros n) w) /\
  (forall self n rest d w,
     ConditionalAutoencoder.Autoencoder.forward self (mkTensor (n :: rest) d) w
     = ConditionalAutoencoder.Autoencoder.conditional_forward self
         (mkTensor (n :: rest) d) (long_zeros n) w).
Proof.
  repeat split; intros self n rest d w;
    [ unfold ConditionalAutoencoder.BasicBlock.forward
    | unfold ConditionalAutoencoder.ELU_BatchNorm2d.forward
    | unfold ConditionalAutoencoder.ResidualEncoder.forward
    | unfold ConditionalAutoencoder.ResidualDecoder.forward
    | unfold ConditionalAutoencoder.Autoencoder.forward ];
    apply default_label_bind with (rest := rest); reflexivity.
Qed.


(** C5. A batch of 100 all-zero MNIST images of 1 x 28 x 28 pixels, flattened
    by [data.view(data.size(0), -1)] as [train] and [test] flatten every batch
    before they call the model, goes through a freshly built feedforward
    [Autoencoder] and comes out as a tensor of shape (100, 784) that holds
    78400 elements, each one in the closed interval [0,1]. *)
Theorem feedforward_end_to_end :
  constructs Feedforward.Autoencoder.__init__ (fun m =>
    forall w,
      yields (x <- Feedforward.flatten (zeros [100; 1; 28; 28]%N);;
              Feedforward.Autoencoder.forward m x) w
        (fun _ _ t =>
           shape t = [100; 784]%N /\
           N.of_nat (length (data t)) = 78400%N /\
           Forall in_unit (data t))).
Proof.
  eapply constructs_weaken; [apply ff_init |]. intros m Hm w.
  apply yields_bind. eapply yields_weaken.
  { apply flatten_mnist with (n := 100%N); [reflexivity | discriminate]. }
  cbn beta. intros ? ? x (-> & -> & Hsx & _).
  eapply yields_weaken; [apply ff_forward; eassumption |].
  cbn beta. intros ev w' t (_ & _ & Hs & Hl & Hu).
  split; [exact Hs |]. split; [| exact Hu].
  rewrite Hl, Nat2N.inj_mul, !N2Nat.id. reflexivity.
Qed.

(** The same batch handed to the model as it is, not flattened, makes the
    first linear layer raise: its last dimension is 28, not 784. *)
Lemma feedforward_unflattened_raises (m : Feedforward.Autoencoder.t) d w :
  in_features (Feedforward.Encoder.fc1 (Feedforward.Autoencoder.encoder m))
    = 784%N ->
  value (Feedforward.Autoencoder.forward m
           (mkTensor [100; 1; 28; 28]%N d) w) = None.
Proof.
  intros H. unfold Feedforward.Autoencoder.forward, Feedforward.Encoder.forward,
    fmap, Linear_forward, F_linear.
  cbn [shape rev app]. rewrite H. reflexivity.
Qed.

(** C8. In each of the four scripts the evaluation phase [test] ends in the
    state it started from, with the modules put in evaluation mode and
    nothing else changed: the parameters and buffers, their gradients and
    the state of the optimizer are what they were.  The files it writes are
    those it writes when the loader yields its first batch alone; no later
    batch writes a file, and without any batch nothing is written.  This
    holds of every model, loader, folder and epoch, also when a call
    raises. *)
Theorem evaluation_phase_frame :
  evaluation_phase Feedforward.test /\
  evaluation_phase ConvolutionalCifar.test /\
  evaluation_phase ResnetCifar.test /\
  evaluation_phase ConditionalAutoencoder.test.
Proof.
  split; [| split; [| split]].
  - exact (evaluation_phase_intro Feedforward.test_body
             ff_test_frozen ff_test_silent).
  - exact (evaluation_phase_intro ConvolutionalCifar.test_body
             conv_test_frozen conv_test_silent).
  - exact (evaluation_phase_intro ResnetCifar.test_body
             res_test_frozen res_test_silent).
  - exact (evaluation_phase_intro ConditionalAutoencoder.test_body
             cond_test_frozen cond_test_silent).
Qed.

End Claims.

Section Names.







End Names.

Section Bottleneck.
Context {B : Backend}.


End Bottleneck.

Section ResidualClaim.
Context {B : Backend}.
Import ResnetCifar.




End ResidualClaim.


Section InitialisationClaim.
Context {B : Backend}.
Import ConditionalAutoencoder.


End InitialisationClaim.


Section AccumulatorClaim.
Context {B : Backend}.




End AccumulatorClaim.


Section FilesClaim.
Context {B : Backend}.


End FilesClaim.





Section LabelsClaim.
Context {B : Backend}.
Import ConditionalAutoencoder.

(** C1. [Autoencoder.conditional_forward(x, y)] of a freshly built
    conditional model, on a batch [x] of [n] images of 3 x 32 x 32 elements
    and a tensor [y] of [n] labels below 10, calls the encoder through its
    [forward]: the twelve conditional normalisation layers of the encoder
    look up the all-zero default label, in this order before the twelve of
    the decoder, which look up [y].  So [y] reaches the normalisation
    layers of the decoder only. *)
Theorem conditional_forward_labels :
  constructs Autoencoder.__init__ (fun m =>
    forall n d y w, valid_labels y n ->
      yields (Autoencoder.conditional_forward m (mkTensor [n; 3; 32; 32]%N d) y) w
        (fun ev _ _ => labels ev = repeat (long_zeros n) 12 ++ repeat y 12) /\
      yields (ResidualEncoder.forward (Autoencoder.encoder m)
                (mkTensor [n; 3; 32; 32]%N d)) w
        (fun ev w' h =>
           labels ev = repeat (long_zeros n) 12 /\
           yields (ResidualDecoder.conditional_forward
                     (Autoencoder.decoder m) h y) w'
             (fun ev' _ _ => labels ev' = repeat y 12))).
Proof.
  eapply constructs_weaken; [apply cond_autoencoder_parts |].
  intros m [He Hd] n d y w Hy. split.
  - eapply yields_weaken;
      [apply (@cond_autoencoder_of_parts _ m He Hd); [reflexivity | exact Hy] |].
    cbn beta. intros ev w' t (_ & Hl & _). exact Hl.
  - eapply yields_weaken; [apply cond_encoder_forward; [exact He | reflexivity] |].
    cbn beta. intros ev w' h (_ & Hl & Hs). split; [exact Hl |].
    eapply yields_weaken; [apply Hd; [exact Hs | exact Hy] |].
    cbn beta. intros ev' w'' t (_ & Hl' & _). exact Hl'.
Qed.

End LabelsClaim.

(** C1 on a model built in a fresh process, one black image and label 1. *)
Lemma conditional_forward_labels_witness :
  exists m,
    value (@ConditionalAutoencoder.Autoencoder.__init__ zero_backend fresh_world)
      = Some m /\
    yields (ConditionalAutoencoder.Autoencoder.conditional_forward m
              (mkTensor [1; 3; 32; 32]%N (data (zeros [1; 3; 32; 32]%N)))
              [1%N]) fresh_world
      (fun ev _ _ => labels ev = repeat (long_zeros 1) 12 ++ repeat [1%N] 12).
Proof.
  destruct (@conditional_forward_labels zero_backend fresh_world)
    as (m & Hm & _ & Hok).
  exists m. split; [exact Hm |].
  apply (Hok 1%N (data (zeros [1; 3; 32; 32]%N)) [1%N] fresh_world).
  split; reflexivity.
Defined.

(** A model built in a fresh process and called with one black image and
    label 1: the first twelve lookups receive label 0, the default, so not
    every normalisation layer receives the label that was supplied. *)
Lemma encoder_layers_receive_default_label :
  labels (events ((m <- ConditionalAutoencoder.Autoencoder.__init__;;
                   ConditionalAutoencoder.Autoencoder.conditional_forward m
                     (zeros [1; 3; 32; 32]%N) [1%N]) fresh_world))
  = repeat [0%N] 12 ++ repeat [1%N] 12 /\
  ~ Forall (eq [1%N])
      (labels (events ((m <- ConditionalAutoencoder.Autoencoder.__init__;;
                        ConditionalAutoencoder.Autoencoder.conditional_forward m
                          (zeros [1; 3; 32; 32]%N) [1%N]) fresh_world))).
Proof.
  assert (H : yields (m <- ConditionalAutoencoder.Autoencoder.__init__;;
                      ConditionalAutoencoder.Autoencoder.conditional_forward m
                        (zeros [1; 3; 32; 32]%N) [1%N]) fresh_world
                (fun ev _ _ => labels ev = repeat [0%N] 12 ++ repeat [1%N] 12)).
  { apply yields_bind.
    eapply yields_weaken; [apply (@cond_autoencoder_init zero_backend) |].
    cbn beta. intros ev w' m [-> Hm].
    eapply yields_weaken; [apply Hm; [reflexivity | split; reflexivity] |].
    cbn beta. intros ev' w'' t (_ & Hl & _). cbn [app]. exact Hl. }
  destruct H as (t & _ & Hl). rewrite Hl. split; [reflexivity |].
  intros HF. vm_compute in HF. apply Forall_inv in HF. discriminate HF.
Qed.

(** * Part III: further properties of the scripts *)

(** ** Runs that raise *)

Section Raises.
Context {B : Backend}.

(** [raises m w Q]: run from the state [w], the program [m] raises, and [Q]
    holds of the trace it leaves and of the state in which it stops. *)
Definition raises {A : Type} (m : Prog A) (w : World)
  (Q : list Event -> World -> Prop) : Prop :=
  value (m w) = None /\ Q (events (m w)) (final (m w)).

Lemma raises_raise {A} w (Q : list Event -> World -> Prop) :
  Q [] w -> raises (@raise _ A) w Q.
Proof. intros H. split; [reflexivity | exact H]. Qed.

Lemma raises_lift {A} (o : option A) w (Q : list Event -> World -> Prop) :
  o = None -> Q [] w -> raises (lift o) w Q.
Proof. intros -> H. split; [reflexivity | exact H]. Qed.

Lemma raises_bind_l {A C} (m : Prog A) (f : A -> Prog C) w
  (Q : list Event -> World -> Prop) :
  raises m w Q -> raises (bind m f) w Q.
Proof. intros [Hv HQ]. unfold raises, bind. rewrite Hv. cbn. auto. Qed.

Lemma raises_bind_r {A C} (m : Prog A) (f : A -> Prog C) w
  (Q : list Event -> World -> Prop) :
  yields m w (fun ev w' a =>
    raises (f a) w' (fun ev' w'' => Q (ev ++ ev') w'')) ->
  raises (bind m f) w Q.
Proof.
  intros (a & Ha & Hv & HQ). unfold raises, bind. rewrite Ha. cbn. auto.
Qed.

Lemma raises_weaken {A} (m : Prog A) w (Q Q' : list Event -> World -> Prop) :
  raises m w Q -> (forall ev w', Q ev w' -> Q' ev w') -> raises m w Q'.
Proof. intros [Hv HQ] H. split; auto. Qed.



End Raises.

(** ** Value ranges of the activations *)

Section Ranges.
Context {B : Backend}.


Definition nonneg (v : R) : Prop := (0 <= v)%R.



Lemma relu_nonneg x : Forall nonneg (data (relu x)).
Proof.
  unfold relu, map_tensor. cbn [data]. apply Forall_forall.
  intros v Hv. apply in_map_iff in Hv as (u & <- & _). apply Rmax_l.
Qed.

End Ranges.

(** ** The classes of the earlier residual architecture *)

Section OldResidualClasses.
Context {B : Backend}.
Import ResnetCifar.

Definition old_encoder_ok (bottleneck : N) (e : ResidualEncoderOld.t) : Prop :=
  forall x n w, shape x = [n; 3; 32; 32]%N ->
    yields (ResidualEncoderOld.forward e x) w (fun ev _ t =>
      ev = [] /\ shape t = [n; bottleneck; 1; 1]%N).




Lemma old_encoder_init bottleneck :
  constructs (ResidualEncoderOld.__init__ bottleneck) (old_encoder_ok bottleneck).
Proof.
  unfold ResidualEncoderOld.__init__. cbn zeta.
  construct_with Conv2d_init_behaves.
  construct_with ELU_BatchNorm2d_init_maps.
  do 4 (construct_with BasicBlock_init_maps;
        construct_with ELU_BatchNorm2d_init_maps;
        construct_with Conv2d_init_behaves).
  apply constructs_ret. intros x n w Hx.
  unfold ResidualEncoderOld.forward.
  cbn [ResidualEncoderOld.encoder forward].
  do 17 member_call. apply yields_ret. cbn. auto.
Qed.


(** X1. [ResidualEncoderOld(bottleneck)] turns a batch of [n] images of
    3 x 32 x 32 elements into a code of shape [n; bottleneck; 1; 1]: in
    this class, unlike in [Autoencoder], the argument decides the width of
    the code.  The pass leaves no trace. *)
Theorem old_encoder_code_shape :
  forall bottleneck,
    constructs (ResnetCifar.ResidualEncoderOld.__init__ bottleneck) (fun e =>
      forall n d w,
        yields (ResnetCifar.ResidualEncoderOld.forward e
                  (mkTensor [n; 3; 32; 32]%N d)) w
          (fun ev _ t => ev = [] /\ shape t = [n; bottleneck; 1; 1]%N)).
Proof.
  intros bottleneck.
  eapply constructs_weaken; [apply old_encoder_init |].
  intros e He n d w. now apply He.
Qed.



End OldResidualClasses.


(** ** What a program can return *)

Section ReturnsIn.
Context {B : Backend}.

(** [returns_in P m]: whatever the state, a value that [m] returns
    satisfies [P]. *)
Definition returns_in {A : Type} (P : A -> Prop) (m : Prog A) : Prop :=
  forall w a, value (m w) = Some a -> P a.

Lemma returns_in_ret {A} (P : A -> Prop) a : P a -> returns_in P (ret a).
Proof. intros H w a' [= <-]. exact H. Qed.

Lemma returns_in_bind_with {A C} (P' : A -> Prop) (P : C -> Prop)
  (m : Prog A) (f : A -> Prog C) :
  returns_in P' m -> (forall a, P' a -> returns_in P (f a)) ->
  returns_in P (bind m f).
Proof.
  intros Hm Hf w c. unfold bind.
  destruct (value (m w)) as [a |] eqn:E; cbn; [| discriminate].
  apply (Hf a (Hm w a E)).
Qed.

Lemma returns_in_bind {A C} (P : C -> Prop) (m : Prog A) (f : A -> Prog C) :
  (forall a, returns_in P (f a)) -> returns_in P (bind m f).
Proof.
  intros Hf. apply returns_in_bind_with with (P' := fun _ => True).
  - intros w a _. exact I.
  - intros a _. apply Hf.
Qed.

Lemma returns_in_fmap {A C} (P : C -> Prop) (g : A -> C) (m : Prog A) :
  (forall a, P (g a)) -> returns_in P (fmap g m).
Proof.
  intros H. unfold fmap. apply returns_in_bind. intros a.
  apply returns_in_ret, H.
Qed.

Lemma yields_returns_in {A} (m : Prog A) w (P : A -> Prop)
  (Q : list Event -> World -> A -> Prop) :
  yields m w Q -> returns_in P m ->
  yields m w (fun ev w' a => Q ev w' a /\ P a).
Proof. intros (a & Ha & HQ) HP. exists a. eauto. Qed.


End ReturnsIn.

(** ** Codes and reconstructions *)

Section ValueRanges.
Context {B : Backend}.


Definition nonnegative (t : tensor) : Prop := Forall nonneg (data t).

Lemma ff_encoder_nonneg e x :
  returns_in nonnegative (Feedforward.Encoder.forward e x).
Proof.
  unfold Feedforward.Encoder.forward.
  do 3 (apply returns_in_bind; intros ?).
  apply returns_in_bind_with with (P' := nonnegative).
  - apply returns_in_fmap. intros ?. apply relu_nonneg.
  - intros ? Ha. now apply returns_in_ret.
Qed.

Lemma conv_encoder_nonneg e x :
  returns_in nonnegative (ConvolutionalCifar.Encoder.forward e x).
Proof.
  unfold ConvolutionalCifar.Encoder.forward.
  do 3 (apply returns_in_bind; intros ?).
  apply returns_in_bind_with with (P' := nonnegative).
  - apply returns_in_fmap. intros ?. apply relu_nonneg.
  - intros ? Ha. now apply returns_in_ret.
Qed.








(** X4. The code of the feedforward encoder on a batch of [n] vectors of
    784 elements has shape [n; 64]; the code of the convolutional encoder
    on a batch of [n] images of 3 x 32 x 32 elements has shape
    [n; 64; 1; 1].  Both end in a rectifier, so no element of a code is
    negative.  Neither pass leaves a trace or changes the state. *)
Theorem relu_codes :
  constructs Feedforward.Encoder.__init__ (fun e =>
    forall n d w,
      yields (Feedforward.Encoder.forward e (mkTensor [n; 784]%N d)) w
        (fun ev w' t =>
           ev = [] /\ w' = w /\ shape t = [n; 64]%N /\ nonnegative t)) /\
  constructs ConvolutionalCifar.Encoder.__init__ (fun e =>
    forall n d w,
      yields (ConvolutionalCifar.Encoder.forward e
                (mkTensor [n; 3; 32; 32]%N d)) w
        (fun ev w' t =>
           ev = [] /\ w' = w /\ shape t = [n; 64; 1; 1]%N /\ nonnegative t)).
Proof.
  split.
  - eapply constructs_weaken; [apply ff_encoder_init |].
    intros e He n d w.
    eapply yields_weaken.
    { apply yields_returns_in;
        [apply ff_encoder_forward; [exact He | reflexivity]
        | apply ff_encoder_nonneg]. }
    cbn beta. intros ev w' t ((-> & -> & Hs) & Hn). auto.
  - eapply constructs_weaken; [apply conv_encoder_init |].
    intros e He n d w.
    eapply yields_weaken.
    { apply yields_returns_in;
        [apply He; reflexivity | apply conv_encoder_nonneg]. }
    cbn beta. intros ev w' t ((-> & -> & Hs) & Hn). auto.
Qed.

(** X5. In the residual script the encoder turns a batch of [n] images of
    3 x 32 x 32 elements into a code of shape [n; 256; 1; 1], whatever
    bottleneck the model was built for.  In the conditional script the
    encoder of a freshly built model, called through its [forward], returns
    a code of shape [n; 1024; 1; 1]: of the four lists [filters] that
    [Autoencoder.__init__] assigns in turn, the last one decides. *)
Theorem residual_codes :
  (forall bottleneck,
     constructs (ResnetCifar.Autoencoder.__init__ bottleneck) (fun m =>
       forall n d w,
         yields (ResnetCifar.ResidualEncoder.forward
                   (ResnetCifar.Autoencoder.encoder m)
                   (mkTensor [n; 3; 32; 32]%N d)) w
           (fun ev _ t => ev = [] /\ shape t = [n; 256; 1; 1]%N))) /\
  constructs ConditionalAutoencoder.Autoencoder.__init__ (fun m =>
    forall n d w,
      yields (ConditionalAutoencoder.ResidualEncoder.forward
                (ConditionalAutoencoder.Autoencoder.encoder m)
                (mkTensor [n; 3; 32; 32]%N d)) w
        (fun ev _ t => paths ev = [] /\ shape t = [n; 1024; 1; 1]%N)).
Proof.
  split.
  - intros bottleneck. unfold ResnetCifar.Autoencoder.__init__.
    construct_with res_encoder_init. construct_with res_decoder_init.
    apply constructs_ret. cbn [ResnetCifar.Autoencoder.encoder].
    intros n d w.
    match goal with He : res_encoder_ok _ |- _ => apply He; reflexivity end.
  - eapply constructs_weaken; [apply cond_autoencoder_parts |].
    intros m [He _] n d w.
    eapply yields_weaken; [apply cond_encoder_forward; [exact He | reflexivity] |].
    cbn beta. intros ev w' t (Hp & _ & Hs). auto.
Qed.

(** X6. The feedforward model maps every batch of [n] vectors of 784
    elements, whatever their values, to a batch of the same shape with
    every element in [0, 1] (the last layer is a sigmoid), without leaving
    a trace or changing the state: its output is always an admissible
    first argument of the binary cross-entropy. *)
Theorem feedforward_output_in_unit_interval :
  constructs Feedforward.Autoencoder.__init__ (fun m =>
    forall n d w,
      yields (Feedforward.Autoencoder.forward m (mkTensor [n; 784]%N d)) w
        (fun ev w' t =>
           ev = [] /\ w' = w /\ shape t = [n; 784]%N /\
           Forall in_unit (data t))).
Proof.
  eapply constructs_weaken; [apply ff_init |].
  intros m Hm n d w.
  eapply yields_weaken; [apply ff_forward; [exact Hm | reflexivity] |].
  cbn beta. intros ev w' t (-> & -> & Hs & _ & Hu). auto.
Qed.


End ValueRanges.


(** ** Inputs that a model rejects *)

Section Rejections.
Context {B : Backend}.

Lemma Conv2d_init_spec i o k s p has_bias :
  constructs (Conv2d_init i o k s p has_bias)
    (fun c => in_channels c = i /\ conv2d_behaves c i o k s p).
Proof.
  unfold Conv2d_init. do 2 construct_skip.
  destruct has_bias.
  - eapply constructs_bind with (P := fun _ => True).
    + do 2 construct_skip. apply constructs_ret. exact I.
    + intros r _. apply constructs_ret.
      split; [reflexivity | apply Conv2d_forward_behaves].
  - eapply constructs_bind with (P := fun _ => True).
    + apply constructs_ret. exact I.
    + intros r _. apply constructs_ret.
      split; [reflexivity | apply Conv2d_forward_behaves].
Qed.

(** A convolution raises on a batch with another number of channels than
    it was declared for, before it reads a parameter. *)
Lemma Conv2d_wrong_channels c x n ch h wd w :
  shape x = [n; ch; h; wd] -> ch <> in_channels c ->
  raises (Conv2d_forward c x) w (fun ev w' => ev = [] /\ w' = w).
Proof.
  intros Hx Hc. unfold Conv2d_forward. rewrite Hx.
  destruct (N.eqb_spec ch (in_channels c)); [contradiction |].
  apply raises_raise. auto.
Qed.

(** A linear layer raises on a tensor whose last dimension is not its
    number of input features. *)
Lemma Linear_wrong_width l front last d w :
  last <> in_features l ->
  raises (Linear_forward l (mkTensor (front ++ [last]) d)) w
    (fun ev w' => ev = [] /\ w' = w).
Proof.
  intros Hl. unfold Linear_forward.
  apply raises_bind_r, yields_load, raises_bind_r, yields_load.
  apply raises_lift; [| auto].
  unfold F_linear. cbn [shape]. rewrite rev_unit.
  destruct (N.eqb_spec last (in_features l)); [contradiction | reflexivity].
Qed.

Lemma conv_entry :
  constructs ConvolutionalCifar.Autoencoder.__init__ (fun m =>
    in_channels (ConvolutionalCifar.Encoder.conv1
                   (ConvolutionalCifar.Autoencoder.encoder m)) = 3%N).
Proof.
  unfold ConvolutionalCifar.Autoencoder.__init__.
  eapply constructs_bind
    with (P := fun e => in_channels (ConvolutionalCifar.Encoder.conv1 e) = 3%N).
  - unfold ConvolutionalCifar.Encoder.__init__.
    construct_with Conv2d_init_spec.
    do 3 construct_with Conv2d_init_behaves.
    apply constructs_ret. cbn. tauto.
  - intros e He. construct_with conv_decoder_init.
    apply constructs_ret. exact He.
Qed.

Definition res_entry (m : ResnetCifar.Autoencoder.t) : Prop :=
  exists c rest,
    ResnetCifar.ResidualEncoder.encoder (ResnetCifar.Autoencoder.encoder m)
    = ResnetCifar.Sequential (ResnetCifar.Conv2d_ c :: rest) /\
    in_channels c = 3%N.

Lemma res_entry_init bottleneck :
  constructs (ResnetCifar.Autoencoder.__init__ bottleneck) res_entry.
Proof.
  unfold ResnetCifar.Autoencoder.__init__.
  eapply constructs_bind
    with (P := fun e => exists c rest,
                 ResnetCifar.ResidualEncoder.encoder e
                 = ResnetCifar.Sequential (ResnetCifar.Conv2d_ c :: rest) /\
                 in_channels c = 3%N).
  - unfold ResnetCifar.ResidualEncoder.__init__. cbn zeta.
    construct_with Conv2d_init_spec.
    do 4 (construct_with BiggerBlock_init_maps;
          construct_with ELU_BatchNorm2d_init_maps;
          construct_with Conv2d_init_behaves).
    apply constructs_ret. do 2 eexists. split; [reflexivity | tauto].
  - intros e He. construct_with res_decoder_init.
    apply constructs_ret. exact He.
Qed.

Lemma cond_entry :
  constructs ConditionalAutoencoder.Autoencoder.__init__ (fun m =>
    in_channels (ConditionalAutoencoder.ResidualEncoder.conv5
                   (ConditionalAutoencoder.Autoencoder.encoder m)) = 3%N).
Proof.
  unfold ConditionalAutoencoder.Autoencoder.__init__. cbn zeta.
  eapply constructs_bind
    with (P := fun e =>
                 in_channels (ConditionalAutoencoder.ResidualEncoder.conv5 e)
                 = 3%N).
  - unfold ConditionalAutoencoder.ResidualEncoder.__init__.
    construct_item. construct_with Conv2d_init_spec.
    construct_nz cond_block_init. construct_nz cond_elu_bn_init.
    do 3 (construct_item; construct_with Conv2d_init_behaves;
          construct_nz cond_block_init; construct_nz cond_elu_bn_init).
    construct_item. construct_with Conv2d_init_behaves.
    apply constructs_ret. cbn. tauto.
  - intros e He. construct_with cond_decoder_init.
    apply constructs_ret. exact He.
Qed.

(** X8. A freshly built model raises on a batch of the wrong width, in its
    first layer, before any parameter is read or any state changed: the
    feedforward model on a tensor whose last dimension is not 784, the
    convolutional, the residual and the conditional model on a batch of
    images whose number of channels is not 3 (the conditional model
    whatever the labels). *)
Theorem wrong_width_raises :
  constructs Feedforward.Autoencoder.__init__ (fun m =>
    forall front last d w, last <> 784%N ->
      raises (Feedforward.Autoencoder.forward m
                (mkTensor (front ++ [last]) d)) w
        (fun ev w' => ev = [] /\ w' = w)) /\
  constructs ConvolutionalCifar.Autoencoder.__init__ (fun m =>
    forall n c h wd d w, c <> 3%N ->
      raises (ConvolutionalCifar.Autoencoder.forward m
                (mkTensor [n; c; h; wd] d)) w
        (fun ev w' => ev = [] /\ w' = w)) /\
  (forall bottleneck,
     constructs (ResnetCifar.Autoencoder.__init__ bottleneck) (fun m =>
       forall n c h wd d w, c <> 3%N ->
         raises (ResnetCifar.Autoencoder.forward m
                   (mkTensor [n; c; h; wd] d)) w
           (fun ev w' => ev = [] /\ w' = w))) /\
  constructs ConditionalAutoencoder.Autoencoder.__init__ (fun m =>
    forall n c h wd d y w, c <> 3%N ->
      raises (ConditionalAutoencoder.Autoencoder.conditional_forward m
                (mkTensor [n; c; h; wd] d) y) w
        (fun ev w' => ev = [] /\ w' = w)).
Proof.
  split; [| split; [| split]].
  - eapply constructs_weaken; [apply ff_init |].
    intros m [[[Hin _] _] _] front last d w Hl.
    unfold Feedforward.Autoencoder.forward, Feedforward.Encoder.forward, fmap.
    do 3 apply raises_bind_l. apply Linear_wrong_width. now rewrite Hin.
  - eapply constructs_weaken; [apply conv_entry |].
    intros m Hin n c h wd d w Hc.
    unfold ConvolutionalCifar.Autoencoder.forward,
      ConvolutionalCifar.Encoder.forward, fmap.
    do 3 apply raises_bind_l.
    eapply Conv2d_wrong_channels; [reflexivity | now rewrite Hin].
  - intros bottleneck.
    eapply constructs_weaken; [apply res_entry_init |].
    intros m (c0 & rest & Henc & Hin) n c h wd d w Hc.
    unfold ResnetCifar.Autoencoder.forward, ResnetCifar.ResidualEncoder.forward.
    rewrite Henc. cbn [ResnetCifar.forward].
    do 2 apply raises_bind_l.
    eapply Conv2d_wrong_channels; [reflexivity | now rewrite Hin].
  - eapply constructs_weaken; [apply cond_entry |].
    intros m Hin n c h wd d y w Hc.
    unfold ConditionalAutoencoder.Autoencoder.conditional_forward,
      ConditionalAutoencoder.ResidualEncoder.forward.
    apply raises_bind_l, raises_bind_r.
    eapply yields_default_label; [reflexivity |].
    unfold ConditionalAutoencoder.ResidualEncoder.conditional_forward.
    apply raises_bind_l.
    eapply Conv2d_wrong_channels; [reflexivity | now rewrite Hin].
Qed.

End Rejections.

(** X8 on a convolutional model built in a fresh process and a batch of
    one hundred MNIST-sized images of one channel. *)
Lemma wrong_width_raises_witness :
  exists m,
    value (@ConvolutionalCifar.Autoencoder.__init__ zero_backend fresh_world)
      = Some m /\
    raises (ConvolutionalCifar.Autoencoder.forward m
              (mkTensor [100; 1; 28; 28]%N (data (zeros [100; 1; 28; 28]%N))))
      fresh_world (fun ev w' => ev = [] /\ w' = fresh_world).
Proof.
  destruct (proj1 (proj2 (@wrong_width_raises zero_backend)) fresh_world)
    as (m & Hm & _ & Hrej).
  exists m. split; [exact Hm |].
  apply (Hrej 100%N 1%N 28%N 28%N (data (zeros [100; 1; 28; 28]%N)) fresh_world).
  discriminate.
Defined.

(** ** Labels outside the classes *)

Section LabelRange.
Context {B : Backend}.
Import ConditionalAutoencoder.

(** A label tensor with an entry that is not below [classes]. *)
Definition out_of_range (classes : N) (y : LongTensor) : Prop :=
  exists i, In i y /\ (classes <= i)%N.

Lemma out_of_range_forallb classes y :
  out_of_range classes y -> forallb (fun i => (i <? classes)%N) y = false.
Proof.
  intros (i & Hi & Hc).
  destruct (forallb (fun i => (i <? classes)%N) y) eqn:E; [| reflexivity].
  rewrite forallb_forall in E. specialize (E i Hi).
  apply N.ltb_lt in E. lia.
Qed.

(** The lookup is recorded, then refused. *)
Definition embedding_rejects (e : Embedding) (num : N) : Prop :=
  forall y w, out_of_range num y ->
    raises (Embedding_forward e y) w (fun ev w' =>
      labels ev = [y] /\ paths ev = [] /\ w' = w).

Lemma Embedding_init_rejects num dim :
  constructs (Embedding_init num dim) (fun e => embedding_rejects e num).
Proof.
  unfold Embedding_init. do 2 construct_skip. apply constructs_ret.
  intros y w Hy. unfold Embedding_forward.
  cbn [emb_weight num_embeddings embedding_dim].
  apply raises_bind_r, yields_emit, raises_bind_r, yields_load.
  rewrite (out_of_range_forallb Hy). apply raises_raise. cbn. auto.
Qed.

Definition cbn_rejects (c : ConditionalBatchNorm2d.t) (f classes : N) : Prop :=
  forall x y n h wd w,
    shape x = [n; f; h; wd] -> out_of_range classes y ->
    raises (ConditionalBatchNorm2d.forward c x y) w (fun ev w' =>
      labels ev = [y] /\ paths ev = [] /\ (training w = false -> w' = w)).

Lemma cbn_init_rejects f classes :
  constructs (ConditionalBatchNorm2d.__init__ f classes)
    (fun c => cbn_rejects c f classes).
Proof.
  unfold ConditionalBatchNorm2d.__init__.
  construct_with BatchNorm2d_init_behaves.
  construct_with Embedding_init_rejects. cbn zeta.
  construct_skip.
  construct_with constructs_load. construct_with constructs_store.
  construct_with constructs_load. construct_with constructs_store.
  apply constructs_ret. intros x y n h wd w Hx Hy.
  match goal with
  | Hbn : batch_norm2d_behaves ?bn _, Hemb : embedding_rejects ?e _ |- _ =>
      assert (Hr : raises (ConditionalBatchNorm2d.forward
                             (ConditionalBatchNorm2d.mk f bn e) x y) w
                     (fun ev _ => labels ev = [y] /\ paths ev = []))
  end.
  { unfold ConditionalBatchNorm2d.forward.
    cbn [ConditionalBatchNorm2d.bn ConditionalBatchNorm2d.embed].
    apply raises_bind_r. eapply yields_weaken; [eauto |].
    cbn beta. intros ? w1 out (-> & Hout).
    apply raises_bind_l. eapply raises_weaken; [eauto |].
    cbn beta. intros ev w' (Hl & Hp & _). cbn [app]. auto. }
  destruct Hr as (Hv & Hl & Hp). split; [exact Hv |].
  split; [exact Hl |]. split; [exact Hp |].
  apply (proj2 (cbn_forward_calm _ x y w)).
Qed.

Definition cond_elu_bn_rejects (b : ELU_BatchNorm2d.t) (f : N) : Prop :=
  forall x y n h wd w,
    shape x = [n; f; h; wd] -> out_of_range 10 y ->
    raises (ELU_BatchNorm2d.conditional_forward b x y) w (fun ev _ =>
      labels ev = [y] /\ paths ev = []).

Lemma cond_elu_bn_init_rejects f :
  constructs (ELU_BatchNorm2d.__init__ f) (fun b => cond_elu_bn_rejects b f).
Proof.
  unfold ELU_BatchNorm2d.__init__. construct_with cbn_init_rejects.
  apply constructs_ret. intros x y n h wd w Hx Hy.
  unfold ELU_BatchNorm2d.conditional_forward. cbn [ELU_BatchNorm2d.bn].
  cbn zeta. apply raises_bind_l.
  eapply raises_weaken;
    [ match goal with H : cbn_rejects _ _ _ |- _ => eapply H end;
      [cbn [shape elu map_tensor]; eassumption | exact Hy] |].
  cbn beta. intros ev w' (Hl & Hp & _). auto.
Qed.

(** The decoder of the conditional model refuses a label that is not below
    10 at its first normalisation, after its first transposed convolution. *)
Definition cond_decoder_rejects (d : ResidualDecoder.t) : Prop :=
  forall x y n w,
    shape x = [n; 1024; 1; 1]%N -> out_of_range 10 y ->
    raises (ResidualDecoder.conditional_forward d x y) w (fun ev _ =>
      labels ev = [y] /\ paths ev = []).

Lemma cond_decoder_init_rejects :
  constructs (ResidualDecoder.__init__ cond_filters) cond_decoder_rejects.
Proof.
  unfold ResidualDecoder.__init__.
  construct_item. construct_item.
  construct_with ConvTranspose2d_init_behaves.
  construct_with cond_elu_bn_init_rejects. construct_nz cond_block_init.
  do 3 (construct_item; construct_with ConvTranspose2d_init_behaves;
        construct_nz cond_elu_bn_init; construct_nz cond_block_init).
  construct_with Conv2d_init_behaves.
  apply constructs_ret. intros x y n w Hx Hy.
  unfold ResidualDecoder.conditional_forward.
  cbn [ResidualDecoder.conv1 ResidualDecoder.eb1]. cbn zeta.
  apply raises_bind_r. eapply yields_weaken.
  { match goal with
    | H : conv_transpose2d_behaves ?c _ _ _ _ _ _
      |- yields (ConvTranspose2d_forward ?c _) _ _ => eapply H
    end; [eassumption | lazy; reflexivity ..]. }
  cbn beta. intros ? w1 t (-> & -> & Ht & _).
  apply raises_bind_l.
  eapply raises_weaken;
    [ match goal with H : cond_elu_bn_rejects _ _ |- _ => eapply H end;
      [eassumption | exact Hy] |].
  cbn beta. intros ev w' Hev. exact Hev.
Qed.


(** X10. [Autoencoder.conditional_forward(x, y)] of a freshly built
    conditional model raises when [y] holds a label that is not below 10.
    The encoder has run by then, on the default label, and the decoder
    stops at its first normalisation: the trace shows the twelve lookups of
    the encoder and one lookup of [y], and no file is written. *)
Theorem conditional_forward_rejects_label :
  constructs ConditionalAutoencoder.Autoencoder.__init__ (fun m =>
    forall n d y w, out_of_range 10 y ->
      raises (ConditionalAutoencoder.Autoencoder.conditional_forward m
                (mkTensor [n; 3; 32; 32]%N d) y) w
        (fun ev _ =>
           labels ev = repeat (long_zeros n) 12 ++ [y] /\ paths ev = [])).
Proof.
  eapply constructs_weaken.
  { unfold Autoencoder.__init__. cbn zeta.
    eapply constructs_bind; [apply cond_encoder_init |].
    cbn beta. intros e He.
    eapply constructs_bind; [apply cond_decoder_init_rejects |].
    cbn beta. intros dec Hd.
    apply constructs_ret with
      (P := fun m => cond_encoder_ok (Autoencoder.encoder m) /\
                     cond_decoder_rejects (Autoencoder.decoder m)).
    split; assumption. }
  cbn beta. intros m [He Hd] n d y w Hy.
  unfold Autoencoder.conditional_forward.
  apply raises_bind_r. eapply yields_weaken.
  { apply cond_encoder_forward; [exact He | reflexivity]. }
  cbn beta. intros ev w1 h (Hp & Hl & Hs).
  apply raises_bind_l.
  eapply raises_weaken; [exact (Hd h y n w1 Hs Hy) |].
  cbn beta. intros ev' w' (Hl' & Hp').
  rewrite labels_app, paths_app, Hl, Hp, Hl', Hp'. auto.
Qed.

End LabelRange.


(** X10 on a model built in a fresh process, one black image and the
    label 10. *)
Lemma conditional_forward_rejects_label_witness :
  exists m,
    value (@ConditionalAutoencoder.Autoencoder.__init__ zero_backend fresh_world)
      = Some m /\
    raises (ConditionalAutoencoder.Autoencoder.conditional_forward m
              (mkTensor [1; 3; 32; 32]%N (data (zeros [1; 3; 32; 32]%N)))
              [10%N]) fresh_world
      (fun ev _ =>
         labels ev = repeat (long_zeros 1) 12 ++ [[10%N]] /\ paths ev = []).
Proof.
  destruct (@conditional_forward_rejects_label zero_backend fresh_world)
    as (m & Hm & _ & Hrej).
  exists m. split; [exact Hm |].
  apply (Hrej 1%N (data (zeros [1; 3; 32; 32]%N)) [10%N] fresh_world).
  exists 10%N. split; [now left | lia].
Defined.

(** ** The grid of one hundred images *)

Section GridSize.
Context {B : Backend}.

(** [t.view(100, 3, 32, 32)] raises unless [t] holds one hundred images. *)
Lemma view_cifar_grid_fails x n :
  shape x = [n; 3; 32; 32]%N -> n <> 100%N ->
  view [100; 3; 32; 32]%Z x = None.
Proof.
  intros H Hn. unfold view. rewrite H.
  replace (numel [n; 3; 32; 32]%N) with (n * 3072)%N
    by (cbn [numel fold_right]; lia).
  cbv zeta.
  change (filter (fun z => negb (z =? -1)%Z) [100; 3; 32; 32]%Z)
    with [100; 3; 32; 32]%Z.
  change (existsb (fun z => (z <? 0)%Z) [100; 3; 32; 32]%Z) with false.
  change (length [100; 3; 32; 32]%Z - length [100; 3; 32; 32]%Z)%nat with O.
  change (numel (map Z.to_N [100; 3; 32; 32]%Z)) with 307200%N.
  destruct (N.eqb_spec 307200 (n * 3072)); [lia | reflexivity].
Qed.

Lemma view_mnist_grid_fails x n :
  shape x = [n; 784]%N -> n <> 100%N ->
  view [100; 1; 28; 28]%Z x = None.
Proof.
  intros H Hn. unfold view. rewrite H.
  replace (numel [n; 784]%N) with (n * 784)%N
    by (cbn [numel fold_right]; lia).
  cbv zeta.
  change (filter (fun z => negb (z =? -1)%Z) [100; 1; 28; 28]%Z)
    with [100; 1; 28; 28]%Z.
  change (existsb (fun z => (z <? 0)%Z) [100; 1; 28; 28]%Z) with false.
  change (length [100; 1; 28; 28]%Z - length [100; 1; 28; 28]%Z)%nat with O.
  change (numel (map Z.to_N [100; 1; 28; 28]%Z)) with 78400%N.
  destruct (N.eqb_spec 78400 (n * 784)); [lia | reflexivity].
Qed.

End GridSize.

(** The body of [test] on a first batch that does not hold one hundred
    images: the loss is computed, then the reshaping of the output raises. *)
Ltac test_raises_proof Hm :=
  let l := fresh "l" in
  let Hl := fresh "Hl" in
  unfold set_description; cbn zeta;
  apply raises_bind_r; eapply yields_weaken; [apply Hm; eassumption |]; take;
  match goal with
  | Hb : shape (fst ?b) = _, Ht : shape ?t = _ |- _ =>
      destruct (mse_loss_defined t (fst b)) as (l & Hl);
      [ congruence | ];
      apply raises_bind_r; eapply yields_lift; [exact Hl |];
      try (apply raises_bind_r; apply yields_emit);
      cbn [Nat.eqb]; apply raises_bind_l, raises_bind_l;
      apply raises_lift;
      [ eapply view_cifar_grid_fails; eassumption | trace_solve ]
  end.

Ltac test_loop_raises :=
  apply raises_bind_r, yields_modify; apply raises_bind_l;
  cbn [for_enumerate]; apply raises_bind_l.

Section GridSizeScripts.
Context {B : Backend}.

Lemma conv_test_raises m folder epoch b acc n w :
  conv_autoencoder_ok m -> shape (fst b) = [n; 3; 32; 32]%N -> n <> 100%N ->
  raises (ConvolutionalCifar.test_body m folder epoch 0 b acc) w
    (fun ev _ => paths ev = []).
Proof.
  intros Hm Hs Hn. unfold ConvolutionalCifar.test_body. test_raises_proof Hm.
Qed.

Lemma res_test_raises m folder epoch b acc n w :
  res_autoencoder_ok m -> shape (fst b) = [n; 3; 32; 32]%N -> n <> 100%N ->
  raises (ResnetCifar.test_body m folder epoch 0 b acc) w
    (fun ev _ => paths ev = []).
Proof.
  intros Hm Hs Hn. unfold ResnetCifar.test_body. test_raises_proof Hm.
Qed.

Lemma cond_test_raises m folder epoch b acc n w :
  cond_autoencoder_ok m -> shape (fst b) = [n; 3; 32; 32]%N ->
  valid_labels (snd b) n -> n <> 100%N ->
  raises (ConditionalAutoencoder.test_body m folder epoch 0 b acc) w
    (fun ev _ => paths ev = []).
Proof.
  intros Hm Hs Hy Hn. unfold ConditionalAutoencoder.test_body.
  test_raises_proof Hm.
Qed.

Lemma ff_test_raises m folder epoch b acc n w :
  ff_arch m -> mnist_batch b -> shape (fst b) = [n; 1; 28; 28]%N ->
  n <> 100%N ->
  raises (Feedforward.test_body m folder epoch 0 b acc) w
    (fun ev _ => paths ev = []).
Proof.
  intros Hm (n' & Hs & Hwf & Hn0 & Hu) Hsn Hn.
  assert (n' = n) by congruence. subst n'.
  unfold Feedforward.test_body, set_description.
  apply raises_bind_r. eapply yields_weaken; [apply flatten_mnist; eassumption |].
  cbn beta. intros ? ? x (-> & -> & Hsx & Hdx).
  apply raises_bind_r. eapply yields_weaken; [apply ff_forward; eassumption |].
  cbn beta. intros ? ? out (-> & -> & Hso & Hlo & Huo).
  destruct (bce_nonneg out x (n := N.to_nat n * N.to_nat 784))
    as (l & Hl & Hpos);
    [ congruence | assumption
    | rewrite Hdx; now apply mnist_lengths | lia
    | assumption | now rewrite Hdx | ].
  apply raises_bind_r. eapply yields_lift; [exact Hl |].
  apply raises_bind_r, yields_emit.
  cbn [Nat.eqb]. apply raises_bind_l, raises_bind_l.
  apply raises_lift; [eapply view_mnist_grid_fails; eassumption | reflexivity].
Qed.

(** X11. The evaluation phase reshapes the output of the first batch to
    one hundred images.  When the first batch of the test loader holds
    another number of images, [test] of every script raises at that point,
    after the loss of the batch has been computed, and no file has been
    written: the scripts only work with a test batch size of 100. *)
Theorem test_needs_one_hundred_images :
  constructs Feedforward.Autoencoder.__init__ (fun m =>
    forall b rest folder epoch n w,
      mnist_batch b -> shape (fst b) = [n; 1; 28; 28]%N -> n <> 100%N ->
      raises (Feedforward.test m (b :: rest) folder epoch) w
        (fun ev _ => paths ev = [])) /\
  constructs ConvolutionalCifar.Autoencoder.__init__ (fun m =>
    forall b rest folder epoch n w,
      shape (fst b) = [n; 3; 32; 32]%N -> n <> 100%N ->
      raises (ConvolutionalCifar.test m (b :: rest) folder epoch) w
        (fun ev _ => paths ev = [])) /\
  (forall bottleneck,
     constructs (ResnetCifar.Autoencoder.__init__ bottleneck) (fun m =>
       forall b rest folder epoch n w,
         shape (fst b) = [n; 3; 32; 32]%N -> n <> 100%N ->
         raises (ResnetCifar.test m (b :: rest) folder epoch) w
           (fun ev _ => paths ev = []))) /\
  constructs ConditionalAutoencoder.Autoencoder.__init__ (fun m =>
    forall b rest folder epoch n w,
      shape (fst b) = [n; 3; 32; 32]%N -> valid_labels (snd b) n ->
      n <> 100%N ->
      raises (ConditionalAutoencoder.test m (b :: rest) folder epoch) w
        (fun ev _ => paths ev = [])).
Proof.
  split; [| split; [| split]].
  - eapply constructs_weaken; [apply ff_init |].
    intros m Hm b rest folder epoch n w Hb Hs Hn.
    unfold Feedforward.test, model_eval. test_loop_raises.
    now apply ff_test_raises with (n := n).
  - eapply constructs_weaken; [apply conv_autoencoder_init |].
    intros m Hm b rest folder epoch n w Hs Hn.
    unfold ConvolutionalCifar.test, model_eval. test_loop_raises.
    now apply conv_test_raises with (n := n).
  - intros bottleneck.
    eapply constructs_weaken; [apply res_autoencoder_init |].
    intros m Hm b rest folder epoch n w Hs Hn.
    unfold ResnetCifar.test, model_eval. test_loop_raises.
    now apply res_test_raises with (n := n).
  - eapply constructs_weaken; [apply cond_autoencoder_init |].
    intros m Hm b rest folder epoch n w Hs Hy Hn.
    unfold ConditionalAutoencoder.test, model_eval. test_loop_raises.
    now apply cond_test_raises with (n := n).
Qed.

End GridSizeScripts.

(** X11 on the convolutional script, with a first test batch of fifty
    black images. *)
Lemma test_needs_one_hundred_images_witness :
  exists m,
    value (@ConvolutionalCifar.Autoencoder.__init__ zero_backend fresh_world)
      = Some m /\
    raises (ConvolutionalCifar.test m
              [(zeros [50; 3; 32; 32]%N, long_zeros 50)]
              "convolutional_cifar" 1) fresh_world
      (fun ev _ => paths ev = []).
Proof.
  destruct (proj1 (proj2 (@test_needs_one_hundred_images zero_backend))
              fresh_world) as (m & Hm & _ & Hr).
  exists m. split; [exact Hm |].
  apply (Hr (zeros [50; 3; 32; 32]%N, long_zeros 50) []
            "convolutional_cifar"%string 1%nat 50%N fresh_world).
  - reflexivity.
  - discriminate.
Defined.

(** ** What a forward pass touches *)

Section Footprint.
Context {B : Backend}.

(** Everything in the state but the contents of the parameter store. *)
Definition same_but_store (w w' : World) : Prop :=
  rng w' = rng w /\ training w' = training w /\ grad w' = grad w /\
  optimizer w' = optimizer w /\ dirs w' = dirs w /\
  length (heap w') = length (heap w).

(** The run leaves only events that satisfy [P] and changes nothing but the
    contents of the parameter store. *)
Definition footprint_rel (P : Event -> Prop)
  (w : World) (ev : list Event) (w' : World) : Prop :=
  Forall P ev /\ same_but_store w w'.

(** The run leaves no event and changes nothing. *)
Definition pure_rel (w : World) (ev : list Event) (w' : World) : Prop :=
  ev = [] /\ w' = w.

Definition is_lookup (e : Event) : Prop :=
  match e with EmbeddingLookup _ _ => True | _ => False end.

Definition no_event (e : Event) : Prop := False.

#[export] Instance footprint_comp P : Compositional (footprint_rel P).
Proof.
  split; unfold footprint_rel, same_but_store.
  - intros w. repeat split; constructor.
  - intros w ev w' ev' w'' [F1 (A1 & A2 & A3 & A4 & A5 & A6)]
      [F2 (C1 & C2 & C3 & C4 & C5 & C6)].
    split; [apply Forall_app; auto |]. repeat split; congruence.
Qed.

#[export] Instance pure_comp : Compositional pure_rel.
Proof.
  split; unfold pure_rel.
  - intros w. split; reflexivity.
  - intros w ev w' ev' w'' [-> ->] [-> ->]. split; reflexivity.
Qed.

Lemma respects_for_each (R : World -> list Event -> World -> Prop)
  {C : Compositional R} {A} (l : list A) (body : A -> Prog unit) :
  (forall a, respects R (body a)) -> respects R (for_each l body).
Proof.
  intros H. induction l as [| a l IH]; cbn [for_each].
  - rule respects_ret.
  - rule respects_bind; [apply H | intros _; exact IH].
Qed.

End Footprint.

Create HintDb effects.

(** Programs made of calls that respect a relation respect it; [solve_rel]
    proves the relation of one event or of one update of the state. *)
Ltac respects_step solve_rel :=
  match goal with
  | |- respects _ (ret _) => rule respects_ret
  | |- respects _ (@raise _ _) => rule respects_raise
  | |- respects _ (lift _) => rule respects_lift
  | |- respects _ (gets _) => rule respects_gets
  | |- respects _ (load _) => rule respects_load
  | |- respects _ (load_opt _) => rule respects_load_opt
  | |- respects _ (for_each _ _) => rule respects_for_each; intros ?
  | |- respects _ (for_enumerate _ _ _ _) =>
      rule respects_for_enumerate; intros ? ? ? ?
  | |- respects _ (emit _) => rule respects_emit; [intros ?; solve_rel]
  | |- respects _ (modify _) => rule respects_modify; [intros ?; solve_rel]
  | |- respects _ (fmap _ _) => rule respects_fmap
  | |- respects _ (bind _ _) => rule respects_bind; [| intros ?; cbv beta]
  | |- respects _ (match ?s with _ => _ end) => destruct s
  | |- respects _ _ => solve [auto with effects]
  end.

Ltac solve_footprint :=
  unfold footprint_rel, same_but_store; cbn;
  rewrite ?length_heap_write; repeat split; repeat constructor; auto.

Ltac solve_pure := unfold pure_rel; auto.

Section LayerFootprints.
Context {B : Backend}.

(** Layers that only read their parameters respect every relation that
    holds of the empty run. *)
Section AnyRelation.
Variable R : World -> list Event -> World -> Prop.
Context {C : Compositional R}.

Lemma Linear_forward_respects l x : respects R (Linear_forward l x).
Proof. unfold Linear_forward. repeat respects_step fail. Qed.

Lemma Conv2d_forward_respects c x : respects R (Conv2d_forward c x).
Proof. unfold Conv2d_forward. repeat respects_step fail. Qed.

Lemma ConvTranspose2d_forward_respects c x :
  respects R (ConvTranspose2d_forward c x).
Proof. unfold ConvTranspose2d_forward. repeat respects_step fail. Qed.

Lemma ff_forward_respects m x :
  respects R (Feedforward.Autoencoder.forward m x).
Proof.
  pose proof Linear_forward_respects.
  unfold Feedforward.Autoencoder.forward, Feedforward.Encoder.forward,
    Feedforward.Decoder.forward.
  repeat respects_step fail.
Qed.

Lemma conv_forward_respects m x :
  respects R (ConvolutionalCifar.Autoencoder.forward m x).
Proof.
  pose proof Conv2d_forward_respects.
  pose proof ConvTranspose2d_forward_respects.
  unfold ConvolutionalCifar.Autoencoder.forward,
    ConvolutionalCifar.Encoder.forward, ConvolutionalCifar.Decoder.forward.
  repeat respects_step fail.
Qed.

(** The other models respect what their normalisations and their lookups
    respect. *)
Hypothesis Hbn : forall b x, respects R (BatchNorm2d_forward b x).

Lemma res_module_respects :
  forall m x, respects R (ResnetCifar.forward m x).
Proof.
  fix IH 1. intros m x. destruct m; cbn [ResnetCifar.forward].
  - apply Conv2d_forward_respects.
  - apply ConvTranspose2d_forward_respects.
  - apply Hbn.
  - rule respects_ret.
  - rule respects_ret.
  - rule respects_ret.
  - revert x. induction members as [| m' ms IHms]; intros x.
    + rule respects_ret.
    + rule respects_bind; [apply IH | exact IHms].
  - rule respects_bind; [apply IH | intros r; rule respects_lift].
  - apply IH.
  - rule respects_bind; [apply IH | intros r; rule respects_lift].
Qed.

Lemma res_forward_respects m x :
  respects R (ResnetCifar.Autoencoder.forward m x).
Proof.
  unfold ResnetCifar.Autoencoder.forward, ResnetCifar.ResidualEncoder.forward,
    ResnetCifar.ResidualDecoder.forward.
  rule respects_bind; [apply res_module_respects | intros ?].
  rule respects_bind; [apply res_module_respects | intros ?].
  rule respects_ret.
Qed.

Hypothesis Hemb : forall e y, respects R (Embedding_forward e y).

Import ConditionalAutoencoder.

Lemma cbn_forward_respects c x y :
  respects R (ConditionalBatchNorm2d.forward c x y).
Proof.
  unfold ConditionalBatchNorm2d.forward. repeat respects_step fail.
Qed.

Lemma cond_block_respects b x y :
  respects R (BasicBlock.conditional_forward b x y).
Proof.
  pose proof Conv2d_forward_respects. pose proof cbn_forward_respects.
  unfold BasicBlock.conditional_forward. cbn zeta. repeat respects_step fail.
Qed.

Lemma cond_elu_bn_respects b x y :
  respects R (ELU_BatchNorm2d.conditional_forward b x y).
Proof.
  pose proof cbn_forward_respects.
  unfold ELU_BatchNorm2d.conditional_forward. cbn zeta.
  repeat respects_step fail.
Qed.

Lemma cond_forward_respects m x y :
  respects R (Autoencoder.conditional_forward m x y).
Proof.
  pose proof Conv2d_forward_respects.
  pose proof ConvTranspose2d_forward_respects.
  pose proof cond_block_respects. pose proof cond_elu_bn_respects.
  unfold Autoencoder.conditional_forward, ResidualEncoder.forward,
    default_label, ResidualEncoder.conditional_forward,
    ResidualDecoder.conditional_forward.
  cbn zeta. repeat respects_step fail.
Qed.

End AnyRelation.

Lemma BatchNorm2d_forward_footprint P b x :
  respects (footprint_rel P) (BatchNorm2d_forward b x).
Proof.
  unfold BatchNorm2d_forward, store. repeat respects_step solve_footprint.
Qed.

Lemma Embedding_forward_footprint e y :
  respects (footprint_rel is_lookup) (Embedding_forward e y).
Proof.
  unfold Embedding_forward. repeat respects_step solve_footprint.
Qed.

(** X12. What a forward pass touches, whatever the model, the input and
    the mode, and also when the pass raises.  The feedforward and the
    convolutional model leave no trace and change no state at all.  The
    residual model leaves no trace and the conditional model only the
    record of its embedding lookups; both change nothing but the contents
    of the parameter store (the running statistics of their
    normalisations): the random generator, the mode, the gradients, the
    state of the optimizer and the directories are as before, and no
    parameter is added or removed. *)
Theorem forward_footprint :
  (forall m x, respects pure_rel (Feedforward.Autoencoder.forward m x)) /\
  (forall m x, respects pure_rel (ConvolutionalCifar.Autoencoder.forward m x)) /\
  (forall m x,
     respects (footprint_rel no_event) (ResnetCifar.Autoencoder.forward m x)) /\
  (forall m x y,
     respects (footprint_rel is_lookup)
       (ConditionalAutoencoder.Autoencoder.conditional_forward m x y)).
Proof.
  split; [| split; [| split]].
  - intros m x. rule ff_forward_respects.
  - intros m x. rule conv_forward_respects.
  - intros m x. rule res_forward_respects.
    apply BatchNorm2d_forward_footprint.
  - intros m x y. rule cond_forward_respects.
    + apply BatchNorm2d_forward_footprint.
    + apply Embedding_forward_footprint.
Qed.

End LayerFootprints.

(** ** The output directory *)

Section Directories.
Context {B : Backend}.

(** The directories created in a trace, in order. *)
Definition made (ev : list Event) : list string :=
  flat_map (fun e => match e with MakeDirs p => [p] | _ => [] end) ev.

Lemma made_app a b : made (a ++ b) = made a ++ made b.
Proof. apply flat_map_app. Qed.

(** No directory is created and the set of directories is unchanged. *)
Definition keeps_dirs_rel (w : World) (ev : list Event) (w' : World) : Prop :=
  made ev = [] /\ dirs w' = dirs w.

#[export] Instance keeps_dirs_comp : Compositional keeps_dirs_rel.
Proof.
  split; unfold keeps_dirs_rel.
  - intros w. split; reflexivity.
  - intros w ev w' ev' w'' [M1 D1] [M2 D2]. split.
    + rewrite made_app, M1, M2. reflexivity.
    + congruence.
Qed.

End Directories.

Ltac solve_keeps_dirs := unfold keeps_dirs_rel; cbn; auto.

Ltac keeps_dirs :=
  unfold draw_uniform, draw_normal, new_parameter, store, zero_grad,
    loss_backward, optimizer_step, set_description, save_image,
    save_state_dict, print, model_train, model_eval, Adam_init;
  cbn zeta; repeat respects_step solve_keeps_dirs.

Section DirectoriesOfLayers.
Context {B : Backend}.

Lemma Linear_init_keeps_dirs i o : respects keeps_dirs_rel (Linear_init i o).
Proof. unfold Linear_init. keeps_dirs. Qed.

Lemma Conv2d_init_keeps_dirs i o k s p hb :
  respects keeps_dirs_rel (Conv2d_init i o k s p hb).
Proof. unfold Conv2d_init. keeps_dirs. Qed.

Lemma ConvTranspose2d_init_keeps_dirs i o k s p op :
  respects keeps_dirs_rel (ConvTranspose2d_init i o k s p op).
Proof. unfold ConvTranspose2d_init. keeps_dirs. Qed.

Lemma BatchNorm2d_init_keeps_dirs f affine :
  respects keeps_dirs_rel (BatchNorm2d_init f affine).
Proof. unfold BatchNorm2d_init. keeps_dirs. Qed.

Lemma Embedding_init_keeps_dirs n d :
  respects keeps_dirs_rel (Embedding_init n d).
Proof. unfold Embedding_init. keeps_dirs. Qed.

Lemma BatchNorm2d_forward_keeps_dirs b x :
  respects keeps_dirs_rel (BatchNorm2d_forward b x).
Proof. unfold BatchNorm2d_forward. keeps_dirs. Qed.

Lemma Embedding_forward_keeps_dirs e y :
  respects keeps_dirs_rel (Embedding_forward e y).
Proof. unfold Embedding_forward. keeps_dirs. Qed.

End DirectoriesOfLayers.

#[export] Hint Resolve Linear_init_keeps_dirs Conv2d_init_keeps_dirs
  ConvTranspose2d_init_keeps_dirs BatchNorm2d_init_keeps_dirs
  Embedding_init_keeps_dirs BatchNorm2d_forward_keeps_dirs
  Embedding_forward_keeps_dirs : effects.

Section DirectoriesOfClasses.
Context {B : Backend}.

Lemma ff_init_keeps_dirs :
  respects keeps_dirs_rel Feedforward.Autoencoder.__init__.
Proof.
  unfold Feedforward.Autoencoder.__init__, Feedforward.Encoder.__init__,
    Feedforward.Decoder.__init__.
  keeps_dirs.
Qed.

Lemma conv_init_keeps_dirs :
  respects keeps_dirs_rel ConvolutionalCifar.Autoencoder.__init__.
Proof.
  unfold ConvolutionalCifar.Autoencoder.__init__,
    ConvolutionalCifar.Encoder.__init__, ConvolutionalCifar.Decoder.__init__.
  keeps_dirs.
Qed.

Lemma res_block_init_keeps_dirs f :
  respects keeps_dirs_rel (ResnetCifar.BasicBlock_init f).
Proof. unfold ResnetCifar.BasicBlock_init. keeps_dirs. Qed.

Lemma res_elu_bn_init_keeps_dirs f :
  respects keeps_dirs_rel (ResnetCifar.ELU_BatchNorm2d_init f).
Proof. unfold ResnetCifar.ELU_BatchNorm2d_init. keeps_dirs. Qed.

Lemma res_bigger_init_keeps_dirs f :
  respects keeps_dirs_rel (ResnetCifar.BiggerBlock_init f).
Proof.
  pose proof res_block_init_keeps_dirs.
  unfold ResnetCifar.BiggerBlock_init. keeps_dirs.
Qed.

Lemma res_init_keeps_dirs bottleneck :
  respects keeps_dirs_rel (ResnetCifar.Autoencoder.__init__ bottleneck).
Proof.
  pose proof res_elu_bn_init_keeps_dirs.
  pose proof res_bigger_init_keeps_dirs.
  unfold ResnetCifar.Autoencoder.__init__, ResnetCifar.ResidualEncoder.__init__,
    ResnetCifar.ResidualDecoder.__init__.
  keeps_dirs.
Qed.

Lemma cbn_init_keeps_dirs f classes :
  respects keeps_dirs_rel
    (ConditionalAutoencoder.ConditionalBatchNorm2d.__init__ f classes).
Proof.
  unfold ConditionalAutoencoder.ConditionalBatchNorm2d.__init__. keeps_dirs.
Qed.

Lemma cond_block_init_keeps_dirs f :
  respects keeps_dirs_rel (ConditionalAutoencoder.BasicBlock.__init__ f).
Proof.
  pose proof cbn_init_keeps_dirs.
  unfold ConditionalAutoencoder.BasicBlock.__init__. keeps_dirs.
Qed.

Lemma cond_elu_bn_init_keeps_dirs f :
  respects keeps_dirs_rel (ConditionalAutoencoder.ELU_BatchNorm2d.__init__ f).
Proof.
  pose proof cbn_init_keeps_dirs.
  unfold ConditionalAutoencoder.ELU_BatchNorm2d.__init__. keeps_dirs.
Qed.

Lemma cond_encoder_init_keeps_dirs filters :
  respects keeps_dirs_rel
    (ConditionalAutoencoder.ResidualEncoder.__init__ filters).
Proof.
  pose proof cond_block_init_keeps_dirs.
  pose proof cond_elu_bn_init_keeps_dirs.
  unfold ConditionalAutoencoder.ResidualEncoder.__init__,
    ConditionalAutoencoder.item.
  keeps_dirs.
Qed.

Lemma cond_decoder_init_keeps_dirs filters :
  respects keeps_dirs_rel
    (ConditionalAutoencoder.ResidualDecoder.__init__ filters).
Proof.
  pose proof cond_block_init_keeps_dirs.
  pose proof cond_elu_bn_init_keeps_dirs.
  unfold ConditionalAutoencoder.ResidualDecoder.__init__,
    ConditionalAutoencoder.item.
  keeps_dirs.
Qed.

Lemma cond_init_keeps_dirs :
  respects keeps_dirs_rel ConditionalAutoencoder.Autoencoder.__init__.
Proof.
  pose proof cond_encoder_init_keeps_dirs.
  pose proof cond_decoder_init_keeps_dirs.
  unfold ConditionalAutoencoder.Autoencoder.__init__. keeps_dirs.
Qed.

End DirectoriesOfClasses.

Section DirectoriesOfScripts.
Context {B : Backend}.

(** [main] up to the existence test: what follows creates no directory. *)
Lemma ensure_folder_then folder (rest : Prog unit) w :
  respects keeps_dirs_rel rest ->
  made (events ((ensure_folder folder;; rest) w))
  = (if existsb (String.eqb folder) (dirs w) then [] else [folder]) /\
  dirs (final ((ensure_folder folder;; rest) w))
  = (if existsb (String.eqb folder) (dirs w) then dirs w
     else folder :: dirs w).
Proof.
  intros Hr. unfold ensure_folder, bind, gets, ret, emit, modify.
  cbn -[made existsb].
  destruct (existsb (String.eqb folder) (dirs w)); cbn -[made].
  - destruct (Hr w) as [Hm Hd]. rewrite Hm, Hd. auto.
  - destruct (Hr (set_dirs (folder :: dirs w) w)) as [Hm Hd].
    change (made (MakeDirs folder :: ?l)) with (folder :: made l).
    rewrite Hm, Hd. auto.
Qed.

Lemma ff_rest_keeps_dirs tl tsl :
  respects keeps_dirs_rel
    (model <- Feedforward.Autoencoder.__init__;;
     Adam_init;;
     for_each (seq 1 Feedforward.epochs) (Feedforward.epoch_body model tl tsl)).
Proof.
  pose proof (ff_forward_respects (R := keeps_dirs_rel)).
  pose proof ff_init_keeps_dirs.
  unfold Feedforward.epoch_body, Feedforward.train,
    Feedforward.train_loop, Feedforward.train_body, Feedforward.test,
    Feedforward.test_body, Feedforward.flatten.
  keeps_dirs.
Qed.

Lemma conv_rest_keeps_dirs tl tsl :
  respects keeps_dirs_rel
    (model <- ConvolutionalCifar.Autoencoder.__init__;;
     Adam_init;;
     for_each (seq 1 ConvolutionalCifar.epochs)
       (ConvolutionalCifar.epoch_body model tl tsl)).
Proof.
  pose proof (conv_forward_respects (R := keeps_dirs_rel)).
  pose proof conv_init_keeps_dirs.
  unfold ConvolutionalCifar.epoch_body, ConvolutionalCifar.train,
    ConvolutionalCifar.train_loop, ConvolutionalCifar.train_body,
    ConvolutionalCifar.test, ConvolutionalCifar.test_body.
  keeps_dirs.
Qed.

Lemma res_rest_keeps_dirs tl tsl bottleneck folder :
  respects keeps_dirs_rel
    (model <- ResnetCifar.Autoencoder.__init__ bottleneck;;
     Adam_init;;
     for_each (seq 1 ResnetCifar.epochs)
       (ResnetCifar.epoch_body model folder tl tsl)).
Proof.
  assert (Hf : forall m x,
             respects keeps_dirs_rel (ResnetCifar.Autoencoder.forward m x)).
  { intros m x. rule res_forward_respects. auto with effects. }
  pose proof res_init_keeps_dirs.
  unfold ResnetCifar.epoch_body, ResnetCifar.train, ResnetCifar.train_loop,
    ResnetCifar.train_body, ResnetCifar.test, ResnetCifar.test_body.
  keeps_dirs.
Qed.

Lemma cond_rest_keeps_dirs tl tsl :
  respects keeps_dirs_rel
    (model <- ConditionalAutoencoder.Autoencoder.__init__;;
     Adam_init;;
     for_each (seq 1 ConditionalAutoencoder.epochs)
       (ConditionalAutoencoder.epoch_body model tl tsl)).
Proof.
  assert (Hf : forall m x y,
             respects keeps_dirs_rel
               (ConditionalAutoencoder.Autoencoder.conditional_forward m x y)).
  { intros m x y. rule cond_forward_respects; auto with effects. }
  pose proof cond_init_keeps_dirs.
  unfold ConditionalAutoencoder.epoch_body, ConditionalAutoencoder.train,
    ConditionalAutoencoder.train_loop, ConditionalAutoencoder.train_body,
    ConditionalAutoencoder.test, ConditionalAutoencoder.test_body.
  keeps_dirs.
Qed.

(** X13. Each script calls [os.makedirs] at most once in a run, for its
    own output directory and for no other, and exactly when that directory
    is not there when [main] starts; afterwards the directory exists.  This
    holds whatever the data loaders yield, also of a run that raises.  In
    particular a second run in the same place creates nothing. *)
Theorem output_directory_created_once :
  (forall tl tsl w,
     made (events (Feedforward.main tl tsl w))
     = (if existsb (String.eqb Feedforward.folder) (dirs w)
        then [] else [Feedforward.folder]) /\
     dirs (final (Feedforward.main tl tsl w))
     = (if existsb (String.eqb Feedforward.folder) (dirs w)
        then dirs w else Feedforward.folder :: dirs w)) /\
  (forall tl tsl w,
     made (events (ConvolutionalCifar.main tl tsl w))
     = (if existsb (String.eqb ConvolutionalCifar.folder) (dirs w)
        then [] else [ConvolutionalCifar.folder]) /\
     dirs (final (ConvolutionalCifar.main tl tsl w))
     = (if existsb (String.eqb ConvolutionalCifar.folder) (dirs w)
        then dirs w else ConvolutionalCifar.folder :: dirs w)) /\
  (forall tl tsl bottleneck w,
     made (events (ResnetCifar.main tl tsl bottleneck w))
     = (if existsb (String.eqb (ResnetCifar.folder bottleneck)) (dirs w)
        then [] else [ResnetCifar.folder bottleneck]) /\
     dirs (final (ResnetCifar.main tl tsl bottleneck w))
     = (if existsb (String.eqb (ResnetCifar.folder bottleneck)) (dirs w)
        then dirs w else ResnetCifar.folder bottleneck :: dirs w)) /\
  (forall tl tsl w,
     made (events (ConditionalAutoencoder.main tl tsl w))
     = (if existsb (String.eqb ConditionalAutoencoder.folder) (dirs w)
        then [] else [ConditionalAutoencoder.folder]) /\
     dirs (final (ConditionalAutoencoder.main tl tsl w))
     = (if existsb (String.eqb ConditionalAutoencoder.folder) (dirs w)
        then dirs w else ConditionalAutoencoder.folder :: dirs w)).
Proof.
  split; [| split; [| split]].
  - intros tl tsl w. apply ensure_folder_then, ff_rest_keeps_dirs.
  - intros tl tsl w. apply ensure_folder_then, conv_rest_keeps_dirs.
  - intros tl tsl bottleneck w. unfold ResnetCifar.main. cbv zeta.
    apply ensure_folder_then, res_rest_keeps_dirs.
  - intros tl tsl w. apply ensure_folder_then, cond_rest_keeps_dirs.
Qed.

End DirectoriesOfScripts.

(** ** One batch of training *)

Section TrainingStep.
Context {B : Backend}.

(** The gradients after [optimizer.zero_grad()]. *)
Definition zeroed (h : Heap) : Heap :=
  map (fun c => repeat 0%R (length c)) h.

(** The state after one backward pass and one step of the optimizer, the
    gradients having been zeroed first: [g] is the gradient of [loss] at
    the parameters of [w]. *)
Definition stepped (loss : World -> Heap -> LossValue) (w : World) : World :=
  let w0 := set_grad (zeroed (heap w)) w in
  let g := backward (loss w0) (heap w) (zeroed (heap w)) in
  set_optimizer (snd (adam_step (optimizer w) (heap w) g))
    (set_heap (fst (adam_step (optimizer w) (heap w) g)) (set_grad g w)).

Lemma conv_train_step m i b acc n w :
  conv_autoencoder_ok m -> shape (fst b) = [n; 3; 32; 32]%N ->
  yields (ConvolutionalCifar.train_body m i b acc) w (fun ev w' acc' =>
    exists loss,
      value (ConvolutionalCifar.batch_loss m (fst b)
               (set_grad (zeroed (heap w)) w)) = Some loss /\
      acc' = loss_add acc loss /\
      ev = [SetDescription "train loss: " (loss_div acc' (i + 1))] /\
      w' = stepped (loss_on (ConvolutionalCifar.batch_loss m (fst b))) w).
Proof.
  intros Hm Hs.
  unfold ConvolutionalCifar.train_body, zero_grad, loss_backward,
    optimizer_step, set_description.
  cbn zeta. do 2 effect_step.
  apply yields_bind. eapply yields_weaken;
    [apply yields_keep, Hm; eassumption |].
  cbn beta. intros ? ? t (Hv & -> & -> & Ht & _).
  destruct (mse_loss_defined t (fst b)) as (l & Hl); [congruence |].
  apply yields_bind. eapply yields_lift; [exact Hl |].
  do 3 effect_step. apply yields_ret.
  exists l. split; [| repeat split].
  unfold ConvolutionalCifar.batch_loss, bind.
  change (set_grad (zeroed (heap w)) w)
    with (set_grad (map (fun c => repeat 0%R (length c)) (heap w)) w).
  rewrite Hv. cbn. now rewrite Hl.
Qed.

Lemma ff_train_step m i b acc w :
  ff_arch m -> mnist_batch b ->
  yields (Feedforward.train_body m i b acc) w (fun ev w' acc' =>
    exists x loss,
      value (Feedforward.flatten (fst b) w) = Some x /\
      value (Feedforward.batch_loss m x (set_grad (zeroed (heap w)) w))
        = Some loss /\
      acc' = loss_add acc loss /\
      ev = [SetDescription "train loss: " (loss_div acc' (i + 1))] /\
      w' = stepped (loss_on (Feedforward.batch_loss m x)) w).
Proof.
  intros Hm (n & Hs & Hwf & Hn & Hu).
  unfold Feedforward.train_body, zero_grad, loss_backward, optimizer_step,
    set_description.
  apply yields_bind. eapply yields_weaken;
    [apply yields_keep, flatten_mnist; eassumption |].
  cbn beta. intros ? ? x (Hx & -> & -> & Hsx & Hdx).
  do 2 effect_step.
  apply yields_bind. eapply yields_weaken;
    [apply yields_keep, ff_forward; eassumption |].
  cbn beta. intros ? ? out (Hout & -> & -> & Hso & Hlo & Huo).
  destruct (bce_nonneg out x (n := N.to_nat n * N.to_nat 784))
    as (l & Hl & Hpos);
    [ congruence | assumption
    | rewrite Hdx; now apply mnist_lengths | lia
    | assumption | now rewrite Hdx | ].
  apply yields_bind. eapply yields_lift; [exact Hl |].
  do 3 effect_step. apply yields_ret.
  exists x, (Finite l). split; [exact Hx |]. split; [| repeat split].
  unfold Feedforward.batch_loss, bind.
  change (set_grad (zeroed (heap w)) w)
    with (set_grad (map (fun c => repeat 0%R (length c)) (heap w)) w).
  rewrite Hout. cbn. now rewrite Hl.
Qed.

(** X14. One turn of the training loop of the convolutional and of the
    feedforward script, on a batch of the expected shape, is one step of
    optimisation and nothing else.  The loss added to the accumulator is
    the loss of the model on this batch at the current parameters.  The
    state afterwards is the state before with the gradients set to the
    gradient of that loss taken from zeroed gradients, so nothing is
    accumulated from earlier batches, and with the parameters and the
    optimizer moved by one Adam step from where they were; the mode, the
    random generator and the directories are untouched.  The only event is
    one progress description, holding the accumulator divided by the
    number of batches so far. *)
Theorem one_optimisation_step_per_batch :
  constructs ConvolutionalCifar.Autoencoder.__init__ (fun m =>
    forall i b acc n w, shape (fst b) = [n; 3; 32; 32]%N ->
      yields (ConvolutionalCifar.train_body m i b acc) w (fun ev w' acc' =>
        exists loss,
          value (ConvolutionalCifar.batch_loss m (fst b)
                   (set_grad (zeroed (heap w)) w)) = Some loss /\
          acc' = loss_add acc loss /\
          ev = [SetDescription "train loss: " (loss_div acc' (i + 1))] /\
          w' = stepped (loss_on (ConvolutionalCifar.batch_loss m (fst b))) w)) /\
  constructs Feedforward.Autoencoder.__init__ (fun m =>
    forall i b acc w, mnist_batch b ->
      yields (Feedforward.train_body m i b acc) w (fun ev w' acc' =>
        exists x loss,
          value (Feedforward.flatten (fst b) w) = Some x /\
          value (Feedforward.batch_loss m x (set_grad (zeroed (heap w)) w))
            = Some loss /\
          acc' = loss_add acc loss /\
          ev = [SetDescription "train loss: " (loss_div acc' (i + 1))] /\
          w' = stepped (loss_on (Feedforward.batch_loss m x)) w)).
Proof.
  split.
  - eapply constructs_weaken; [apply conv_autoencoder_init |].
    intros m Hm i b acc n w Hs. now apply conv_train_step with (n := n).
  - eapply constructs_weaken; [apply ff_init |].
    intros m Hm i b acc w Hb. now apply ff_train_step.
Qed.

End TrainingStep.

(** X14 on a convolutional model built in a fresh process and a batch of
    one hundred black images. *)
Lemma one_optimisation_step_per_batch_witness :
  exists m,
    value (@ConvolutionalCifar.Autoencoder.__init__ zero_backend fresh_world)
      = Some m /\
    yields (ConvolutionalCifar.train_body m 0 cifar_zeros (Finite 0))
      fresh_world
      (fun ev w' acc' =>
         exists loss,
           value (ConvolutionalCifar.batch_loss m (fst cifar_zeros)
                    (set_grad (zeroed (heap fresh_world)) fresh_world))
             = Some loss /\
           acc' = loss_add (Finite 0) loss /\
           ev = [SetDescription "train loss: " (loss_div acc' (0 + 1))] /\
           w' = stepped
                  (loss_on (ConvolutionalCifar.batch_loss m (fst cifar_zeros)))
                  fresh_world).
Proof.
  destruct (proj1 (@one_optimisation_step_per_batch zero_backend) fresh_world)
    as (m & Hm & _ & Hstep).
  exists m. split; [exact Hm |].
  apply (Hstep 0%nat cifar_zeros (Finite 0) 100%N fresh_world). reflexivity.
Defined.

(** ** The progress line *)

Section Progress.
Context {B : Backend}.

(** The progress descriptions of a trace, in order. *)
Definition descriptions (ev : list Event) : list (string * LossValue) :=
  flat_map (fun e => match e with SetDescription d v => [(d, v)] | _ => [] end)
           ev.

Lemma descriptions_app a b :
  descriptions (a ++ b) = descriptions a ++ descriptions b.
Proof. apply flat_map_app. Qed.

(** No progress description is emitted. *)
Definition undescribed_rel (w : World) (ev : list Event) (w' : World) : Prop :=
  descriptions ev = [].

#[export] Instance undescribed_comp : Compositional undescribed_rel.
Proof.
  split; unfold undescribed_rel.
  - reflexivity.
  - intros w ev w' ev' w'' H1 H2. rewrite descriptions_app, H1, H2.
    reflexivity.
Qed.











End Progress.


(** ** The contents of the files *)

Section SavedFiles.
Context {B : Backend}.

(** The files written in a trace, in order, with what was written. *)
Definition saved (ev : list Event) : list (string * FileContent) :=
  flat_map (fun e => match e with SaveFile p c => [(p, c)] | _ => [] end) ev.

Lemma saved_app a b : saved (a ++ b) = saved a ++ saved b.
Proof. apply flat_map_app. Qed.

Lemma saved_nil ev : paths ev = [] -> saved ev = [].
Proof.
  induction ev as [| e ev IH]; [reflexivity |].
  destruct e; cbn; try exact IH. discriminate.
Qed.

Lemma tensor_eta t s : shape t = s -> mkTensor s (data t) = t.
Proof. intros <-. now destruct t. Qed.

(** An evaluation phase writes what its first batch writes when no later
    batch writes a file. *)
Lemma test_saves_first
  (body : nat -> Batch -> LossValue -> Prog LossValue) b rest w S :
  yields (body 0%nat b (Finite 0)) (set_training false w)
    (fun ev _ _ => saved ev = S) ->
  (forall i a acc w', (1 <= i)%nat -> In a rest ->
     yields (body i a acc) w' (fun ev _ _ => paths ev = [])) ->
  yields (model_eval;; for_enumerate 0 (b :: rest) body (Finite 0);; ret tt) w
    (fun ev _ _ => saved ev = S).
Proof.
  intros Hfirst Hlater. unfold model_eval.
  apply yields_bind, yields_modify. apply yields_bind.
  cbn [for_enumerate]. apply yields_bind.
  eapply yields_weaken; [exact Hfirst |].
  cbn beta. intros ev1 w1 acc1 Hs.
  eapply yields_weaken.
  { apply for_enumerate_yields with (Inv := fun _ => True); [exact I |].
    intros j a acc' w' Hj Ha _.
    eapply yields_weaken; [apply Hlater; [lia | exact Ha] |].
    cbn beta. intros. tauto. }
  cbn beta. intros ev2 w2 acc2 [Hp _]. apply yields_ret.
  rewrite !saved_app, Hs, (saved_nil _ Hp). cbn. now rewrite !app_nil_r.
Qed.

End SavedFiles.

(** The body of [test] on the first batch, with what the two grids hold. *)
Ltac test_first_saved Hm :=
  let l := fresh "l" in
  let Hl := fresh "Hl" in
  unfold set_description, save_image; cbn zeta;
  apply yields_bind; eapply yields_weaken;
    [apply yields_keep, Hm; eassumption |]; take;
  match goal with
  | Hb : shape (fst ?b) = _, Ht : shape ?t = _, Hv : value _ = Some ?t |- _ =>
      destruct (mse_loss_defined t (fst b)) as (l & Hl);
      [ congruence | ];
      apply yields_bind; eapply yields_lift; [exact Hl |];
      try (apply yields_bind; apply yields_emit);
      cbn [Nat.eqb]; apply yields_bind; apply yields_bind;
      (eapply yields_lift; [apply view_cifar_grid; assumption |]);
      apply yields_bind;
      (eapply yields_lift; [apply view_cifar_grid; assumption |]);
      effect_step; apply yields_emit; apply yields_ret;
      exists t; split; [exact Hv |];
      rewrite ?saved_app;
      repeat match goal with
             | H : paths ?ev = [] |- _ => rewrite (saved_nil ev H); clear H
             end;
      cbn [saved flat_map app];
      rewrite (tensor_eta t Ht), (tensor_eta (fst b) Hb); reflexivity
  end.

Section SavedGrids.
Context {B : Backend}.

Lemma conv_test_first_saved m folder epoch b acc w :
  conv_autoencoder_ok m -> shape (fst b) = [100; 3; 32; 32]%N ->
  yields (ConvolutionalCifar.test_body m folder epoch 0 b acc) w
    (fun ev _ _ =>
       exists out,
         value (ConvolutionalCifar.Autoencoder.forward m (fst b) w) = Some out /\
         saved ev
         = [((folder ++ "/" ++ str epoch ++ ".png")%string, Image out 10);
            ((folder ++ "/baseline" ++ str epoch ++ ".png")%string,
             Image (fst b) 10)]).
Proof.
  intros Hm Hs. unfold ConvolutionalCifar.test_body. test_first_saved Hm.
Qed.

Lemma res_test_first_saved m folder epoch b acc w :
  res_autoencoder_ok m -> shape (fst b) = [100; 3; 32; 32]%N ->
  yields (ResnetCifar.test_body m folder epoch 0 b acc) w
    (fun ev _ _ =>
       exists out,
         value (ResnetCifar.Autoencoder.forward m (fst b) w) = Some out /\
         saved ev
         = [((folder ++ "/" ++ str epoch ++ ".png")%string, Image out 10);
            ((folder ++ "/" ++ str epoch ++ "baseline.png")%string,
             Image (fst b) 10)]).
Proof.
  intros Hm Hs. unfold ResnetCifar.test_body. test_first_saved Hm.
Qed.

Lemma cond_test_first_saved m folder epoch b acc w :
  cond_autoencoder_ok m -> shape (fst b) = [100; 3; 32; 32]%N ->
  valid_labels (snd b) 100 ->
  yields (ConditionalAutoencoder.test_body m folder epoch 0 b acc) w
    (fun ev _ _ =>
       exists out,
         value (ConditionalAutoencoder.Autoencoder.conditional_forward m
                  (fst b) (snd b) w) = Some out /\
         saved ev
         = [((folder ++ "/" ++ str epoch ++ ".png")%string, Image out 10);
            ((folder ++ "/" ++ str epoch ++ "baseline.png")%string,
             Image (fst b) 10)]).
Proof.
  intros Hm Hs Hy. unfold ConditionalAutoencoder.test_body.
  test_first_saved Hm.
Qed.

Lemma ff_test_first_saved m folder epoch b acc w :
  ff_arch m -> mnist_batch b -> shape (fst b) = [100; 1; 28; 28]%N ->
  yields (Feedforward.test_body m folder epoch 0 b acc) w
    (fun ev _ _ =>
       exists x out,
         value (Feedforward.flatten (fst b) w) = Some x /\
         value (Feedforward.Autoencoder.forward m x w) = Some out /\
         saved ev
         = [((folder ++ "/" ++ str epoch ++ ".png")%string,
             Image (mkTensor [100; 1; 28; 28]%N (data out)) 10);
            ((folder ++ "/baseline" ++ str epoch ++ ".png")%string,
             Image (fst b) 10)]).
Proof.
  intros Hm (n & Hs & Hwf & Hn & Hu) H100.
  assert (n = 100%N) by congruence. subst n.
  unfold Feedforward.test_body, set_description, save_image.
  apply yields_bind. eapply yields_weaken;
    [apply yields_keep, flatten_mnist; eassumption |].
  cbn beta. intros ? ? x (Hx & -> & -> & Hsx & Hdx).
  apply yields_bind. eapply yields_weaken;
    [apply yields_keep, ff_forward; eassumption |].
  cbn beta. intros ? ? out (Hout & -> & -> & Hso & Hlo & Huo).
  destruct (bce_nonneg out x (n := N.to_nat 100 * N.to_nat 784))
    as (l & Hl & Hpos);
    [ congruence | assumption
    | rewrite Hdx; now apply mnist_lengths | lia
    | assumption | now rewrite Hdx | ].
  apply yields_bind. eapply yields_lift; [exact Hl |].
  effect_step. cbn [Nat.eqb]. apply yields_bind. apply yields_bind.
  eapply yields_lift; [apply view_mnist_grid; assumption |].
  apply yields_bind.
  eapply yields_lift; [apply view_mnist_grid; assumption |].
  effect_step. apply yields_emit. apply yields_ret.
  exists x, out. split; [exact Hx |]. split; [exact Hout |].
  cbn [saved flat_map app]. rewrite Hdx, (tensor_eta (fst b) Hs). reflexivity.
Qed.

(** X16. What the two grids of an epoch hold.  In each script the
    evaluation phase, run on a freshly built model and a test loader whose
    first batch holds one hundred images, writes exactly two files: the
    first holds the output of the model on the first batch, computed in
    evaluation mode, and the second holds the images of the first batch
    unchanged, both arranged ten to a row.  In the feedforward script the
    model sees the batch flattened and its output is shaped back to
    100 x 1 x 28 x 28. *)
Theorem grids_show_first_test_batch :
  constructs Feedforward.Autoencoder.__init__ (fun m =>
    forall b rest folder epoch w,
      Forall mnist_batch (b :: rest) ->
      shape (fst b) = [100; 1; 28; 28]%N ->
      yields (Feedforward.test m (b :: rest) folder epoch) w (fun ev _ _ =>
        exists x out,
          value (Feedforward.flatten (fst b) (set_training false w)) = Some x /\
          value (Feedforward.Autoencoder.forward m x (set_training false w))
            = Some out /\
          saved ev
          = [((folder ++ "/" ++ str epoch ++ ".png")%string,
              Image (mkTensor [100; 1; 28; 28]%N (data out)) 10);
             ((folder ++ "/baseline" ++ str epoch ++ ".png")%string,
              Image (fst b) 10)])) /\
  constructs ConvolutionalCifar.Autoencoder.__init__ (fun m =>
    forall b rest folder epoch w,
      Forall cifar_batch (b :: rest) ->
      shape (fst b) = [100; 3; 32; 32]%N ->
      yields (ConvolutionalCifar.test m (b :: rest) folder epoch) w
        (fun ev _ _ =>
           exists out,
             value (ConvolutionalCifar.Autoencoder.forward m (fst b)
                      (set_training false w)) = Some out /\
             saved ev
             = [((folder ++ "/" ++ str epoch ++ ".png")%string, Image out 10);
                ((folder ++ "/baseline" ++ str epoch ++ ".png")%string,
                 Image (fst b) 10)])) /\
  (forall bottleneck,
     constructs (ResnetCifar.Autoencoder.__init__ bottleneck) (fun m =>
       forall b rest folder epoch w,
         Forall cifar_batch (b :: rest) ->
         shape (fst b) = [100; 3; 32; 32]%N ->
         yields (ResnetCifar.test m (b :: rest) folder epoch) w
           (fun ev _ _ =>
              exists out,
                value (ResnetCifar.Autoencoder.forward m (fst b)
                         (set_training false w)) = Some out /\
                saved ev
                = [((folder ++ "/" ++ str epoch ++ ".png")%string,
                    Image out 10);
                   ((folder ++ "/" ++ str epoch ++ "baseline.png")%string,
                    Image (fst b) 10)]))) /\
  constructs ConditionalAutoencoder.Autoencoder.__init__ (fun m =>
    forall b rest folder epoch w,
      Forall cifar_batch (b :: rest) ->
      shape (fst b) = [100; 3; 32; 32]%N ->
      yields (ConditionalAutoencoder.test m (b :: rest) folder epoch) w
        (fun ev _ _ =>
           exists out,
             value (ConditionalAutoencoder.Autoencoder.conditional_forward m
                      (fst b) (snd b) (set_training false w)) = Some out /\
             saved ev
             = [((folder ++ "/" ++ str epoch ++ ".png")%string, Image out 10);
                ((folder ++ "/" ++ str epoch ++ "baseline.png")%string,
                 Image (fst b) 10)])).
Proof.
  split; [| split; [| split]].
  - eapply constructs_weaken; [apply ff_init |].
    intros m Hm b rest folder epoch w Hall H100.
    apply Forall_cons_iff in Hall as [Hb Hrest].
    destruct (ff_test_first_saved folder epoch (Finite 0)
                (set_training false w) Hm Hb H100)
      as (acc & Hacc & x & out & Hx & Hout & Hsaved).
    eapply yields_weaken.
    { unfold Feedforward.test. apply test_saves_first.
      - exists acc. split; [exact Hacc | exact Hsaved].
      - intros i a acc' w' Hi Ha. apply ff_test_later; [exact Hm | exact Hi |].
        exact (proj1 (Forall_forall _ rest) Hrest _ Ha). }
    cbn beta. intros ev w' _ Hs. exists x, out. auto.
  - eapply constructs_weaken; [apply conv_autoencoder_init |].
    intros m Hm b rest folder epoch w Hall H100.
    apply Forall_cons_iff in Hall as [Hb Hrest].
    destruct (conv_test_first_saved folder epoch b (Finite 0)
                (set_training false w) Hm H100)
      as (acc & Hacc & out & Hout & Hsaved).
    eapply yields_weaken.
    { unfold ConvolutionalCifar.test. apply test_saves_first.
      - exists acc. split; [exact Hacc | exact Hsaved].
      - intros i a acc' w' Hi Ha. apply conv_test_later; [exact Hm | exact Hi |].
        exact (proj1 (Forall_forall _ rest) Hrest _ Ha). }
    cbn beta. intros ev w' _ Hs. exists out. auto.
  - intros bottleneck.
    eapply constructs_weaken; [apply res_autoencoder_init |].
    intros m Hm b rest folder epoch w Hall H100.
    apply Forall_cons_iff in Hall as [Hb Hrest].
    destruct (res_test_first_saved folder epoch b (Finite 0)
                (set_training false w) Hm H100)
      as (acc & Hacc & out & Hout & Hsaved).
    eapply yields_weaken.
    { unfold ResnetCifar.test. apply test_saves_first.
      - exists acc. split; [exact Hacc | exact Hsaved].
      - intros i a acc' w' Hi Ha. apply res_test_later; [exact Hm | exact Hi |].
        exact (proj1 (Forall_forall _ rest) Hrest _ Ha). }
    cbn beta. intros ev w' _ Hs. exists out. auto.
  - eapply constructs_weaken; [apply cond_autoencoder_init |].
    intros m Hm b rest folder epoch w Hall H100.
    apply Forall_cons_iff in Hall as [Hb Hrest].
    assert (Hy : valid_labels (snd b) 100).
    { destruct Hb as (n & Hs & Hy & _). congruence. }
    destruct (cond_test_first_saved folder epoch b (Finite 0)
                (set_training false w) Hm H100 Hy)
      as (acc & Hacc & out & Hout & Hsaved).
    eapply yields_weaken.
    { unfold ConditionalAutoencoder.test. apply test_saves_first.
      - exists acc. split; [exact Hacc | exact Hsaved].
      - intros i a acc' w' Hi Ha. apply cond_test_later; [exact Hm | exact Hi |].
        exact (proj1 (Forall_forall _ rest) Hrest _ Ha). }
    cbn beta. intros ev w' _ Hs. exists out. auto.
Qed.

End SavedGrids.

(** X16 on the convolutional script: a model built in a fresh process and
    a test loader of one batch of one hundred black images. *)
Lemma grids_show_first_test_batch_witness :
  exists m,
    value (@ConvolutionalCifar.Autoencoder.__init__ zero_backend fresh_world)
      = Some m /\
    yields (ConvolutionalCifar.test m [cifar_zeros] "convolutional_cifar" 1)
      fresh_world
      (fun ev _ _ =>
         exists out,
           value (ConvolutionalCifar.Autoencoder.forward m (fst cifar_zeros)
                    (set_training false fresh_world)) = Some out /\
           saved ev
           = [(("convolutional_cifar" ++ "/" ++ str 1 ++ ".png")%string,
               Image out 10);
              (("convolutional_cifar" ++ "/baseline" ++ str 1 ++ ".png")%string,
               Image (fst cifar_zeros) 10)]).
Proof.
  destruct (proj1 (proj2 (@grids_show_first_test_batch zero_backend))
              fresh_world) as (m & Hm & _ & Hgrid).
  exists m. split; [exact Hm |].
  apply (Hgrid cifar_zeros [] "convolutional_cifar"%string 1%nat fresh_world).
  - constructor; [exact cifar_zeros_batch | constructor].
  - reflexivity.
Defined.

(** ** The checkpoint of an epoch *)

Section Checkpoints.
Context {B : Backend}.












End Checkpoints.


(** ** A run without test data *)

Section EmptyTestLoader.
Context {B : Backend}.








End EmptyTestLoader.


(** ** The conditional affine transform *)

Section Stretch.
Context {B : Backend}.

















End Stretch.

Section AffineLemmas.
Context {B : Backend}.










End AffineLemmas.

Section Affine.
Context {B : Backend}.
Import ConditionalAutoencoder.










End Affine.

